(** * The company-registry ingestion pipeline: [index.js] and [index.http.js]

    A shallow embedding of the two ingestion programs of the repository
    (the transactional command-line program [index.js] and its HTTP sibling
    [index.http.js]) together with the relational store they write to, and
    the properties of the pipeline established on it.

    Layout: JavaScript values and the lenient accessors of the programs
    ([Js]); string tests ([Text]); the external libraries as an interface
    ([Platform]); the relational store ([Sql]); the section extractors and
    the two [main] functions; then the theorems. *)

From Stdlib Require Import ZArith List String Ascii Bool Lia PeanoNat DecimalString.
From Stdlib Require Import DecimalZ.
Import ListNotations.
Local Open Scope string_scope.
Set Warnings "-register-all".
Local Open Scope list_scope.

(** ** JavaScript values *)

Module Js.

(** A parsed JSON document.  An object is the list of its own enumerable
    properties in enumeration order (keys pairwise distinct); numbers are
    the integral ones. *)
Inductive json : Type :=
| JNull
| JBool (b : bool)
| JNum (n : Z)
| JStr (s : string)
| JArr (items : list json)
| JObj (props : list (string * json)).

(** A JavaScript value as the programs meet it: [None] is [undefined]. *)
Definition jsval : Type := option json.

Definition undefined : jsval := None.

(** Outcome of a computation that may throw; [Throw] carries [err.message]. *)
Inductive result (A : Type) : Type :=
| Ok (a : A)
| Throw (msg : string).
Arguments Ok {A} a.
Arguments Throw {A} msg.

Definition rbind {A B} (r : result A) (k : A -> result B) : result B :=
  match r with
  | Ok a => k a
  | Throw m => Throw m
  end.

Declare Scope result_scope.
Delimit Scope result_scope with result.
Notation "x <~ r ;; k" := (rbind r (fun x => k))
  (at level 61, r at next level, right associativity) : result_scope.
Local Open Scope result_scope.

(** Truthiness, as tested by [if], [!], [||] and [filter(Boolean)]. *)
Definition truthy (v : json) : bool :=
  match v with
  | JNull => false
  | JBool b => b
  | JNum n => negb (Z.eqb n 0)
  | JStr s => negb (String.eqb s EmptyString)
  | JArr _ | JObj _ => true
  end.

Definition truthyv (v : jsval) : bool :=
  match v with
  | Some j => truthy j
  | None => false
  end.

(** [a || b] on values already computed. *)
Definition jor (a b : jsval) : jsval := if truthyv a then a else b.

(** [a ?? b]. *)
Definition nullish (a b : jsval) : jsval :=
  match a with
  | None | Some JNull => b
  | Some _ => a
  end.

Fixpoint assoc {A} (k : string) (l : list (string * A)) : option A :=
  match l with
  | [] => None
  | (k', v) :: rest => if String.eqb k k' then Some v else assoc k rest
  end.

(** [v[k]] for a value that is neither [null] nor [undefined], and a
    property name that is not an array index, not ["length"] and not
    inherited from a prototype: every name the programs read is of that
    kind. *)
Definition field (v : json) (k : string) : jsval :=
  match v with
  | JObj props => assoc k props
  | _ => undefined
  end.

(** [v?.k] *)
Definition optfield (v : jsval) (k : string) : jsval :=
  match v with
  | None | Some JNull => undefined
  | Some j => field j k
  end.

(** [v.k], which throws on [null] and [undefined]. *)
Definition dot (v : jsval) (k : string) : result jsval :=
  match v with
  | None =>
      Throw ("Cannot read properties of undefined (reading '" ++ k ++ "')")
  | Some JNull =>
      Throw ("Cannot read properties of null (reading '" ++ k ++ "')")
  | Some j => Ok (field j k)
  end.

(** [safeGet(obj, pathArr)] with the default [def = undefined]:
    [pathArr.reduce((acc, key) =>
       (acc && acc[key] !== undefined ? acc[key] : def), obj)]. *)
Definition safeGet_step (acc : jsval) (key : string) : jsval :=
  if truthyv acc then
    match acc with
    | Some j => field j key
    | None => undefined
    end
  else undefined.

Definition safeGet (obj : jsval) (pathArr : list string) : jsval :=
  fold_left safeGet_step pathArr obj.

(** [typeof v === 'number'], ['string'], and the scalar test
    [v !== null && typeof v !== 'object']. *)
Definition is_number (v : json) : bool :=
  match v with JNum _ => true | _ => false end.

Definition is_string (v : json) : bool :=
  match v with JStr _ => true | _ => false end.

Definition is_scalar (v : json) : bool :=
  match v with
  | JBool _ | JNum _ | JStr _ => true
  | JNull | JArr _ | JObj _ => false
  end.

(** [typeof v === 'object'] for a truthy [v]. *)
Definition is_object (v : json) : bool :=
  match v with
  | JArr _ | JObj _ => true
  | _ => false
  end.

Definition is_array (v : json) : bool :=
  match v with JArr _ => true | _ => false end.

(** Decimal rendering of an index or of an integral number. *)
Definition string_of_Z (n : Z) : string := NilZero.string_of_int (Z.to_int n).
Definition string_of_nat (n : nat) : string := string_of_Z (Z.of_nat n).

Fixpoint indexed {A} (i : nat) (l : list A) : list (string * A) :=
  match l with
  | [] => []
  | x :: rest => (string_of_nat i, x) :: indexed (S i) rest
  end.

Fixpoint chars (s : string) : list json :=
  match s with
  | EmptyString => []
  | String c rest => JStr (String c EmptyString) :: chars rest
  end.

(** [Object.entries(v)] for [v] other than [null]/[undefined]; also what
    the spread [{...v}] copies. *)
Definition entries (v : json) : list (string * json) :=
  match v with
  | JObj props => props
  | JArr items => indexed 0 items
  | JStr s => indexed 0 (chars s)
  | JNull | JBool _ | JNum _ => []
  end.

(** Property assignment in an object under construction: an existing key
    keeps its place. *)
Fixpoint set_prop (k : string) (v : json) (props : list (string * json))
  : list (string * json) :=
  match props with
  | [] => [(k, v)]
  | (k', v') :: rest =>
      if String.eqb k k' then (k', v) :: rest
      else (k', v') :: set_prop k v rest
  end.

Definition set_props (base : list (string * json))
  (more : list (string * json)) : list (string * json) :=
  fold_left (fun acc kv => set_prop (fst kv) (snd kv) acc) more base.

(** [{...v}] inside an object literal whose earlier properties are [base]. *)
Definition spread (base : list (string * json)) (v : jsval)
  : list (string * json) :=
  match v with
  | None => base
  | Some j => set_props base (entries j)
  end.

(** [String(v)]. *)
Fixpoint js_String (v : json) : string :=
  match v with
  | JNull => "null"
  | JBool true => "true"
  | JBool false => "false"
  | JNum n => string_of_Z n
  | JStr s => s
  | JObj _ => "[object Object]"
  | JArr items =>
      let elt (x : json) : string :=
        match x with JNull => EmptyString | _ => js_String x end in
      String.concat "," (map elt items)
  end.

Definition js_Stringv (v : jsval) : string :=
  match v with
  | None => "undefined"
  | Some j => js_String j
  end.

End Js.
Export Js.
Local Open Scope result_scope.

(** ** String tests used by the extractors *)

Module Text.

Definition is_upper (c : ascii) : bool :=
  let n := nat_of_ascii c in (65 <=? n)%nat && (n <=? 90)%nat.

Definition is_digit (c : ascii) : bool :=
  let n := nat_of_ascii c in (48 <=? n)%nat && (n <=? 57)%nat.

Definition digit_value (c : ascii) : Z := Z.of_nat (nat_of_ascii c - 48).

(** [s.toLowerCase()]; the keys are compared with ASCII words only. *)
Definition lower_char (c : ascii) : ascii :=
  if is_upper c then ascii_of_nat (nat_of_ascii c + 32) else c.

Fixpoint toLowerCase (s : string) : string :=
  match s with
  | EmptyString => EmptyString
  | String c rest => String (lower_char c) (toLowerCase rest)
  end.

(** [s.startsWith(p)] and [s.includes(p)]. *)
Definition startsWith (s p : string) : bool := String.prefix p s.

Fixpoint includes (s p : string) : bool :=
  String.prefix p s ||
  match s with
  | EmptyString => false
  | String _ rest => includes rest p
  end.

(** [a.join('.')]. *)
Definition join_dot (a : list string) : string := String.concat "." a.

Fixpoint span (p : ascii -> bool) (s : string) : nat * string :=
  match s with
  | EmptyString => (0%nat, EmptyString)
  | String c rest =>
      if p c then let (n, tl) := span p rest in (S n, tl) else (0%nat, s)
  end.

(** [CODE_RE.test(k)] with [CODE_RE = /^[A-Z]{2,4}\d{2,4}$/]. *)
Definition CODE_RE (k : string) : bool :=
  let (letters, after) := span is_upper k in
  let (digits, tail) := span is_digit after in
  (2 <=? letters)%nat && (letters <=? 4)%nat &&
  (2 <=? digits)%nat && (digits <=? 4)%nat &&
  String.eqb tail EmptyString.

(** [Number(s.match(/20\d{2}/)?.[0])]: the leftmost ["20"] followed by two
    digits, read as a number; [None] when the pattern does not occur. *)
Definition year_here (s : string) : option Z :=
  match s with
  | String a (String b (String d1 (String d2 _))) =>
      if Ascii.eqb a "2" && Ascii.eqb b "0" && is_digit d1 && is_digit d2
      then Some (2000 + 10 * digit_value d1 + digit_value d2)%Z
      else None
  | _ => None
  end.

Fixpoint match_year (s : string) : option Z :=
  match s with
  | EmptyString => None
  | String _ rest =>
      match year_here s with
      | Some y => Some y
      | None => match_year rest
      end
  end.

Definition mem (x : string) (l : list string) : bool :=
  existsb (String.eqb x) l.

End Text.
Export Text.

(** ** Rows produced by the financial extractor, and the run report *)

(** The [amount] property of a candidate line item: a value taken from the
    payload, or [Number(s)] of a string found by the recursive scan. *)
Inductive amount : Type :=
| Amt (v : jsval)
| AmtNumber (s : string).

(** [{year, statement, code, description, amount, currency, source_path}] *)
Record entry : Type := mkEntry {
  e_year : jsval;
  e_statement : string;
  e_code : json;
  e_description : jsval;
  e_amount : amount;
  e_currency : json;
  e_source_path : string
}.

(** The values the schema allows in [ingestions.status]. *)
Inductive run_status : Type := UPDATED | UNCHANGED | OUTDATED | PARTIAL | ERROR.

Definition status_name (s : run_status) : string :=
  match s with
  | UPDATED => "UPDATED"
  | UNCHANGED => "UNCHANGED"
  | OUTDATED => "OUTDATED"
  | PARTIAL => "PARTIAL"
  | ERROR => "ERROR"
  end.

(** What [ensureColumn] returns: [{created, column, pgType}]. *)
Record column_result : Type := mkColumnResult {
  created : bool;
  column : string;
  pgType : option string
}.

(** [{table, reason, row}] *)
Record warning : Type := mkWarning {
  w_table : string;
  w_reason : string;
  w_row : entry
}.

(** The [report] object of [main]; [createdTables] and [updates] are never
    written to. *)
Record report : Type := mkReport {
  ingestionId : string;
  createdColumns : list (string * column_result);
  inserts : list (string * nat);
  skips : list (string * nat);
  warnings : list warning;
  status : run_status
}.

(** [o.k = (o.k || 0) + n] on a counter object. *)
Fixpoint bump (k : string) (n : nat) (o : list (string * nat))
  : list (string * nat) :=
  match o with
  | [] => [(k, n)]
  | (k', m) :: rest =>
      if String.eqb k k' then (k', (m + n)%nat) :: rest
      else (k', m) :: bump k n rest
  end.

(** ** The libraries and the runtime the programs import *)

Class Platform : Type := {
  (** [uuid.v5(name, namespace)] and the successive draws of [uuid.v4()] *)
  uuidv5 : string -> string -> string;
  uuidv4 : nat -> string;
  (** the successive draws of PostgreSQL's [gen_random_uuid()] *)
  gen_random_uuid : nat -> string;
  (** [object-hash], on a payload and on a line item *)
  object_hash : json -> string;
  entry_hash : entry -> string;
  (** [String.prototype.trim] *)
  trim : string -> string;
  (** [new Date(v).toISOString()]; [None] is the [RangeError] of an invalid
      date *)
  toISOString : json -> option string;
  (** [new Date(Date.UTC(Number(year), 11, 31)).toISOString()] *)
  year_end : json -> option string;
  (** [new Date().toISOString()] *)
  clock : string;
  (** [!Number.isNaN(Date.parse(s))] *)
  date_parses : string -> bool;
  (** [Number(s)] as it is serialized ([NaN] is sent as [null]) *)
  js_Number : string -> json;
  (** the server's conversion of a parameter to [integer] and to [text] *)
  pg_integer : json -> option Z;
  pg_text : json -> string
}.

(** [NS], the DNS namespace. *)
Definition NS : string := "6ba7b810-9dad-11d1-80b4-00c04fd430c8".

(** ** The relational store *)

Module Sql.

(** A row: the columns it was given and their values; [JNull] is SQL NULL,
    which is also the value of a column the row does not mention. *)
Definition row : Type := list (string * json).

Definition col (r : row) (c : string) : json :=
  match assoc c r with
  | Some v => v
  | None => JNull
  end.

(** The store: the rows of each table, the columns of each table
    ([information_schema.columns]) and the unique constraints of each
    table, a constraint being the list of its columns. *)
Record db : Type := mkDb {
  tables : string -> list row;
  columns : string -> list string;
  uniques : string -> list (list string)
}.

Definition set_table (t : string) (rows : list row) (d : db) : db :=
  {| tables := fun t' => if String.eqb t' t then rows else tables d t';
     columns := columns d;
     uniques := uniques d |}.

Definition add_column (t c : string) (d : db) : db :=
  {| tables := tables d;
     columns := fun t' =>
       if String.eqb t' t then columns d t' ++ [c] else columns d t';
     uniques := uniques d |}.

(** [create unique index on t (K)], on a table whose rows do not collide
    on [K]. *)
Definition add_unique (t : string) (K : list string) (d : db) : db :=
  {| tables := tables d;
     columns := columns d;
     uniques := fun t' =>
       if String.eqb t' t then uniques d t' ++ [K] else uniques d t' |}.

(** The unique constraint a conflict target [K] is resolved to: one on
    the columns of [K], in any order. *)
Definition same_columns (K U : list string) : bool :=
  forallb (fun c => mem c U) K && forallb (fun c => mem c K) U.

Definition arbiter (d : db) (t : string) (K : list string) : bool :=
  existsb (same_columns K) (uniques d t).

(** Equality of two key values; NULL is equal to nothing. *)
Definition key_eqb (a b : json) : bool :=
  match a, b with
  | JNum x, JNum y => Z.eqb x y
  | JStr x, JStr y => String.eqb x y
  | JBool x, JBool y => Bool.eqb x y
  | _, _ => false
  end.

(** Two rows collide on the columns [K]. *)
Definition agree (K : list string) (r1 r2 : row) : bool :=
  forallb (fun c => key_eqb (col r1 c) (col r2 c)) K.

(** [r] collides with one of [others] on a unique constraint of [t]. *)
Definition violates (d : db) (t : string) (r : row) (others : list row)
  : bool :=
  existsb (fun K => existsb (agree K r) others) (uniques d t).

(** Columns that default to [gen_random_uuid()] in the schema. *)
Definition default_id (t : string) : option string :=
  if String.eqb t "addresses" then Some "address_id"
  else if String.eqb t "balance_entries" then Some "entry_id"
  else if String.eqb t "company_versions" then Some "version_id"
  else if String.eqb t "contacts" then Some "contact_id"
  else if String.eqb t "raw_sections" then Some "raw_id"
  else None.

(** [set c = v] on a row. *)
Definition set_col (c : string) (v : json) (r : row) : row := set_prop c v r.

Definition set_cols (sets : list (string * json)) (r : row) : row :=
  set_props r sets.

(** The constraints the schema file lists: primary keys and the two
    [UNIQUE] columns of [companies]. *)
Definition listed_uniques (t : string) : list (list string) :=
  if String.eqb t "addresses" then [["address_id"]]
  else if String.eqb t "ateco" then [["ateco_id"]]
  else if String.eqb t "balance_entries" then [["entry_id"]]
  else if String.eqb t "companies"
  then [["azienda_id"]; ["vat_code"]; ["tax_code"]]
  else if String.eqb t "company_versions" then [["version_id"]]
  else if String.eqb t "contacts" then [["contact_id"]]
  else if String.eqb t "ingestion_errors" then [["error_id"]]
  else if String.eqb t "ingestions" then [["ingestion_id"]]
  else if String.eqb t "legend_codes" then [["code"]]
  else if String.eqb t "raw_sections" then [["raw_id"]]
  else if String.eqb t "unknown_fields"
  then [["azienda_id"; "section"; "json_path"]]
  else if String.eqb t "unmapped_codes" then [["code"]]
  else [].

(** The columns the schema file lists for the tables [ensureColumn] is
    called on. *)
Definition listed_columns (t : string) : list string :=
  if String.eqb t "addresses"
  then ["address_id"; "azienda_id"; "effective_date"; "address_type";
        "street"; "zip_code"; "town"; "province"; "region"; "country";
        "raw_json"; "created_at"; "tax_code"; "name"; "surname"]
  else if String.eqb t "contacts"
  then ["contact_id"; "azienda_id"; "effective_date"; "phone"; "email";
        "pec"; "website"; "raw_json"; "created_at"]
  else [].

Definition empty_db : db :=
  {| tables := fun _ => []; columns := listed_columns;
     uniques := listed_uniques |}.

End Sql.
Export Sql.

(** ** The state of a run and its monad *)

(** What a run can see and change: the store as its connection sees it,
    the failures the store is going to answer with (one element per round
    trip, [Some msg] making that round trip fail with [msg]), the draws
    left to the two random generators, and the [report] object. *)
Record world : Type := mkWorld {
  store : db;
  faults : list (option string);
  js_draws : nat;
  pg_draws : nat;
  rep : report
}.

Definition M (A : Type) : Type := world -> result A * world.

Definition ret {A} (a : A) : M A := fun w => (Ok a, w).

Definition bind {A B} (m : M A) (k : A -> M B) : M B :=
  fun w =>
    match m w with
    | (Ok a, w') => k a w'
    | (Throw msg, w') => (Throw msg, w')
    end.

Definition throw {A} (msg : string) : M A := fun w => (Throw msg, w).

Definition lift {A} (r : result A) : M A := fun w => (r, w).

Declare Scope run_scope.
Delimit Scope run_scope with run.
Notation "x <- m ;; k" := (bind m (fun x => k))
  (at level 61, m at next level, right associativity) : run_scope.
Notation "m ;;; k" := (bind m (fun _ => k))
  (at level 61, right associativity) : run_scope.
Local Open Scope run_scope.

Definition set_store (d : db) (w : world) : world :=
  mkWorld d (faults w) (js_draws w) (pg_draws w) (rep w).

Definition set_faults (f : list (option string)) (w : world) : world :=
  mkWorld (store w) f (js_draws w) (pg_draws w) (rep w).

Definition set_rep (r : report) (w : world) : world :=
  mkWorld (store w) (faults w) (js_draws w) (pg_draws w) r.

Definition get_store : M db := fun w => (Ok (store w), w).
Definition put_store (d : db) : M unit := fun w => (Ok tt, set_store d w).
Definition get_rep : M report := fun w => (Ok (rep w), w).
Definition put_rep (r : report) : M unit := fun w => (Ok tt, set_rep r w).

(** [for (const x of l) body(x)] *)
Fixpoint for_each {A} (l : list A) (body : A -> M unit) : M unit :=
  match l with
  | [] => ret tt
  | x :: rest => body x ;;; for_each rest body
  end.

(** ** SQL statements *)

Section Statements.
Context {P : Platform}.

(** One round trip to the store: it fails when the store says so. *)
Definition round_trip : M unit :=
  fun w =>
    match faults w with
    | Some msg :: rest => (Throw msg, set_faults rest w)
    | None :: rest => (Ok tt, set_faults rest w)
    | [] => (Ok tt, w)
    end.

(** [uuidv4()] *)
Definition fresh_uuidv4 : M string :=
  fun w =>
    (Ok (uuidv4 (js_draws w)),
     mkWorld (store w) (faults w) (S (js_draws w)) (pg_draws w) (rep w)).

(** The row as stored: the identifier column takes its default. *)
Definition with_default_id (t : string) (r : row) : M row :=
  match default_id t with
  | Some c =>
      fun w =>
        (Ok ((c, JStr (gen_random_uuid (pg_draws w))) :: r),
         mkWorld (store w) (faults w) (js_draws w) (S (pg_draws w)) (rep w))
  | None => ret r
  end.

Definition duplicate_key : string :=
  "duplicate key value violates unique constraint".

(** [insert into t (...) values (...)] *)
Definition sql_insert (t : string) (r : row) : M unit :=
  round_trip ;;;
  r' <- with_default_id t r ;;
  d <- get_store ;;
  if violates d t r' (tables d t) then throw duplicate_key
  else put_store (set_table t (tables d t ++ [r']) d).

(** [insert into t (...) values (...) on conflict do nothing] *)
Definition sql_insert_do_nothing (t : string) (r : row) : M unit :=
  round_trip ;;;
  r' <- with_default_id t r ;;
  d <- get_store ;;
  if violates d t r' (tables d t) then ret tt
  else put_store (set_table t (tables d t ++ [r']) d).

Definition no_arbiter : string :=
  "there is no unique or exclusion constraint matching the ON CONFLICT "
  ++ "specification".

(** [insert into t (...) values (...) on conflict (K) do update set ...];
    [sets old] are the assignments, computed from the row found.  The
    statement is refused when [t] has no unique constraint on the columns
    of [K]. *)
Definition sql_upsert (t : string) (K : list string)
  (sets : row -> list (string * json)) (r : row) : M unit :=
  round_trip ;;;
  d <- get_store ;;
  if negb (arbiter d t K) then throw no_arbiter
  else if existsb (agree K r) (tables d t) then
    let others := filter (fun o => negb (agree K r o)) (tables d t) in
    let update (o : row) : row :=
      if agree K r o then set_cols (sets o) o else o in
    if existsb (fun o => agree K r o && violates d t (update o) others)
         (tables d t)
    then throw duplicate_key
    else put_store (set_table t (map update (tables d t)) d)
  else
    r' <- with_default_id t r ;;
    if violates d t r' (tables d t) then throw duplicate_key
    else put_store (set_table t (tables d t ++ [r']) d).

(** [select ... from t where c = v] *)
Definition sql_select (t c : string) (v : json) : M (list row) :=
  round_trip ;;;
  d <- get_store ;;
  ret (filter (fun r => key_eqb (col r c) v) (tables d t)).

(** [select 1 from information_schema.columns where table_name = t and
    column_name = c], as [rowCount !== 0] *)
Definition column_exists (t c : string) : M bool :=
  round_trip ;;;
  d <- get_store ;;
  ret (mem c (columns d t)).

(** [alter table t add column c ty] *)
Definition alter_add_column (t c : string) : M unit :=
  round_trip ;;;
  d <- get_store ;;
  if mem c (columns d t)
  then throw ("column '" ++ c ++ "' of relation already exists")
  else put_store (add_column t c d).

(** [do $$ begin if not exists (select 1 from information_schema.columns
    ...) then execute 'alter table t add column c ty'; end if; end $$] *)
Definition add_column_if_missing (t c : string) : M unit :=
  round_trip ;;;
  d <- get_store ;;
  if mem c (columns d t) then ret tt else put_store (add_column t c d).

End Statements.

(** ** Helpers the two programs share *)

Section Helpers.
Context {P : Platform}.

Definition SCHEMA : string := "openapi".

Definition invalid_time : string := "Invalid time value".

Definition iso_of (v : jsval) : result string :=
  match v with
  | Some j =>
      match toISOString j with
      | Some s => Ok s
      | None => Throw invalid_time
      end
  | None => Throw invalid_time
  end.

(** [effectiveDateForSection(sectionName, sectionPayload, globalFallback)] *)
Definition effectiveDateForSection (sectionName : string)
  (sectionPayload : jsval) (globalFallback : json) : result string :=
  let dates :=
    filter truthyv
      [optfield sectionPayload "lastUpdateDate";
       optfield sectionPayload "updateDate";
       optfield sectionPayload "sinceDate";
       optfield sectionPayload "roleStartDate"] in
  let otherwise :=
    match dates with
    | d :: _ => iso_of d
    | [] => iso_of (Some globalFallback)
    end in
  if String.eqb sectionName "balance" then
    match jor (optfield sectionPayload "year")
              (optfield sectionPayload "fiscalYear") with
    | Some year =>
        if truthy year then
          match year_end year with
          | Some s => Ok s
          | None => Throw invalid_time
          end
        else otherwise
    | None => otherwise
    end
  else otherwise.

Definition is_lower_or_digit (c : ascii) : bool :=
  let n := nat_of_ascii c in
  ((97 <=? n)%nat && (n <=? 122)%nat) || is_digit c.

(** The class [[\s\-\.]], on ASCII. *)
Definition is_separator (c : ascii) : bool :=
  let n := nat_of_ascii c in
  ((9 <=? n)%nat && (n <=? 13)%nat) || (n =? 32)%nat || (n =? 45)%nat
  || (n =? 46)%nat.

(** [.replace(/([a-z0-9])([A-Z])/g, '$1_$2')] *)
Fixpoint camel_breaks (prev : option ascii) (s : string) : string :=
  match s with
  | EmptyString => EmptyString
  | String c rest =>
      let here :=
        match prev with
        | Some p => is_lower_or_digit p && is_upper c
        | None => false
        end in
      if here then String "_" (String c (camel_breaks (Some c) rest))
      else String c (camel_breaks (Some c) rest)
  end.

(** [.replace(/[\s\-\.]+/g, '_')] *)
Fixpoint collapse_separators (in_run : bool) (s : string) : string :=
  match s with
  | EmptyString => EmptyString
  | String c rest =>
      if is_separator c then
        if in_run then collapse_separators true rest
        else String "_" (collapse_separators true rest)
      else String c (collapse_separators false rest)
  end.

(** [toSnakeCase(str)] *)
Definition toSnakeCase (str : string) : string :=
  String.substring 0 60
    (toLowerCase (collapse_separators false (camel_breaks None str))).

(** [/^(\d{4}-\d{2}-\d{2})/.test(s)] *)
Definition iso_date_prefix (s : string) : bool :=
  match s with
  | String y1 (String y2 (String y3 (String y4 (String "-"
      (String m1 (String m2 (String "-" (String d1 (String d2 _))))))))) =>
      forallb is_digit [y1; y2; y3; y4; m1; m2; d1; d2]
  | _ => false
  end.

(** [inferPgType(value)]; a number of the model is integral. *)
Definition inferPgType (value : json) : string :=
  match value with
  | JNull => "text"
  | JBool _ => "boolean"
  | JNum _ => "bigint"
  | JStr s =>
      if date_parses s && iso_date_prefix s
      then if includes s "T" then "timestamptz" else "date"
      else "text"
  | _ => "text"
  end.

(** [x || null], as a parameter of a statement. *)
Definition or_null (v : jsval) : json :=
  match jor v (Some JNull) with
  | Some j => j
  | None => JNull
  end.

(** [x ?? null], as a parameter of a statement. *)
Definition nullish_null (v : jsval) : json :=
  match nullish v (Some JNull) with
  | Some j => j
  | None => JNull
  end.

(** A parameter bound to a [text] column. *)
Definition as_text (v : json) : json :=
  match v with
  | JNull => JNull
  | _ => JStr (pg_text v)
  end.

(** [String(err?.message || err)]: an error without a message prints as
    its name. *)
Definition error_text (msg : string) : string :=
  if String.eqb msg EmptyString then "Error" else msg.

(** [a || b] where [b] is evaluated only when [a] is falsy. *)
Definition or_else (a : jsval) (b : result jsval) : result jsval :=
  if truthyv a then Ok a else b.

End Helpers.

(** ** The report as it is stored in [ingestions.summary] *)

Section Summary.
Context {P : Platform}.

Definition present (k : string) (v : jsval) : list (string * json) :=
  match v with
  | Some j => [(k, j)]
  | None => []
  end.

Definition amount_value (a : amount) : jsval :=
  match a with
  | Amt v => v
  | AmtNumber s => Some (js_Number s)
  end.

Definition entry_json (e : entry) : json :=
  JObj (present "year" (e_year e)
        ++ [("statement", JStr (e_statement e)); ("code", e_code e)]
        ++ present "description" (e_description e)
        ++ present "amount" (amount_value (e_amount e))
        ++ [("currency", e_currency e);
            ("source_path", JStr (e_source_path e))]).

Definition column_result_json (tc : string * column_result) : json :=
  let (t, c) := tc in
  JObj ([("table", JStr t); ("created", JBool (created c));
         ("column", JStr (column c))]
        ++ present "pgType" (option_map JStr (pgType c))).

Definition warning_json (w : warning) : json :=
  JObj [("table", JStr (w_table w)); ("reason", JStr (w_reason w));
        ("row", entry_json (w_row w))].

Definition counters_json (o : list (string * nat)) : json :=
  JObj (map (fun kn => (fst kn, JNum (Z.of_nat (snd kn)))) o).

Definition report_json (r : report) : json :=
  JObj [("ingestionId", JStr (ingestionId r));
        ("createdTables", JArr []);
        ("createdColumns", JArr (map column_result_json (createdColumns r)));
        ("inserts", counters_json (inserts r));
        ("updates", JObj []);
        ("skips", counters_json (skips r));
        ("warnings", JArr (map warning_json (warnings r)));
        ("status", JStr (status_name (status r)))].

(** Updates of the [report] object. *)
Definition push_created (t : string) (c : column_result) : M unit :=
  fun w =>
    let r := rep w in
    (Ok tt, set_rep (mkReport (ingestionId r) (createdColumns r ++ [(t, c)])
                       (inserts r) (skips r) (warnings r) (status r)) w).

Definition push_warning (x : warning) : M unit :=
  fun w =>
    let r := rep w in
    (Ok tt, set_rep (mkReport (ingestionId r) (createdColumns r)
                       (inserts r) (skips r) (warnings r ++ [x]) (status r)) w).

Definition count_insert (section : string) (n : nat) : M unit :=
  fun w =>
    let r := rep w in
    (Ok tt, set_rep (mkReport (ingestionId r) (createdColumns r)
                       (bump section n (inserts r)) (skips r) (warnings r)
                       (status r)) w).

Definition count_skip (section : string) : M unit :=
  fun w =>
    let r := rep w in
    (Ok tt, set_rep (mkReport (ingestionId r) (createdColumns r)
                       (inserts r) (bump section 1 (skips r)) (warnings r)
                       (status r)) w).

Definition set_status (s : run_status) : M unit :=
  fun w =>
    let r := rep w in
    (Ok tt, set_rep (mkReport (ingestionId r) (createdColumns r)
                       (inserts r) (skips r) (warnings r) s) w).

Definition initial_report (id : string) : report :=
  mkReport id [] [] [] [] PARTIAL.

(** The row of [ingestions] a run that succeeds writes, and the one a run
    that fails writes. *)
Definition run_row (id azienda_id : string) (r : report) : row :=
  [("ingestion_id", JStr id); ("source", JStr "it-full");
   ("started_at", JStr clock); ("finished_at", JStr clock);
   ("azienda_id", JStr azienda_id);
   ("status", JStr (status_name (status r)));
   ("summary", report_json r)].

Definition error_row (id msg : string) : row :=
  [("ingestion_id", JStr id); ("source", JStr "it-full");
   ("started_at", JStr clock); ("finished_at", JStr clock);
   ("status", JStr (status_name ERROR));
   ("summary", JObj [("error", JStr (error_text msg))])].

(** [list.map(f)] where [f] may throw. *)
Fixpoint rmap {A B} (f : A -> result B) (l : list A) : result (list B) :=
  match l with
  | [] => Ok []
  | x :: rest =>
      y <~ f x ;;
      ys <~ rmap f rest ;;
      Ok (y :: ys)
  end.

End Summary.

(** ** [index.js]: the transactional program *)

Module Cli.
Section Program.
Context {P : Platform}.

(** [computeAziendaId(payload)]: [vatCode] is preferred to [taxCode]. *)
Definition computeAziendaId (payload : json) : M string :=
  vat <- lift (or_else (safeGet (Some payload) ["companyDetails"; "vatCode"])
                       (dot (Some payload) "vatCode")) ;;
  tax <- lift (or_else (safeGet (Some payload) ["companyDetails"; "taxCode"])
                       (dot (Some payload) "taxCode")) ;;
  let base := jor vat tax in
  if negb (truthyv base) then fresh_uuidv4
  else ret (uuidv5 (trim (js_Stringv base)) NS).

(** [ensureColumn(client, tableName, columnName, sampleValue)] *)
Definition ensureColumn (tableName columnName : string) (sampleValue : json)
  : M column_result :=
  let c := toSnakeCase columnName in
  found <- column_exists tableName c ;;
  if negb found then
    let ty := inferPgType sampleValue in
    alter_add_column tableName c ;;;
    ret (mkColumnResult true c (Some ty))
  else ret (mkColumnResult false c None).

Definition company_sets (r : row) (_ : row) : list (string * json) :=
  [("vat_code", col r "vat_code"); ("tax_code", col r "tax_code");
   ("company_name", col r "company_name"); ("legal_form", col r "legal_form");
   ("status", col r "status"); ("cciaa", col r "cciaa");
   ("rea_code", col r "rea_code"); ("country_code", col r "country_code");
   ("updated_at", JStr clock)].

(** [upsertCompany(client, payload)] *)
Definition upsertCompany (payload : json) : M string :=
  azienda_id <- computeAziendaId payload ;;
  c <- lift (dot (Some payload) "companyDetails") ;;
  let details := jor c (Some (JObj [])) in
  pn <- lift (dot (Some payload) "companyName") ;;
  let name := or_null (jor (optfield details "companyName") pn) in
  pv <- lift (dot (Some payload) "vatCode") ;;
  let vat := or_null (jor (optfield details "vatCode") pv) in
  pt <- lift (dot (Some payload) "taxCode") ;;
  let tax := or_null (jor (optfield details "taxCode") pt) in
  let legal_form :=
    or_null (jor (safeGet (Some payload) ["legalForm"; "description"])
                 (optfield details "legalForm")) in
  let status :=
    or_null (safeGet (Some payload) ["companyStatus"; "description"]) in
  let cciaa :=
    or_null (jor (safeGet (Some payload) ["chamberOfCommerce"; "code"])
                 (optfield details "cciaa")) in
  let rea := or_null (optfield details "reaCode") in
  let country :=
    or_null (safeGet (Some payload) ["address"; "country"; "code"]) in
  let r : row :=
    [("azienda_id", JStr azienda_id); ("vat_code", as_text vat);
     ("tax_code", as_text tax); ("company_name", as_text name);
     ("legal_form", as_text legal_form); ("status", as_text status);
     ("cciaa", as_text cciaa); ("rea_code", as_text rea);
     ("country_code", as_text country)] in
  sql_upsert "companies" ["azienda_id"] (company_sets r) r ;;;
  ret azienda_id.

Definition version_row (azienda_id : string) (raw_json : json)
  (effective_date : string) : row :=
  [("azienda_id", JStr azienda_id); ("effective_date", JStr effective_date);
   ("content_hash", JStr (object_hash raw_json)); ("raw_json", raw_json)].

(** [insertCompanyVersion(client, azienda_id, raw_json, effective_date)] *)
Definition insertCompanyVersion (azienda_id : string) (raw_json : json)
  (effective_date : string) : M string :=
  let content_hash := object_hash raw_json in
  sql_insert_do_nothing "company_versions"
    (version_row azienda_id raw_json effective_date) ;;;
  ret content_hash.

(** [insertRawSection(client, azienda_id, section, effective_date, raw_json)] *)
Definition insertRawSection (azienda_id section effective_date : string)
  (raw_json : json) : M unit :=
  sql_insert "raw_sections"
    [("azienda_id", JStr azienda_id); ("section", JStr section);
     ("effective_date", JStr effective_date); ("raw_json", raw_json)].

(** The promotion loop of [upsertContacts] and [upsertAddresses]:
    every scalar property outside [known] goes through [ensureColumn], and
    a creation is pushed on [report.createdColumns]. *)
Definition promote (table : string) (known : list string)
  (props : list (string * json)) : M unit :=
  for_each props (fun kv =>
    let (k, v) := kv in
    if is_scalar v && negb (mem k known) then
      res <- ensureColumn table k v ;;
      if created res then push_created table res else ret tt
    else ret tt).

(** [upsertContacts(client, azienda_id, sectionPayload, effective_date,
    report)] *)
Definition upsertContacts (azienda_id : string) (sectionPayload : json)
  (effective_date : string) : M unit :=
  promote "contacts" [] (entries sectionPayload) ;;;
  sql_insert "contacts"
    [("azienda_id", JStr azienda_id); ("effective_date", JStr effective_date);
     ("phone", as_text (nullish_null (field sectionPayload "phone")));
     ("email", as_text (nullish_null (field sectionPayload "email")));
     ("pec", as_text (nullish_null (field sectionPayload "pec")));
     ("website", as_text (nullish_null (field sectionPayload "website")));
     ("raw_json", sectionPayload)].

Definition address_known : list string :=
  ["street"; "zipCode"; "town"; "province"; "region"; "country";
   "addressType"].

(** [upsertAddresses(client, azienda_id, list, report, globalFallback)] *)
Definition upsertAddresses (azienda_id : string) (list : list json)
  (globalFallback : string) : M unit :=
  for_each list (fun addr =>
    effective_date <-
      lift (effectiveDateForSection "addresses" (Some addr)
              (JStr globalFallback)) ;;
    promote "addresses" address_known (entries addr) ;;;
    let a := Some addr in
    sql_insert "addresses"
      [("azienda_id", JStr azienda_id);
       ("effective_date", JStr effective_date);
       ("address_type", as_text (or_null (optfield a "addressType")));
       ("street", as_text (or_null (jor (optfield a "street")
                                        (optfield a "streetName"))));
       ("zip_code", as_text (or_null (optfield a "zipCode")));
       ("town", as_text (or_null (optfield a "town")));
       ("province", as_text (or_null
          (jor (optfield a "province")
               (optfield (optfield a "province") "code"))));
       ("region", as_text (or_null
          (jor (optfield a "region")
               (optfield (optfield a "region") "description"))));
       ("country", as_text (or_null
          (jor (optfield a "country")
               (optfield (optfield a "country") "code"))));
       ("raw_json", addr)]).

(** [upsertBalanceEntries(client, azienda_id, entries, report)] *)
Definition unmapped_sets (old : row) : list (string * json) :=
  [("last_seen_at", JStr clock);
   ("occurrences",
    match col old "occurrences" with
    | JNum n => JNum (n + 1)
    | _ => JNull
    end)].

Definition balance_key : list string :=
  ["azienda_id"; "year"; "statement"; "code"].

Definition balance_sets (r : row) (_ : row) : list (string * json) :=
  [("description", col r "description"); ("amount", col r "amount");
   ("currency", col r "currency"); ("source_path", col r "source_path");
   ("note", col r "note")].

Definition invalid_integer : string :=
  "invalid input syntax for type integer".

Definition upsertBalanceEntry (azienda_id : string) (e : entry) : M unit :=
  if negb (truthyv (e_year e))
     || String.eqb (e_statement e) EmptyString
     || negb (truthy (e_code e))
  then push_warning (mkWarning "balance_entries" "missing_keys" e)
  else
    let desc0 := or_null (e_description e) in
    desc <-
      (if negb (truthy desc0) && truthy (e_code e) then
         res <- sql_select "legend_codes" "code" (as_text (e_code e)) ;;
         match res with
         | first :: _ => ret (col first "description")
         | [] =>
             let u : row :=
               [("code", as_text (e_code e));
                ("statement_guess", JStr (e_statement e));
                ("occurrences", JNum 1)] in
             sql_upsert "unmapped_codes" ["code"] unmapped_sets u ;;;
             ret desc0
         end
       else ret desc0) ;;
    match pg_integer (or_null (e_year e)) with
    | None => throw invalid_integer
    | Some y =>
        let r : row :=
          [("azienda_id", JStr azienda_id); ("year", JNum y);
           ("statement", JStr (e_statement e));
           ("code", as_text (e_code e)); ("description", as_text desc);
           ("amount", nullish_null (amount_value (e_amount e)));
           ("currency", as_text (e_currency e));
           ("source_path", JStr (e_source_path e)); ("note", JNull);
           ("content_hash", JStr (entry_hash e))] in
        sql_upsert "balance_entries" balance_key (balance_sets r) r
    end.

Definition upsertBalanceEntries (azienda_id : string) (entries : list entry)
  : M unit :=
  for_each entries (upsertBalanceEntry azienda_id).

(** [extractContacts(payload)]; [None] is the [null] it returns when no
    contact is found. *)
Definition extractContacts (payload : json) : result (option json) :=
  let nested := optfield (Some payload) "contacts" in
  p <~ dot (Some payload) "phone" ;;
  let phone := or_null (jor p (optfield nested "phone")) in
  e <~ dot (Some payload) "email" ;;
  let email := or_null (jor e (optfield nested "email")) in
  c <~ dot (Some payload) "pec" ;;
  let pec := or_null (jor c (optfield nested "pec")) in
  s <~ dot (Some payload) "website" ;;
  let website := or_null (jor s (optfield nested "website")) in
  if negb (truthy phone) && negb (truthy email) && negb (truthy pec)
     && negb (truthy website)
  then Ok None
  else Ok (Some (JObj [("phone", phone); ("email", email); ("pec", pec);
                       ("website", website)])).

(** [extractAddresses(payload)] *)
Definition office_address (o : json) : result json :=
  t <~ dot (Some o) "officeType" ;;
  a <~ dot (Some o) "address" ;;
  let ty :=
    match jor t (Some (JStr "OFFICE")) with
    | Some j => j
    | None => JNull
    end in
  Ok (JObj (spread [("addressType", ty)] a)).

Definition extractAddresses (payload : json) : result (list json) :=
  a <~ dot (Some payload) "address" ;;
  let seat :=
    if truthyv a then [JObj (spread [("addressType", JStr "SEDE")] a)]
    else [] in
  o <~ dot (Some payload) "allOffices" ;;
  match o with
  | Some (JArr offices) =>
      others <~ rmap office_address offices ;;
      Ok (seat ++ others)
  | _ => Ok seat
  end.

(** [extractBalanceEntries(payload)]: the aggregate sections, then the
    detail groups, pushed on the same array. *)
Definition maps : list (list string * string) :=
  [(["assetsAggregateValues"], "SP_A");
   (["liabilitiesAggregateValues"], "SP_P");
   (["incomeStatementAggregateValues"], "CE")].

Definition detailGroups : list string :=
  ["intangibleFixedAssets"; "tangibleFixedAssets"; "financialFixedAssets";
   "credits"; "inventory"; "cashEquivalents"; "debts"; "financialAssets";
   "productionValue"; "productionCosts"; "revenuesFinancialCharges";
   "annualResult"].

Definition statement_guess (g : string) : string :=
  if existsb (includes g)
       ["debts"; "liabilities"; "financialCharges"; "productionCosts"]
  then "SP_P"
  else if existsb (includes g) ["productionValue"; "revenues"; "annualResult"]
  then "CE"
  else "SP_A".

Definition pairs_of (obj : jsval) : list (string * json) :=
  match obj with
  | Some j => if truthy j && is_object j then entries j else []
  | None => []
  end.

Definition number_or_null (amount : json) : json :=
  if is_number amount then amount else JNull.

Definition document_year (payload : json) : jsval :=
  jor (jor (optfield (optfield (Some payload) "balance") "year")
           (optfield (Some payload) "fiscalYear"))
      (optfield (Some payload) "year").

Definition document_currency (payload : json) : json :=
  match jor (optfield (optfield (Some payload) "balance") "currency")
            (Some (JStr "EUR")) with
  | Some j => j
  | None => JNull
  end.

Definition agg_of (payload : json) : jsval :=
  jor (jor (optfield (Some payload) "balance")
           (optfield (Some payload) "financialStatements"))
      (Some (JObj [])).

Definition aggregate_entries (payload : json) : list entry :=
  flat_map (fun m : list string * string =>
    map (fun ca : string * json =>
           mkEntry (document_year payload) (snd m) (JStr (fst ca)) undefined
             (Amt (Some (number_or_null (snd ca))))
             (document_currency payload) (join_dot (fst m)))
        (pairs_of (safeGet (agg_of payload) (fst m))))
    maps.

Definition detail_entries (payload : json) : list entry :=
  flat_map (fun g : string =>
    map (fun ca : string * json =>
           mkEntry (document_year payload) (statement_guess g)
             (JStr (fst ca)) undefined
             (Amt (Some (number_or_null (snd ca))))
             (document_currency payload) ("balance." ++ g))
        (pairs_of (optfield (agg_of payload) g)))
    detailGroups.

Definition extractBalanceEntries (payload : json) : list entry :=
  filter (fun e => truthyv (e_year e))
    (aggregate_entries payload ++ detail_entries payload).

(** How the process ends: exit code 0 with [{ok, azienda_id, report}]
    printed, or exit code 1 with the error. *)
Inductive outcome : Type :=
| Exit0 (azienda_id : string) (r : report)
| Exit1 (msg : string).

(** The [try] block of [main], from [begin] to [commit]. *)
Definition transaction (payload : json) (ingestionId : string) : M string :=
  round_trip ;;;
  azienda_id <- upsertCompany payload ;;
  globalEffective <-
    lift (effectiveDateForSection "root" (Some payload) (JStr clock)) ;;
  contentHash <- insertCompanyVersion azienda_id payload globalEffective ;;
  insertRawSection azienda_id "root" globalEffective payload ;;;
  contacts <- lift (extractContacts payload) ;;
  match contacts with
  | Some c =>
      upsertContacts azienda_id c globalEffective ;;;
      count_insert "contacts" 1
  | None => count_skip "contacts"
  end ;;;
  addresses <- lift (extractAddresses payload) ;;
  (if negb (List.length addresses =? 0)%nat then
     upsertAddresses azienda_id addresses globalEffective ;;;
     count_insert "addresses" (List.length addresses)
   else count_skip "addresses") ;;;
  let balanceEntries := extractBalanceEntries payload in
  (if negb (List.length balanceEntries =? 0)%nat then
     upsertBalanceEntries azienda_id balanceEntries ;;;
     count_insert "balance_entries" (List.length balanceEntries)
   else count_skip "balance_entries") ;;;
  let status :=
    if (0 <? List.length balanceEntries
             + match contacts with Some _ => 1 | None => 0 end
             + List.length addresses)%nat
    then UPDATED else UNCHANGED in
  set_status status ;;;
  r <- get_rep ;;
  sql_insert "ingestions" (run_row ingestionId azienda_id r) ;;;
  round_trip ;;;
  ret azienda_id.

Definition undetermined_parameter : string :=
  "could not determine data type of parameter $2".

(** The statement of the [catch] block, [insert into ingestions (...)
    values ($1, 'it-full', now(), now(), 'ERROR',
    jsonb_build_object('error', $2))], sent through the pool.  Its second
    parameter is sent without a type and [jsonb_build_object] takes
    arguments of any type: the server cannot tell the type of [$2] and
    refuses the statement when it prepares it, whatever the store holds. *)
Definition insert_error_row (ingestionId msg : string) : M unit :=
  round_trip ;;; throw undetermined_parameter.

(** [main()], once the payload has been read and parsed.  The store of
    the initial world is the committed one.  The transaction works on its
    own view; when it throws nothing of it is committed, and the [catch]
    block sends the statement of the [ERROR] row through the pool, on the
    committed store.  An exception of that statement leaves the [catch]
    block before [rollback] and [process.exit(1)], and ends the process
    through [main().catch]. *)
Definition main (payload : json) (w0 : world) : outcome * world :=
  match (round_trip ;;; fresh_uuidv4) w0 with
  | (Throw msg, w1) => (Exit1 msg, w1)
  | (Ok ingestionId, w1) =>
      let w2 := set_rep (initial_report ingestionId) w1 in
      match transaction payload ingestionId w2 with
      | (Ok azienda_id, w3) => (Exit0 azienda_id (rep w3), w3)
      | (Throw msg, w3) =>
          let w4 := set_store (store w2) w3 in
          match insert_error_row ingestionId msg w4 with
          | (Ok _, w5) => (Exit1 msg, snd (round_trip w5))
          | (Throw msg', w5) => (Exit1 msg', w5)
          end
      end
  end.

End Program.

(** ** [isNewer] *)

Section Dates.
(** [new Date(v).getTime()]; [None] is [NaN]. *)
Variable getTime : jsval -> option Z.

(** [isNewer(dateNew, dateOld)] *)
Definition isNewer (dateNew dateOld : jsval) : bool :=
  if negb (truthyv dateOld) then true
  else
    match getTime dateNew, getTime dateOld with
    | Some tn, Some to => (to <? tn)%Z
    | _, _ => false
    end.

End Dates.

End Cli.

(** ** [index.http.js]: the program over the HTTP interface *)

Module Http.
Section Program.
Context {P : Platform}.

(** [walk(obj, cb)]: the nodes [cb] is called on, each with its path, in
    the order of the calls. *)
Fixpoint walk (obj : json) (path : list string) : list (json * list string) :=
  match obj with
  | JObj props =>
      (obj, path) ::
      (fix children (ps : list (string * json)) : list (json * list string) :=
         match ps with
         | [] => []
         | (k, v) :: rest => walk v (path ++ [k]) ++ children rest
         end) props
  | JArr items =>
      (obj, path) ::
      (fix elements (i : nat) (xs : list json) : list (json * list string) :=
         match xs with
         | [] => []
         | v :: rest =>
             walk v (path ++ [string_of_nat i]) ++ elements (S i) rest
         end) 0%nat items
  | _ => []
  end.

Definition walkv (obj : jsval) : list (json * list string) :=
  match obj with
  | Some j => walk j []
  | None => []
  end.

(** [computeAziendaId(payload)] *)
Definition natural_key (payload : json) (name : string) : result jsval :=
  or_else (safeGet (Some payload) ["companyDetails"; name])
    (or_else (safeGet (Some payload) ["data"; "companyDetails"; name])
       (direct <~ dot (Some payload) name ;;
        or_else direct
          (Ok (optfield (optfield (Some payload) "data") name)))).

Definition computeAziendaId (payload : json) : M string :=
  vat <- lift (natural_key payload "vatCode") ;;
  tax <- lift (natural_key payload "taxCode") ;;
  let base := jor vat tax in
  if truthyv base then ret (uuidv5 (trim (js_Stringv base)) NS)
  else fresh_uuidv4.

(** [execSQL(sql)]: an error is thrown again under a longer message. *)
Definition execSQL {A} (statement : M A) : M A :=
  fun w =>
    match statement w with
    | (Throw msg, w') => (Throw ("SQL execution error: " ++ msg), w')
    | done => done
    end.

(** [ensureColumn(table, columnName, sampleValue)]: one [do] block, which
    adds the column unless it exists. *)
Definition ensureColumn (table columnName : string) (sampleValue : json)
  : M column_result :=
  let c := toSnakeCase columnName in
  let ty := inferPgType sampleValue in
  execSQL (add_column_if_missing table c) ;;;
  ret (mkColumnResult true c (Some ty)).

(** [upsert(table, rows, conflict)] for one row: every column of the row
    is assigned on conflict; and [insert(table, rows)]. *)
Definition upsert (table : string) (r : row) (conflict : list string)
  : M unit :=
  sql_upsert table conflict (fun _ => r) r.

Definition insert (table : string) (r : row) : M unit := sql_insert table r.

(** [m] with its error caught: [{data, error}]. *)
Definition attempt {A} (m : M A) : M (option A) :=
  fun w =>
    match m w with
    | (Ok a, w') => (Ok (Some a), w')
    | (Throw _, w') => (Ok None, w')
    end.

(** [upsertCompany(payload)] *)
Definition upsertCompany (payload : json) : M string :=
  azienda_id <- computeAziendaId payload ;;
  let p := Some payload in
  let details :=
    jor (jor (optfield p "companyDetails")
             (optfield (optfield p "data") "companyDetails"))
        (Some (JObj [])) in
  let data := jor (optfield p "data") p in
  let r : row :=
    [("azienda_id", JStr azienda_id);
     ("vat_code", as_text (or_null
        (jor (jor (optfield details "vatCode") (optfield p "vatCode"))
             (optfield data "vatCode"))));
     ("tax_code", as_text (or_null
        (jor (jor (optfield details "taxCode") (optfield p "taxCode"))
             (optfield data "taxCode"))));
     ("company_name", as_text (or_null
        (jor (jor (optfield details "companyName")
                  (optfield p "companyName"))
             (optfield data "companyName"))));
     ("legal_form", as_text (or_null
        (jor (jor (optfield (optfield p "legalForm") "description")
                  (optfield (optfield data "legalForm") "description"))
             (optfield details "legalForm"))));
     ("status", as_text (or_null
        (jor (optfield (optfield p "companyStatus") "description")
             (optfield (optfield data "companyStatus") "description"))));
     ("cciaa", as_text (or_null
        (jor (jor (optfield (optfield p "chamberOfCommerce") "code")
                  (optfield (optfield data "chamberOfCommerce") "code"))
             (optfield details "cciaa"))));
     ("rea_code", as_text (or_null
        (jor (optfield details "reaCode") (optfield data "reaCode"))));
     ("country_code", as_text (or_null
        (jor (optfield (optfield (optfield p "address") "country") "code")
             (optfield (optfield (optfield data "address") "country")
                "code"))))] in
  upsert "companies" r ["azienda_id"] ;;;
  ret azienda_id.

(** [insertCompanyVersion(azienda_id, raw_json, effective_date)] *)
Definition insertCompanyVersion (azienda_id : string) (raw_json : json)
  (effective_date : string) : M string :=
  let content_hash := object_hash raw_json in
  insert "company_versions"
    [("azienda_id", JStr azienda_id); ("effective_date", JStr effective_date);
     ("content_hash", JStr content_hash); ("raw_json", raw_json)] ;;;
  ret content_hash.

(** [insertRawSection(azienda_id, section, effective_date, raw_json)] *)
Definition insertRawSection (azienda_id section effective_date : string)
  (raw_json : json) : M unit :=
  insert "raw_sections"
    [("azienda_id", JStr azienda_id); ("section", JStr section);
     ("effective_date", JStr effective_date); ("raw_json", raw_json)].

(** [extractContacts(payload)]: the first string found for each field,
    over the plain objects of the document. *)
Record contacts_found : Type := mkContacts {
  c_phone : json; c_email : json; c_pec : json; c_website : json
}.

Definition contact_property (res : contacts_found) (kv : string * json)
  : contacts_found :=
  let (k, v) := kv in
  if is_string v then
    let key := toLowerCase k in
    let pec :=
      if negb (truthy (c_pec res))
         && (String.eqb key "pec" || includes key "pec")
      then v else c_pec res in
    let email :=
      if negb (truthy (c_email res))
         && (String.eqb key "email" || String.eqb key "e-mail"
             || includes key "mail")
      then v else c_email res in
    let phone :=
      if negb (truthy (c_phone res))
         && (String.eqb key "phone" || includes key "tel")
      then v else c_phone res in
    let website :=
      if negb (truthy (c_website res))
         && (String.eqb key "website" || includes key "sito"
             || includes key "web")
      then v else c_website res in
    mkContacts phone email pec website
  else res.

Definition contact_node (res : contacts_found) (np : json * list string)
  : contacts_found :=
  match fst np with
  | JObj props => fold_left contact_property props res
  | _ => res
  end.

Definition extractContacts (payload : json) : option json :=
  let res :=
    fold_left contact_node (walk payload [])
      (mkContacts JNull JNull JNull JNull) in
  if truthy (c_phone res) || truthy (c_email res) || truthy (c_pec res)
     || truthy (c_website res)
  then Some (JObj [("phone", c_phone res); ("email", c_email res);
                   ("pec", c_pec res); ("website", c_website res)])
  else None.

(** [extractAddresses(payload)] *)
Definition address_hints : list string :=
  ["street"; "streetname"; "indirizzo"; "zip"; "zipcode"; "cap"; "town";
   "city"; "comune"; "province"; "provincia"; "region"; "regione";
   "country"; "stato"].

Definition address_score (node : json) : nat :=
  let keys := map (fun kv : string * json => toLowerCase (fst kv))
                  (entries node) in
  List.length (filter (fun h => mem h keys) address_hints).

Definition looks_like_address (np : json * list string) : list json :=
  let (node, path) := np in
  match node with
  | JObj props =>
      if (3 <=? address_score node)%nat then
        let where_ := join_dot path in
        let ty :=
          if includes where_ "registered" then "SEDE"
          else if includes where_ "ul" then "UL" else "OFFICE" in
        [JObj (spread [("addressType", JStr ty)] (Some node))]
      else []
  | _ => []
  end.

Definition office_address (o : json) : json :=
  let addr := jor (optfield (Some o) "address") (Some o) in
  let ty :=
    match jor (optfield (Some o) "officeType") (Some (JStr "OFFICE")) with
    | Some j => j
    | None => JNull
    end in
  JObj (spread [("addressType", ty)] addr).

Definition normalize_address (a : json) : json :=
  let f := field a in
  JObj (spread
    [("addressType", or_null (f "addressType"));
     ("street", or_null (jor (jor (f "street") (f "streetName"))
                             (f "indirizzo")));
     ("zipCode", or_null (jor (jor (f "zipCode") (f "zip")) (f "cap")));
     ("town", or_null (jor (jor (f "town") (f "city")) (f "comune")));
     ("province", or_null (jor (jor (optfield (f "province") "code")
                                    (f "provincia")) (f "province")));
     ("region", or_null (jor (jor (optfield (f "region") "description")
                                  (f "regione")) (f "region")));
     ("country", or_null (jor (jor (optfield (f "country") "code")
                                   (f "country")) (f "stato")))]
    (Some a)).

Definition extractAddresses (payload : json) : result (list json) :=
  a <~ dot (Some payload) "address" ;;
  let seat :=
    match a with
    | Some j =>
        if truthy j && is_object j
        then [JObj (spread [("addressType", JStr "SEDE")] a)] else []
    | None => []
    end in
  o <~ dot (Some payload) "allOffices" ;;
  let offices :=
    match o with
    | Some (JArr items) => map office_address items
    | _ => []
    end in
  let found := flat_map looks_like_address (walk payload []) in
  Ok (map normalize_address (seat ++ offices ++ found)).

(** [extractAteco(payload)] *)
Definition ateco_entry (code description : jsval) (type : string) : json :=
  JObj (present "ateco_code" code ++ present "ateco_description" description
        ++ [("type", JStr type)]).

Definition extractAteco (payload : json) : list json :=
  let ateco := optfield (Some payload) "atecoClassification" in
  if negb (truthyv ateco) then []
  else
    let coded (k type : string) : list json :=
      if truthyv (optfield ateco k)
      then [ateco_entry (optfield (optfield ateco k) "code")
              (optfield (optfield ateco k) "description") type]
      else [] in
    let bare (k type : string) : list json :=
      if truthyv (optfield ateco k)
      then [ateco_entry (optfield ateco k) (Some JNull) type]
      else [] in
    coded "ateco" "primary" ++ bare "secondaryAteco" "secondary"
    ++ coded "ateco2022" "ateco2022"
    ++ bare "secondaryAteco2022" "secondary2022".

(** [extractBalanceEntries(payload)] *)
Definition sectionMappings : list (string * string * string) :=
  [("stato_patrimoniale_attivo", "SP_A", "Stato Patrimoniale Attivo");
   ("stato_patrimoniale_passivo", "SP_P", "Stato Patrimoniale Passivo");
   ("conto_economico", "CE", "Conto Economico")].

Definition euromarSectionMappings : list (string * string * string) :=
  [("assetsAggregateValues", "SP_A", "Aggregati Attivo");
   ("intangibleFixedAssets", "SP_A", "Immobilizzazioni Immateriali");
   ("tangibleFixedAssets", "SP_A", "Immobilizzazioni Materiali");
   ("cashEquivalents", "SP_A", "Disponibilità Liquide");
   ("credits", "SP_A", "Crediti");
   ("liabilitiesAggregateValues", "SP_P", "Aggregati Passivo");
   ("netWorth", "SP_P", "Patrimonio Netto");
   ("debts", "SP_P", "Debiti");
   ("incomeStatementAggregateValues", "CE", "Aggregati Conto Economico");
   ("productionValue", "CE", "Valore della Produzione");
   ("productionCosts", "CE", "Costi della Produzione");
   ("financialIncomeAndCharges", "CE", "Proventi e Oneri Finanziari");
   ("extraordinaryIncomeAndCharges", "CE", "Proventi e Oneri Straordinari")].

Definition defaultYear (payload : json) : json :=
  match jor (jor (optfield (Some payload) "year")
                 (optfield (Some payload) "fiscalYear"))
            (Some (JNum 2024)) with
  | Some j => j
  | None => JNull
  end.

Definition defaultCurrency : json := JStr "EUR".

Definition data_of (payload : json) : jsval :=
  jor (optfield (Some payload) "data") (Some payload).

Definition is_defined (v : jsval) : bool :=
  match v with Some _ => true | None => false end.

(** One [item] of a section: the row it pushes, if any. *)
Definition item_entries (year : json) (mapping : string * string * string)
  (item : json) : result (list entry) :=
  let '(section, statement, description) := mapping in
  code <~ dot (Some item) "code" ;;
  match code with
  | Some c =>
      if truthy c
         && (is_defined (field item "value")
             || is_defined (field item "amount"))
      then Ok [mkEntry (Some year) statement c
                 (Some (JStr (description ++ " - " ++ js_String c)))
                 (Amt (nullish (field item "value") (field item "amount")))
                 defaultCurrency section]
      else Ok []
  | None => Ok []
  end.

(** [for (const item of section) ...], pushing on [entries]. *)
Fixpoint push_items (year : json) (mapping : string * string * string)
  (items : list json) (entries : list entry) : result (list entry) :=
  match items with
  | [] => Ok entries
  | item :: rest =>
      pushed <~ item_entries year mapping item ;;
      push_items year mapping rest (entries ++ pushed)
  end.

(** [for (const mapping of mappings) ...], pushing on [entries]. *)
Fixpoint push_sections (year : json) (data : jsval)
  (mappings : list (string * string * string)) (entries : list entry)
  : result (list entry) :=
  match mappings with
  | [] => Ok entries
  | mapping :: rest =>
      after <~
        match optfield data (fst (fst mapping)) with
        | Some (JArr items) => push_items year mapping items entries
        | _ => Ok entries
        end ;;
      push_sections year data rest after
  end.

(** The rows the callback of the last scan pushes at one node. *)
Definition code_entries (year : json) (np : json * list string)
  : list entry :=
  let (node, path) := np in
  flat_map (fun kv : string * json =>
    let (k, v) := kv in
    if CODE_RE k && (is_number v || is_string v) then
      [mkEntry
         (Some match match_year (join_dot path) with
               | Some y => JNum y
               | None => year
               end)
         (if startsWith k "IPL" then "SP_P"
          else if startsWith k "IIC1" then "CE" else "SP_A")
         (JStr k)
         (Some (JStr ("Voce di bilancio - " ++ k)))
         match v with
         | JStr s => AmtNumber s
         | _ => Amt (Some v)
         end
         defaultCurrency
         (join_dot (path ++ [k]))]
    else [])
    (entries node).

Definition extractBalanceEntries (payload : json) : result (list entry) :=
  let year := defaultYear payload in
  let data := data_of payload in
  entries1 <~ push_sections year data sectionMappings [] ;;
  entries2 <~
    (if (List.length entries1 =? 0)%nat
     then push_sections year data euromarSectionMappings entries1
     else Ok entries1) ;;
  let entries3 :=
    if (List.length entries2 =? 0)%nat
    then entries2 ++ flat_map (code_entries year) (walkv data)
    else entries2 in
  Ok (filter (fun e => truthyv (e_year e) && truthy (e_code e)) entries3).

(** The promotion loop of [upsertContacts] and [upsertAddresses]: every
    result of [ensureColumn] is pushed on [report.createdColumns]. *)
Definition promote (table : string) (known : list string)
  (props : list (string * json)) : M unit :=
  for_each props (fun kv =>
    let (k, v) := kv in
    if is_scalar v && negb (mem k known) then
      res <- ensureColumn table k v ;;
      push_created table res
    else ret tt).

(** [upsertContacts(azienda_id, sectionPayload, effective_date, report)] *)
Definition upsertContacts (azienda_id : string) (sectionPayload : json)
  (effective_date : string) : M unit :=
  promote "contacts" ["phone"; "email"; "pec"; "website"]
    (entries sectionPayload) ;;;
  insert "contacts"
    [("azienda_id", JStr azienda_id); ("effective_date", JStr effective_date);
     ("phone", as_text (nullish_null (field sectionPayload "phone")));
     ("email", as_text (nullish_null (field sectionPayload "email")));
     ("pec", as_text (nullish_null (field sectionPayload "pec")));
     ("website", as_text (nullish_null (field sectionPayload "website")));
     ("raw_json", sectionPayload)].

Definition address_known : list string :=
  ["street"; "streetName"; "zipCode"; "town"; "province"; "region";
   "country"; "addressType"].

(** [upsertAddresses(azienda_id, list, report, globalFallback)] *)
Definition upsertAddresses (azienda_id : string) (list : list json)
  (globalFallback : string) : M unit :=
  for_each list (fun addr =>
    effective_date <-
      lift (effectiveDateForSection "addresses" (Some addr)
              (JStr globalFallback)) ;;
    promote "addresses" address_known (entries addr) ;;;
    let a := Some addr in
    insert "addresses"
      [("azienda_id", JStr azienda_id);
       ("effective_date", JStr effective_date);
       ("address_type", as_text (or_null (optfield a "addressType")));
       ("street", as_text (or_null (jor (optfield a "street")
                                        (optfield a "streetName"))));
       ("zip_code", as_text (or_null (optfield a "zipCode")));
       ("town", as_text (or_null (optfield a "town")));
       ("province", as_text (or_null
          (jor (optfield (optfield a "province") "code")
               (optfield a "province"))));
       ("region", as_text (or_null
          (jor (optfield (optfield a "region") "description")
               (optfield a "region"))));
       ("country", as_text (or_null
          (jor (optfield (optfield a "country") "code")
               (optfield a "country"))));
       ("raw_json", addr)]).

Definition balance_key : list string :=
  ["azienda_id"; "year"; "statement"; "code"].

Definition invalid_integer : string :=
  "invalid input syntax for type integer".

(** [upsertBalanceEntries(azienda_id, entries, report)] *)
Definition upsertBalanceEntry (azienda_id : string) (e : entry) : M unit :=
  if negb (truthyv (e_year e))
     || String.eqb (e_statement e) EmptyString
     || negb (truthy (e_code e))
  then push_warning (mkWarning "balance_entries" "missing_keys" e)
  else
    let desc0 := or_null (e_description e) in
    desc <-
      (if negb (truthy desc0) then
         res <- attempt (sql_select (SCHEMA ++ ".legend_codes") "code"
                           (as_text (e_code e))) ;;
         let data :=
           match res with
           | Some [found] => Some found
           | _ => None
           end in
         match data with
         | Some found => ret (col found "description")
         | None =>
             upsert "unmapped_codes"
               [("code", as_text (e_code e));
                ("statement_guess", JStr (e_statement e))] ["code"] ;;;
             ret desc0
         end
       else ret desc0) ;;
    match pg_integer (or_null (e_year e)) with
    | None => throw invalid_integer
    | Some y =>
        upsert "balance_entries"
          [("azienda_id", JStr azienda_id); ("year", JNum y);
           ("statement", JStr (e_statement e));
           ("code", as_text (e_code e)); ("description", as_text desc);
           ("amount", nullish_null (amount_value (e_amount e)));
           ("currency", as_text (e_currency e));
           ("source_path", JStr (e_source_path e)); ("note", JNull);
           ("content_hash", JStr (entry_hash e))]
          balance_key
    end.

Definition upsertBalanceEntries (azienda_id : string) (entries : list entry)
  : M unit :=
  for_each entries (upsertBalanceEntry azienda_id).

(** [upsertAteco(azienda_id, entries, effective_date, report)] *)
Definition upsertAteco (azienda_id : string) (entries : list json)
  (effective_date : string) : M unit :=
  for_each entries (fun entry =>
    ateco_id <- fresh_uuidv4 ;;
    insert "ateco"
      [("ateco_id", JStr ateco_id); ("azienda_id", JStr azienda_id);
       ("effective_date", JStr effective_date);
       ("ateco_code", as_text (nullish_null (field entry "ateco_code")));
       ("ateco_description",
        as_text (nullish_null (field entry "ateco_description")));
       ("raw_json", entry)]).

(** The [try] block of [main]: every statement is committed on its own. *)
Definition attempt_run (payload : json) (ingestionId : string) : M string :=
  azienda_id <- upsertCompany payload ;;
  globalEffective <-
    lift (effectiveDateForSection "root" (Some payload) (JStr clock)) ;;
  contentHash <- insertCompanyVersion azienda_id payload globalEffective ;;
  insertRawSection azienda_id "root" globalEffective payload ;;;
  let contacts := extractContacts payload in
  match contacts with
  | Some c =>
      upsertContacts azienda_id c globalEffective ;;;
      count_insert "contacts" 1
  | None => count_skip "contacts"
  end ;;;
  addresses <- lift (extractAddresses payload) ;;
  (if negb (List.length addresses =? 0)%nat then
     upsertAddresses azienda_id addresses globalEffective ;;;
     count_insert "addresses" (List.length addresses)
   else count_skip "addresses") ;;;
  let atecoEntries := extractAteco payload in
  (if negb (List.length atecoEntries =? 0)%nat then
     upsertAteco azienda_id atecoEntries globalEffective ;;;
     count_insert "ateco" (List.length atecoEntries)
   else count_skip "ateco") ;;;
  balanceEntries <- lift (extractBalanceEntries payload) ;;
  (if negb (List.length balanceEntries =? 0)%nat then
     upsertBalanceEntries azienda_id balanceEntries ;;;
     count_insert "balance_entries" (List.length balanceEntries)
   else count_skip "balance_entries") ;;;
  let status :=
    if (0 <? List.length balanceEntries
             + match contacts with Some _ => 1 | None => 0 end
             + List.length addresses + List.length atecoEntries)%nat
    then UPDATED else UNCHANGED in
  set_status status ;;;
  r <- get_rep ;;
  insert "ingestions" (run_row ingestionId azienda_id r) ;;;
  ret azienda_id.

Inductive outcome : Type :=
| Exit0 (azienda_id : string) (r : report)
| Exit1 (msg : string).

(** [main()], once the payload has been read and parsed.  The keys of the
    payload are printed before the [try] block, which throws on [null];
    in the [catch] block a failure to write the [ERROR] row is ignored. *)
Definition main (payload : json) (w0 : world) : outcome * world :=
  match payload with
  | JNull => (Exit1 "Cannot convert undefined or null to object", w0)
  | _ =>
      match fresh_uuidv4 w0 with
      | (Throw msg, w1) => (Exit1 msg, w1)
      | (Ok ingestionId, w1) =>
          let w2 := set_rep (initial_report ingestionId) w1 in
          match attempt_run payload ingestionId w2 with
          | (Ok azienda_id, w3) => (Exit0 azienda_id (rep w3), w3)
          | (Throw msg, w3) =>
              (Exit1 msg,
               snd (insert "ingestions" (error_row ingestionId msg) w3))
          end
      end
  end.

End Program.
End Http.

(** ** Deleting through the HTTP interface *)

Section Deletes.
Context {P : Platform}.

(** The foreign keys the schema file lists on a table: the referencing
    table, its column, and the column referenced. *)
Definition listed_references (t : string) : list (string * string * string) :=
  if String.eqb t "companies"
  then [("addresses", "azienda_id", "azienda_id");
        ("ateco", "azienda_id", "azienda_id");
        ("balance_entries", "azienda_id", "azienda_id");
        ("company_versions", "azienda_id", "azienda_id");
        ("contacts", "azienda_id", "azienda_id");
        ("raw_sections", "azienda_id", "azienda_id");
        ("unknown_fields", "azienda_id", "azienda_id")]
  else if String.eqb t "ingestions"
  then [("ingestion_errors", "ingestion_id", "ingestion_id")]
  else [].

Definition referenced (d : db) (t : string) (r : row) : bool :=
  existsb (fun fk : string * string * string =>
             let '(child, c, k) := fk in
             existsb (fun x => key_eqb (col x c) (col r k)) (tables d child))
    (listed_references t).

(** [a <> b] in SQL: NULL differs from nothing. *)
Definition differs (a b : json) : bool :=
  match a, b with
  | JNull, _ | _, JNull => false
  | _, _ => negb (key_eqb a b)
  end.

(** [supa.from(t).delete().neq(c, v)]: the filter has to name a column of
    the table, and no row that goes may be referenced. *)
Definition delete_neq (t c : string) (v : json) : M unit :=
  round_trip ;;;
  d <- get_store ;;
  if negb (mem c (columns d t))
  then throw ("column " ++ t ++ "." ++ c ++ " does not exist")
  else if existsb (fun r => differs (col r c) v && referenced d t r)
            (tables d t)
  then throw "update or delete on table violates foreign key constraint"
  else put_store
         (set_table t (filter (fun r => negb (differs (col r c) v))
                         (tables d t)) d).

End Deletes.

(** ** [populateLegendCodes]: the script that loads the legend *)

Module Legend.
Section Program.
Context {P : Platform}.

Definition batchSize : nat := 100.

(** [for (const item of v)]: the values the loop goes through. *)
Definition iterate (what : string) (v : jsval) : result (list json) :=
  match v with
  | Some (JArr items) => Ok items
  | Some (JStr s) => Ok (chars s)
  | _ => Throw (what ++ " is not iterable")
  end.

(** [{ code: item.code, description: item.description, statement }], as
    the row it is stored as. *)
Definition code_row (statement : string) (item : json) : result row :=
  c <~ dot (Some item) "code" ;;
  d <~ dot (Some item) "description" ;;
  Ok [("code", as_text (nullish_null c));
      ("description", as_text (nullish_null d));
      ("statement", JStr statement)].

Definition section_rows (schemaData : json) (name statement : string)
  : result (list row) :=
  v <~ dot (Some schemaData) name ;;
  items <~ iterate ("schemaData." ++ name) v ;;
  rmap (code_row statement) items.

(** The array [allCodes] once the three loops have run. *)
Definition allCodes (schemaData : json) : result (list row) :=
  a <~ section_rows schemaData "stato_patrimoniale_attivo" "SP_A" ;;
  p <~ section_rows schemaData "stato_patrimoniale_passivo" "SP_P" ;;
  c <~ section_rows schemaData "conto_economico" "CE" ;;
  Ok (a ++ p ++ c).

(** [l.slice(i, j)] for [i <= j]. *)
Definition slice {A} (i j : nat) (l : list A) : list A :=
  firstn (j - i) (skipn i l).

(** [for (let i = 0; i < n; i += batchSize)]: the values of [i], the loop
    being given [fuel] iterations. *)
Fixpoint starts_from (fuel i n : nat) : list nat :=
  match fuel with
  | O => []
  | S fuel' =>
      if (i <? n)%nat then i :: starts_from fuel' (i + batchSize) n else []
  end.

(** The batches the loop inserts. *)
Definition batches {A} (l : list A) : list (list A) :=
  map (fun i => slice i (i + batchSize) l)
    (starts_from (List.length l) 0 (List.length l)).

(** [supa.from('legend_codes').delete().neq('code', '')] *)
Definition delete_codes : M unit :=
  delete_neq "legend_codes" "code" (JStr EmptyString).

(** [insert(batch)]: one statement, which adds every row or none; [code]
    is the primary key, so that a row without a code is refused. *)
Fixpoint add_rows (d : db) (rows acc : list row) : option (list row) :=
  match rows with
  | [] => Some acc
  | r :: rest =>
      match col r "code" with
      | JNull => None
      | _ =>
          if violates d "legend_codes" r acc then None
          else add_rows d rest (acc ++ [r])
      end
  end.

Definition insert_batch (batch : list row) : M unit :=
  round_trip ;;;
  d <- get_store ;;
  match add_rows d batch (tables d "legend_codes") with
  | Some rows => put_store (set_table "legend_codes" rows d)
  | None => throw duplicate_key
  end.

(** The loop over the batches: a batch that is refused is logged, and the
    loop goes on; [insertCount] adds up the batches that went in. *)
Fixpoint insert_batches (bs : list (list row)) (insertCount : nat) : M nat :=
  match bs with
  | [] => ret insertCount
  | batch :: rest =>
      done <- Http.attempt (insert_batch batch) ;;
      match done with
      | Some _ => insert_batches rest (insertCount + List.length batch)
      | None => insert_batches rest insertCount
      end
  end.

(** [populateLegendCodes()], once the schema file has been read and
    parsed: [Some insertCount] when the batches were gone through, [None]
    when the table could not be emptied or an exception was caught. *)
Definition populateLegendCodes (schemaData : json) : M (option nat) :=
  emptied <- Http.attempt delete_codes ;;
  match emptied with
  | None => ret None
  | Some _ =>
      match allCodes schemaData with
      | Throw _ => ret None
      | Ok codes =>
          n <- insert_batches (batches codes) 0 ;;
          Http.attempt round_trip ;;;
          Http.attempt round_trip ;;;
          ret (Some n)
      end
  end.

End Program.
End Legend.

(** ** [clearDatabase]: the script that empties the tables *)

Module Clear.
Section Program.
Context {P : Platform}.

Definition tables_to_clear : list string :=
  ["balance_entries"; "addresses"; "contacts"; "ateco"; "companies";
   "ingestions"].

Definition nil_uuid : json := JStr "00000000-0000-0000-0000-000000000000".

(** [clearDatabase()]: the tables it reports as emptied. *)
Fixpoint clear_tables (ts : list string) : M (list string) :=
  match ts with
  | [] => ret []
  | t :: rest =>
      done <- Http.attempt (delete_neq t "id" nil_uuid) ;;
      cleared <- clear_tables rest ;;
      match done with
      | Some _ => ret (t :: cleared)
      | None => ret cleared
      end
  end.

Definition clearDatabase : M (list string) := clear_tables tables_to_clear.

End Program.
End Clear.

(** ** A concrete platform, to run the programs on examples *)

Module Demo.
Local Open Scope string_scope.

Fixpoint canon (v : json) : string :=
  match v with
  | JNull => "null"
  | JBool true => "true"
  | JBool false => "false"
  | JNum n => string_of_Z n
  | JStr s => "'" ++ s ++ "'"
  | JArr items => "[" ++ String.concat "," (map canon items) ++ "]"
  | JObj props =>
      "{" ++ String.concat ","
               (map (fun kv : string * json =>
                       let (k, x) := kv in (k ++ ":" ++ canon x)%string) props)
          ++ "}"
  end.

Fixpoint drop_spaces (s : string) : string :=
  match s with
  | String c rest =>
      if (nat_of_ascii c =? 32)%nat then drop_spaces rest else s
  | EmptyString => EmptyString
  end.

Fixpoint rev_string (acc s : string) : string :=
  match s with
  | EmptyString => acc
  | String c rest => rev_string (String c acc) rest
  end.

Definition trim_spaces (s : string) : string :=
  rev_string EmptyString
    (drop_spaces (rev_string EmptyString (drop_spaces s))).

Definition integer_of (v : json) : option Z :=
  match v with
  | JNum n => Some n
  | JStr s => option_map Z.of_int (NilEmpty.int_of_string s)
  | _ => None
  end.

Definition platform : Platform :=
  {| uuidv5 := fun name ns => "v5(" ++ name ++ ")";
     uuidv4 := fun n => "v4#" ++ string_of_nat n;
     gen_random_uuid := fun n => "pg#" ++ string_of_nat n;
     object_hash := canon;
     entry_hash := fun e =>
       e_statement e ++ "/" ++ js_String (e_code e) ++ "/" ++ e_source_path e;
     trim := trim_spaces;
     toISOString := fun v =>
       match v with
       | JStr s => if iso_date_prefix s then Some s else None
       | _ => None
       end;
     year_end := fun _ => None;
     clock := "2026-01-01T00:00:00.000Z";
     date_parses := iso_date_prefix;
     js_Number := fun s =>
       match integer_of (JStr s) with Some n => JNum n | None => JNull end;
     pg_integer := integer_of;
     pg_text := js_String |}.

(** A world on the store [d]: no failure announced, no draw made. *)
Definition world_on (d : db) : world :=
  mkWorld d [] 0 0 (initial_report EmptyString).

End Demo.

(** ** Sample documents *)

Module Samples.

Definition vat_and_tax : json :=
  JObj [("companyDetails", JObj [("vatCode", JStr "IT123")]);
        ("taxCode", JStr "T9")].

Definition only_vat : json := JObj [("vatCode", JStr "IT123")].

(** The end-to-end scenario. *)
Definition scenario : json :=
  JObj [("companyDetails", JObj [("vatCode", JStr "IT12345678901")]);
        ("address", JObj [("street", JStr "Via Roma 1");
                          ("zipCode", JStr "00100"); ("town", JStr "Roma")]);
        ("balance", JObj [("year", JNum 2023);
                          ("assetsAggregateValues",
                           JObj [("A1", JNum 500)])])].

(** A company without contacts, addresses or financial statements. *)
Definition bare_company : json :=
  JObj [("vatCode", JStr "IT12345678901"); ("companyName", JStr "ACME")].

(** A document with an aggregate section and a detail group. *)
Definition both_vocabularies : json :=
  JObj [("vatCode", JStr "IT12345678901");
        ("balance", JObj [("year", JNum 2023);
                          ("assetsAggregateValues", JObj [("A1", JNum 500)]);
                          ("debts", JObj [("D7", JNum 120)])])].

(** A document only the scan for coded keys finds anything in. *)
Definition coded_keys : json :=
  JObj [("data",
         JObj [("bilancio",
                JObj [("2021", JObj [("IPL12", JNum 5);
                                     ("ABC123", JStr "17")])])])].

(** The end-to-end scenario, with a field no column exists for. *)
Definition with_floor : json :=
  JObj [("companyDetails", JObj [("vatCode", JStr "IT12345678901")]);
        ("address", JObj [("street", JStr "Via Roma 1");
                          ("zipCode", JStr "00100"); ("town", JStr "Roma");
                          ("floor", JNum 3)])].

(** A financial statement without a fiscal year. *)
Definition no_year : json :=
  JObj [("vatCode", JStr "IT12345678901");
        ("balance", JObj [("assetsAggregateValues",
                           JObj [("A1", JNum 500)])])].

(** Two runs in a row on the same document, from the empty store. *)
Definition cli_twice (payload : json) : world :=
  snd (@Cli.main Demo.platform payload
         (snd (@Cli.main Demo.platform payload (Demo.world_on empty_db)))).

Definition http_twice (payload : json) : world :=
  snd (@Http.main Demo.platform payload
         (snd (@Http.main Demo.platform payload (Demo.world_on empty_db)))).

Definition cli_report (o : Cli.outcome) : option report :=
  match o with
  | Cli.Exit0 _ r => Some r
  | Cli.Exit1 _ => None
  end.

Definition http_report (o : Http.outcome) : option report :=
  match o with
  | Http.Exit0 _ r => Some r
  | Http.Exit1 _ => None
  end.

(** The line item of the upsert scenario, for an amount. *)
Definition line_item (amount : Z) : entry :=
  mkEntry (Some (JNum 2023)) "CE" (JStr "A1") undefined
    (Amt (Some (JNum amount))) (JStr "EUR") "incomeStatementAggregateValues".

(** The store of the schema file, with the unique index that the upsert
    of line items names as its conflict target. *)
Definition indexed_db : db :=
  add_unique "balance_entries" Cli.balance_key empty_db.

Definition after_first_upsert : world :=
  snd (@Cli.upsertBalanceEntries Demo.platform "v5(IT12345678901)"
         [line_item 100] (Demo.world_on indexed_db)).

Definition after_second_upsert : world :=
  snd (@Cli.upsertBalanceEntries Demo.platform "v5(IT12345678901)"
         [line_item 150] after_first_upsert).

(** A document with the line item of the upsert scenario, and the store
    after it was ingested by [index.js] with amount 100, and again with
    amount 150. *)
Definition statement_of (amount : Z) : json :=
  JObj [("vatCode", JStr "IT12345678901");
        ("balance",
         JObj [("year", JNum 2023);
               ("incomeStatementAggregateValues",
                JObj [("A1", JNum amount)])])].

Definition ingested_twice : world :=
  snd (@Cli.main Demo.platform (statement_of 150)
         (snd (@Cli.main Demo.platform (statement_of 100)
                 (Demo.world_on indexed_db)))).

(** A statement section with a [null] item: reading its code throws. *)
Definition broken_statement : json :=
  JObj [("vatCode", JStr "IT12345678901");
        ("stato_patrimoniale_attivo", JArr [JNull])].

(** An office list with a [null] office: reading its type throws. *)
Definition broken_offices : json :=
  JObj [("vatCode", JStr "IT12345678901"); ("allOffices", JArr [JNull])].

Definition rows_or_none (r : result (list entry)) : list entry :=
  match r with
  | Ok es => es
  | Throw _ => []
  end.

(** A second company with the tax identifier of the first. *)
Definition same_tax : json :=
  JObj [("vatCode", JStr "IT999"); ("taxCode", JStr "T9")].

Definition one_company : world :=
  snd (@Cli.upsertCompany Demo.platform vat_and_tax
         (Demo.world_on empty_db)).

(** A store whose legend describes the code of the line item. *)
Definition with_legend : world :=
  Demo.world_on
    (set_table "legend_codes"
       [[("code", JStr "A1"); ("description", JStr "Ricavi")]] indexed_db).

Definition after_described_upsert : world :=
  snd (@Cli.upsertBalanceEntry Demo.platform "v5(IT12345678901)"
         (line_item 100) with_legend).



(** A company with a telephone number. *)
Definition with_phone : json :=
  JObj [("vatCode", JStr "IT12345678901"); ("phone", JStr "+39 06 1234")].

(** A schema file of three codes, and one without its last section. *)
Definition schema_file : json :=
  JObj [("stato_patrimoniale_attivo",
         JArr [JObj [("code", JStr "A1"); ("description", JStr "Crediti")]]);
        ("stato_patrimoniale_passivo",
         JArr [JObj [("code", JStr "P1"); ("description", JStr "Debiti")]]);
        ("conto_economico",
         JArr [JObj [("code", JStr "E1"); ("description", JStr "Ricavi")]])].

Definition truncated_schema_file : json :=
  JObj [("stato_patrimoniale_attivo",
         JArr [JObj [("code", JStr "A1"); ("description", JStr "Crediti")]]);
        ("stato_patrimoniale_passivo", JArr [])].

(** A legend of one code, in a store that lists the column [code]. *)
Definition old_legend : world :=
  Demo.world_on
    (set_table "legend_codes"
       [[("code", JStr "Z9"); ("description", JStr "Altro")]]
       (add_column "legend_codes" "code" empty_db)).

(** The rows of the three codes of the schema file. *)
Definition schema_codes : list row :=
  [[("code", JStr "A1"); ("description", JStr "Crediti");
    ("statement", JStr "SP_A")];
   [("code", JStr "P1"); ("description", JStr "Debiti");
    ("statement", JStr "SP_P")];
   [("code", JStr "E1"); ("description", JStr "Ricavi");
    ("statement", JStr "CE")]].

(** The store after [ensureColumn] of [index.http.js] ran for a column. *)
Definition with_column (t c : string) (w : world) : world :=
  snd (@Http.ensureColumn Demo.platform t c (JNum 3) w).

End Samples.

(** ** Notions the properties are stated with *)

Definition rows_of (w : world) (t : string) : list row := tables (store w) t.

(** The rows of [company_versions] recorded for an entity and a hash. *)
Definition same_version (azienda_id hash : string) (r : row) : bool :=
  key_eqb (col r "azienda_id") (JStr azienda_id)
  && key_eqb (col r "content_hash") (JStr hash).

Definition versions_of (w : world) (azienda_id hash : string) : list row :=
  filter (same_version azienda_id hash) (rows_of w "company_versions").

(** No two rows collide on the columns [K]. *)
Definition key_unique (K : list string) (rows : list row) : Prop :=
  ForallOrdPairs (fun r1 r2 => agree K r1 r2 = false) rows.

(** The statuses a finished run is recorded with. *)
Definition terminal_row (r : row) : Prop :=
  col r "status" = JStr (status_name UPDATED)
  \/ col r "status" = JStr (status_name UNCHANGED)
  \/ col r "status" = JStr (status_name ERROR).

(** What [computeAziendaId] reads in the payload, for each program. *)
Definition cli_key (payload : json) (name : string) : jsval :=
  jor (safeGet (Some payload) ["companyDetails"; name]) (field payload name).

Definition http_key (payload : json) (name : string) : jsval :=
  jor (jor (jor (safeGet (Some payload) ["companyDetails"; name])
                (safeGet (Some payload) ["data"; "companyDetails"; name]))
           (field payload name))
      (optfield (optfield (Some payload) "data") name).

(** A draw of [uuidv4()]. *)
Definition drawn (w : world) : world :=
  mkWorld (store w) (faults w) (S (js_draws w)) (pg_draws w) (rep w).

(** The facet rows a payload yields, as [main] counts them. *)
Definition cli_facets (payload : json) (contacts : option json)
  (addresses : list json) : nat :=
  (List.length (Cli.extractBalanceEntries payload)
   + match contacts with Some _ => 1 | None => 0 end
   + List.length addresses)%nat.

Definition http_facets (payload : json) (addresses : list json)
  (balanceEntries : list entry) : nat :=
  (List.length balanceEntries
   + match Http.extractContacts payload with Some _ => 1 | None => 0 end
   + List.length addresses + List.length (Http.extractAteco payload))%nat.

Definition status_for (facets : nat) : run_status :=
  if (0 <? facets)%nat then UPDATED else UNCHANGED.

(** The three tiers of [extractBalanceEntries] in [index.http.js], each run
    on its own. *)
Definition http_tier1 (payload : json) : result (list entry) :=
  Http.push_sections (Http.defaultYear payload) (Http.data_of payload)
    Http.sectionMappings [].

Definition http_tier2 (payload : json) : result (list entry) :=
  Http.push_sections (Http.defaultYear payload) (Http.data_of payload)
    Http.euromarSectionMappings [].

Definition http_tier3 (payload : json) : list entry :=
  flat_map (Http.code_entries (Http.defaultYear payload))
    (Http.walkv (Http.data_of payload)).

(** A candidate line item that carries a fiscal year and a code. *)
Definition has_keys (e : entry) : bool :=
  truthyv (e_year e) && truthy (e_code e).

(** A relation between the store before and the store after, kept by
    every step of a computation whether it returns or throws. *)
Definition preserves {A} (Q : db -> db -> Prop) (m : M A) : Prop :=
  forall w, Q (store w) (store (snd (m w))).

(** The relation allows any change of the rows of [t], and any new
    column. *)
Definition free_table (Q : db -> db -> Prop) (t : string) : Prop :=
  forall d rows, Q d (set_table t rows d).

Definition free_columns (Q : db -> db -> Prop) : Prop :=
  forall d t c, Q d (add_column t c d).

(** No failure is announced at the end if none was at the start. *)
Definition calm {A} (m : M A) : Prop :=
  forall w, faults w = [] -> faults (snd (m w)) = [].

(** The constraints of the tables are left as they are. *)
Definition same_uniques (d d' : db) : Prop := uniques d' = uniques d.

(** The rows of one table are left as they are. *)
Definition same_table (t : string) (d d' : db) : Prop :=
  tables d' t = tables d t.

(** Every row of [ingestions] is an old one or records a finished run. *)
Definition runs_grow (d d' : db) : Prop :=
  forall r, In r (tables d' "ingestions") ->
            In r (tables d "ingestions") \/ terminal_row r.

(** ** Notions for the properties of the helpers and the extractors *)

(** Every character of [s] passes [p]. *)
Definition all_chars (p : ascii -> bool) (s : string) : bool :=
  forallb p (list_ascii_of_string s).

(** A character [toSnakeCase] leaves as it is. *)
Definition plain_char (c : ascii) : bool :=
  negb (is_upper c) && negb (is_separator c).

(** [s] reads [pre], then ["20"] and the two digits [d1 d2], then [post]. *)
Definition year_at (pre post : string) (d1 d2 : ascii) (s : string) : Prop :=
  s = (pre ++ String "2" (String "0" (String d1 (String d2 post))))%string
  /\ is_digit d1 = true /\ is_digit d2 = true.

(** The keys of every object of a document are pairwise distinct, as in a
    document that comes out of [JSON.parse]. *)
Fixpoint distinct (l : list string) : bool :=
  match l with
  | [] => true
  | k :: rest => negb (mem k rest) && distinct rest
  end.

Fixpoint unique_keys (v : json) : bool :=
  match v with
  | JObj props =>
      distinct (map fst props)
      && (fix all (ps : list (string * json)) : bool :=
            match ps with
            | [] => true
            | (_, x) :: rest => unique_keys x && all rest
            end) props
  | JArr items =>
      (fix all (xs : list json) : bool :=
         match xs with
         | [] => true
         | x :: rest => unique_keys x && all rest
         end) items
  | _ => true
  end.

(** The value found in a document by following a path of keys and
    indices from its root. *)
Definition child (v : json) (k : string) : option json :=
  match v with
  | JObj _ | JArr _ => assoc k (entries v)
  | _ => None
  end.

Fixpoint at_path (v : json) (path : list string) : option json :=
  match path with
  | [] => Some v
  | k :: rest =>
      match child v k with
      | Some c => at_path c rest
      | None => None
      end
  end.

(** The elements of [payload.allOffices] when it is an array. *)
Definition offices_of (payload : json) : list json :=
  match field payload "allOffices" with
  | Some (JArr offices) => offices
  | _ => []
  end.

(** The messages of the two [TypeError]s the extractors can raise. *)
Definition null_office : string :=
  "Cannot read properties of null (reading 'officeType')".

Definition null_item : string :=
  "Cannot read properties of null (reading 'code')".

(** The keys [extractAddresses] of [index.http.js] normalizes. *)
Definition normalized_keys : list string :=
  ["addressType"; "street"; "zipCode"; "town"; "province"; "region";
   "country"].

(** The statements the schema allows in [balance_entries.statement]. *)
Definition statements : list string := ["SP_A"; "SP_P"; "CE"].

(** A row of [index.js]: a year, a statement the schema allows, a string for
    code, no description, and a number or [null] for amount. *)
Definition cli_row (e : entry) : Prop :=
  truthyv (e_year e) = true
  /\ In (e_statement e) statements
  /\ is_string (e_code e) = true
  /\ e_description e = undefined
  /\ exists v, e_amount e = Amt (Some v) /\ (is_number v = true \/ v = JNull).

(** A row of [index.http.js]: year, code and description are truthy. *)
Definition http_row (e : entry) : Prop :=
  has_keys e = true
  /\ In (e_statement e) statements
  /\ truthyv (e_description e) = true
  /\ e_currency e = JStr "EUR".

(** ** Notions for the properties of the stored rows *)

(** The key of the row of [companies] of an entity. *)
Definition company_key : list string := ["azienda_id"].

Definition entity_key (azienda_id : string) : row :=
  [("azienda_id", JStr azienda_id)].

(** The count an unmapped code is given when it is seen again. *)
Definition next_occurrence (o : row) : json :=
  match col o "occurrences" with
  | JNum n => JNum (n + 1)
  | _ => JNull
  end.

Section StoredKeys.
Context {P : Platform}.

(** The key of the row of [unmapped_codes] of a code, the rows of
    [legend_codes] that describe a code, and the key of the row of
    [balance_entries] of a line item. *)
Definition code_key (code : json) : row := [("code", as_text code)].

Definition legend_rows (w : world) (code : json) : list row :=
  filter (fun r => key_eqb (col r "code") (as_text code))
    (rows_of w "legend_codes").

Definition line_key (azienda_id : string) (y : Z) (e : entry) : row :=
  [("azienda_id", JStr azienda_id); ("year", JNum y);
   ("statement", JStr (e_statement e)); ("code", as_text (e_code e))].

End StoredKeys.

(** A line item [upsertBalanceEntries] does not skip. *)
Definition keyed (e : entry) : bool :=
  has_keys e && negb (String.eqb (e_statement e) EmptyString).

Section LineItemKeys.
Context {P : Platform}.

(** The line item [e] has the key of the row [k]. *)
Definition has_line (azienda_id : string) (k : row) (e : entry) : bool :=
  keyed e
  && match pg_integer (or_null (e_year e)) with
     | Some y => agree Cli.balance_key k (line_key azienda_id y e)
     | None => false
     end.

(** The line item [e] is skipped, or a row of [balance_entries] has its
    key. *)
Definition known (azienda_id : string) (w : world) (e : entry) : bool :=
  negb (keyed e)
  || match pg_integer (or_null (e_year e)) with
     | Some y =>
         existsb (agree Cli.balance_key (line_key azienda_id y e))
           (rows_of w "balance_entries")
     | None => true
     end.

(** The description [index.js] stores a line item with: its own, or the
    one the first row of the legend has for its code. *)
Definition cli_description (w : world) (e : entry) : json :=
  let desc0 := or_null (e_description e) in
  if truthy desc0 then desc0
  else
    match legend_rows w (e_code e) with
    | first :: _ => col first "description"
    | [] => desc0
    end.

(** What the row of a line item holds once [index.js] has upserted it. *)
Definition cli_stored (w : world) (e : entry) (x : row) : Prop :=
  col x "amount" = nullish_null (amount_value (e_amount e))
  /\ col x "description" = as_text (cli_description w e)
  /\ col x "currency" = as_text (e_currency e).



(** What the upsert of one line item does to [balance_entries], [stored]
    saying what the row of a line item holds: the rows stay pairwise
    distinct on the key, a key that had a row keeps one, and either the
    line item is skipped and the table is left as it is, or exactly one
    row has its key, holding what [stored] says, the rows of the other
    keys are left as they are, and the table has not grown when the key
    was there. *)
Definition line_step (azienda_id : string)
  (stored : world -> entry -> row -> Prop) (e : entry) (w w' : world)
  : Prop :=
  key_unique Cli.balance_key (rows_of w' "balance_entries")
  /\ (forall e' x, stored w' e' x <-> stored w e' x)
  /\ (forall k,
        existsb (agree Cli.balance_key k) (rows_of w "balance_entries")
        = true ->
        existsb (agree Cli.balance_key k) (rows_of w' "balance_entries")
        = true)
  /\ if keyed e then
       exists (y : Z) (x : row),
         pg_integer (or_null (e_year e)) = Some y
         /\ filter (agree Cli.balance_key (line_key azienda_id y e))
              (rows_of w' "balance_entries") = [x]
         /\ stored w e x
         /\ (forall k,
               agree Cli.balance_key k (line_key azienda_id y e) = false ->
               filter (agree Cli.balance_key k)
                 (rows_of w' "balance_entries")
               = filter (agree Cli.balance_key k)
                   (rows_of w "balance_entries"))
         /\ (existsb (agree Cli.balance_key (line_key azienda_id y e))
               (rows_of w "balance_entries") = true ->
             List.length (rows_of w' "balance_entries")
             = List.length (rows_of w "balance_entries"))
     else rows_of w' "balance_entries" = rows_of w "balance_entries".

End LineItemKeys.

(** The columns of [contacts] the extractors fill. *)
Definition contact_columns : list string :=
  ["phone"; "email"; "pec"; "website"].

(** The documents stored in the column [raw_json] of some rows. *)
Definition raw_of (rows : list row) : list json :=
  map (fun x => col x "raw_json") rows.

Definition found_list (contacts : option json) : list json :=
  match contacts with Some c => [c] | None => [] end.

(** The table [t] has gained rows whose raw documents are [docs]. *)
Definition gained (t : string) (docs : list json) (w w' : world) : Prop :=
  exists new, rows_of w' t = rows_of w t ++ new /\ raw_of new = docs.

(** ** Notions for the properties of the report *)

(** A relation between the report before and the report after, kept by
    every step of a computation; and a computation that leaves the report
    as it is. *)
Definition keeps {A} (R : report -> report -> Prop) (m : M A) : Prop :=
  forall w, R (rep w) (rep (snd (m w))).

Definition quiet {A} (m : M A) : Prop := forall w, rep (snd (m w)) = rep w.

Definition same_warnings (r r' : report) : Prop := warnings r' = warnings r.

Definition same_counters (r r' : report) : Prop :=
  inserts r' = inserts r /\ skips r' = skips r.

(** The sections of a run with the number of facets extracted for each;
    those counted in [report.inserts], and those counted in
    [report.skips]. *)
Definition inserted (sections : list (string * nat)) : list (string * nat) :=
  filter (fun sn => negb (snd sn =? 0)%nat) sections.

Definition skipped (sections : list (string * nat)) : list (string * nat) :=
  map (fun sn => (fst sn, 1%nat))
    (filter (fun sn => (snd sn =? 0)%nat) sections).

Definition found (contacts : option json) : nat :=
  match contacts with Some _ => 1%nat | None => 0%nat end.

Definition cli_sections (payload : json) (contacts : option json)
  (addresses : list json) : list (string * nat) :=
  [("contacts", found contacts); ("addresses", List.length addresses);
   ("balance_entries", List.length (Cli.extractBalanceEntries payload))].

Definition http_sections (payload : json) (addresses : list json)
  (balanceEntries : list entry) : list (string * nat) :=
  [("contacts", found (Http.extractContacts payload));
   ("addresses", List.length addresses);
   ("ateco", List.length (Http.extractAteco payload));
   ("balance_entries", List.length balanceEntries)].

(** The counters after a section was counted. *)
Definition counted (section : string) (n : nat) (r r' : report) : Prop :=
  inserts r' = (if (n =? 0)%nat then inserts r else bump section n (inserts r))
  /\ skips r' = (if (n =? 0)%nat then bump section 1 (skips r) else skips r).

(** ** Notions for the properties of the scripts *)

(** A reading of [getTime] for the examples: a number is its own time. *)
Definition epoch_of (v : jsval) : option Z :=
  match v with
  | Some (JNum n) => Some n
  | _ => None
  end.

(** The sections of the schema file [populateLegendCodes] reads. *)
Definition legend_sections : list string :=
  ["stato_patrimoniale_attivo"; "stato_patrimoniale_passivo";
   "conto_economico"].

(** The rows [delete().neq('code', '')] leaves. *)
Definition without_code (rows : list row) : list row :=
  filter (fun r => negb (differs (col r "code") (JStr EmptyString))) rows.

(** A row whose code is a string that is not empty. *)
Definition coded (r : row) : Prop :=
  exists s, col r "code" = JStr s /\ s <> EmptyString.

(** * Properties *)

(** ** Values and string tests *)

Lemma jor_assoc (a b c : jsval) : jor (jor a b) c = jor a (jor b c).
Proof.
  unfold jor. destruct (truthyv a) eqn:Ha.
  - now rewrite Ha.
  - reflexivity.
Qed.

Lemma dot_defined (p : json) (k : string) :
  p <> JNull -> dot (Some p) k = Ok (field p k).
Proof. destruct p; intros H; try reflexivity. now elim H. Qed.

Lemma or_else_value (a b : jsval) : or_else a (Ok b) = Ok (jor a b).
Proof. unfold or_else, jor. now destruct (truthyv a). Qed.

(** ** Identity resolution *)

Section Identity.
Context {P : Platform}.

Lemma cli_computeAziendaId_value (payload : json) (w : world) :
  payload <> JNull ->
  Cli.computeAziendaId payload w =
  let key := jor (cli_key payload "vatCode") (cli_key payload "taxCode") in
  if truthyv key then (Ok (uuidv5 (trim (js_Stringv key)) NS), w)
  else (Ok (uuidv4 (js_draws w)), drawn w).
Proof.
  intros Hp. unfold Cli.computeAziendaId, bind, lift.
  rewrite !dot_defined, !or_else_value by assumption.
  fold (cli_key payload "vatCode"). fold (cli_key payload "taxCode").
  cbv zeta.
  destruct (truthyv (jor (cli_key payload "vatCode")
                         (cli_key payload "taxCode"))); reflexivity.
Qed.

Lemma http_natural_key_value (payload : json) (name : string) :
  payload <> JNull ->
  Http.natural_key payload name = Ok (http_key payload name).
Proof.
  intros Hp. unfold Http.natural_key, http_key.
  rewrite dot_defined by assumption. cbn [rbind].
  rewrite !or_else_value. now rewrite !jor_assoc.
Qed.

Lemma http_computeAziendaId_value (payload : json) (w : world) :
  payload <> JNull ->
  Http.computeAziendaId payload w =
  let key := jor (http_key payload "vatCode") (http_key payload "taxCode") in
  if truthyv key then (Ok (uuidv5 (trim (js_Stringv key)) NS), w)
  else (Ok (uuidv4 (js_draws w)), drawn w).
Proof.
  intros Hp. unfold Http.computeAziendaId, bind, lift.
  rewrite !http_natural_key_value by assumption. cbv zeta.
  destruct (truthyv (jor (http_key payload "vatCode")
                         (http_key payload "taxCode"))); reflexivity.
Qed.

End Identity.

(** C5.  In both programs the identifier of a payload is a function of its
    natural key alone: the VAT identifier when one is present, the tax
    identifier otherwise.  Two payloads with the same natural key get the
    same identifier, whatever the state of the process that computes it,
    and the random generator is drawn from exactly when neither identifier
    is present. *)
Theorem identity_resolution_is_deterministic :
  forall (P : Platform) (p1 p2 : json) (w1 w2 : world),
    p1 <> JNull -> p2 <> JNull ->
    let cli p := jor (cli_key p "vatCode") (cli_key p "taxCode") in
    let http p := jor (http_key p "vatCode") (http_key p "taxCode") in
    (* the VAT identifier has priority *)
    (truthyv (cli_key p1 "vatCode") = true -> cli p1 = cli_key p1 "vatCode")
    /\ (truthyv (http_key p1 "vatCode") = true ->
        http p1 = http_key p1 "vatCode")
    (* same natural key, same identifier, and no draw *)
    /\ (truthyv (cli p1) = true -> cli p1 = cli p2 ->
        Cli.computeAziendaId p1 w1
          = (Ok (uuidv5 (trim (js_Stringv (cli p1))) NS), w1)
        /\ fst (Cli.computeAziendaId p2 w2) = fst (Cli.computeAziendaId p1 w1))
    /\ (truthyv (http p1) = true -> http p1 = http p2 ->
        Http.computeAziendaId p1 w1
          = (Ok (uuidv5 (trim (js_Stringv (http p1))) NS), w1)
        /\ fst (Http.computeAziendaId p2 w2)
           = fst (Http.computeAziendaId p1 w1))
    (* a random identifier only when neither is present *)
    /\ (truthyv (cli p1) = false ->
        Cli.computeAziendaId p1 w1 = (Ok (uuidv4 (js_draws w1)), drawn w1))
    /\ (truthyv (http p1) = false ->
        Http.computeAziendaId p1 w1 = (Ok (uuidv4 (js_draws w1)), drawn w1)).
Proof.
  intros P p1 p2 w1 w2 H1 H2 cli http. subst cli http. cbv beta.
  repeat split.
  - intros Hv. unfold jor. now rewrite Hv.
  - intros Hv. unfold jor at 1. now rewrite Hv.
  - rewrite cli_computeAziendaId_value by assumption. cbv zeta. now rewrite H.
  - rewrite !cli_computeAziendaId_value by assumption. cbv zeta.
    rewrite <- H0, H. reflexivity.
  - rewrite http_computeAziendaId_value by assumption. cbv zeta.
    now rewrite H.
  - rewrite !http_computeAziendaId_value by assumption. cbv zeta.
    rewrite <- H0, H. reflexivity.
  - intros Hk. rewrite cli_computeAziendaId_value by assumption. cbv zeta.
    now rewrite Hk.
  - intros Hk. rewrite http_computeAziendaId_value by assumption. cbv zeta.
    now rewrite Hk.
Qed.

Lemma identity_resolution_witness :
  Samples.vat_and_tax <> JNull /\ Samples.only_vat <> JNull
  /\ fst (@Cli.computeAziendaId Demo.platform Samples.only_vat
            (Demo.world_on empty_db))
     = fst (@Cli.computeAziendaId Demo.platform Samples.vat_and_tax
              (mkWorld empty_db [Some "down"] 7 3
                 (initial_report EmptyString)))
  /\ fst (@Http.computeAziendaId Demo.platform Samples.vat_and_tax
            (Demo.world_on empty_db)) = Ok "v5(IT123)".
Proof.
  assert (H1 : Samples.vat_and_tax <> JNull) by discriminate.
  assert (H2 : Samples.only_vat <> JNull) by discriminate.
  destruct (identity_resolution_is_deterministic Demo.platform
              Samples.vat_and_tax Samples.only_vat
              (mkWorld empty_db [Some "down"] 7 3
                 (initial_report EmptyString))
              (Demo.world_on empty_db) H1 H2)
    as (_ & _ & Hcli & _).
  destruct (identity_resolution_is_deterministic Demo.platform
              Samples.vat_and_tax Samples.only_vat
              (Demo.world_on empty_db) (Demo.world_on empty_db) H1 H2)
    as (_ & _ & _ & Hhttp & _).
  split; [exact H1 | split; [exact H2 | split]].
  - exact (proj2 (Hcli eq_refl eq_refl)).
  - destruct (Hhttp eq_refl eq_refl) as [Hv _]. rewrite Hv. reflexivity.
Defined.

(** ** Reasoning about runs *)

Lemma bind_ok {A B} (m : M A) (k : A -> M B) (w w' : world) (b : B) :
  bind m k w = (Ok b, w') ->
  exists a w1, m w = (Ok a, w1) /\ k a w1 = (Ok b, w').
Proof.
  unfold bind. destruct (m w) as [[a | msg] w1]; intros H.
  - now exists a, w1.
  - discriminate.
Qed.

Lemma bind_throw {A B} (m : M A) (k : A -> M B) (w w' : world) (e : string) :
  bind m k w = (Throw e, w') ->
  m w = (Throw e, w')
  \/ exists a w1, m w = (Ok a, w1) /\ k a w1 = (Throw e, w').
Proof.
  unfold bind. destruct (m w) as [[a | msg] w1]; intros H.
  - right. now exists a, w1.
  - left. now inversion H.
Qed.

Ltac bind_inv H :=
  let a := fresh "a" in
  let w := fresh "w" in
  let Hm := fresh "Hm" in
  apply bind_ok in H; destruct H as (a & w & Hm & H).

Section Frames.
Variable Q : db -> db -> Prop.
Hypothesis Q_refl : forall d, Q d d.
Hypothesis Q_trans : forall a b c, Q a b -> Q b c -> Q a c.

Lemma preserves_bind {A B} (m : M A) (k : A -> M B) :
  preserves Q m -> (forall a, preserves Q (k a)) -> preserves Q (bind m k).
Proof.
  intros Hm Hk w. unfold bind. specialize (Hm w).
  destruct (m w) as [[a | msg] w1]; cbn [snd] in *.
  - eapply Q_trans; [exact Hm | apply Hk].
  - exact Hm.
Qed.

Lemma preserves_ret {A} (a : A) : preserves Q (ret a).
Proof. intros w. apply Q_refl. Qed.

Lemma preserves_throw {A} (e : string) : preserves Q (@throw A e).
Proof. intros w. apply Q_refl. Qed.

Lemma preserves_lift {A} (r : result A) : preserves Q (lift r).
Proof. intros w. apply Q_refl. Qed.

Lemma preserves_get_store : preserves Q get_store.
Proof. intros w. apply Q_refl. Qed.

Lemma preserves_get_rep : preserves Q get_rep.
Proof. intros w. apply Q_refl. Qed.

Lemma preserves_for_each {A} (l : list A) (body : A -> M unit) :
  (forall x, preserves Q (body x)) -> preserves Q (for_each l body).
Proof.
  intros Hb. induction l as [| x l IH]; cbn [for_each].
  - apply preserves_ret.
  - apply preserves_bind; [apply Hb | intros _; exact IH].
Qed.

Context {P : Platform}.

Lemma preserves_round_trip : preserves Q round_trip.
Proof.
  intros w. unfold round_trip.
  destruct (faults w) as [| [msg |] rest]; apply Q_refl.
Qed.

Lemma preserves_fresh_uuidv4 : preserves Q fresh_uuidv4.
Proof. intros w. apply Q_refl. Qed.

Lemma preserves_with_default_id (t : string) (r : row) :
  preserves Q (with_default_id t r).
Proof.
  intros w. unfold with_default_id. destruct (default_id t); apply Q_refl.
Qed.

Lemma preserves_push_created t c : preserves Q (push_created t c).
Proof. intros w. apply Q_refl. Qed.

Lemma preserves_push_warning x : preserves Q (push_warning x).
Proof. intros w. apply Q_refl. Qed.

Lemma preserves_count_insert s n : preserves Q (count_insert s n).
Proof. intros w. apply Q_refl. Qed.

Lemma preserves_count_skip s : preserves Q (count_skip s).
Proof. intros w. apply Q_refl. Qed.

Lemma preserves_set_status s : preserves Q (set_status s).
Proof. intros w. apply Q_refl. Qed.

Lemma preserves_put_table (t : string) (rows : list row) (d : db) :
  free_table Q t -> forall w, store w = d ->
  Q (store w) (store (snd (put_store (set_table t rows d) w))).
Proof. intros Hf w <-. cbn. apply Hf. Qed.

Lemma preserves_sql_insert (t : string) (r : row) :
  free_table Q t -> preserves Q (sql_insert t r).
Proof.
  intros Hf. unfold sql_insert.
  apply preserves_bind; [apply preserves_round_trip | intros _].
  apply preserves_bind; [apply preserves_with_default_id | intros r'].
  intros w. unfold bind, get_store.
  destruct (violates _ _ _ _); [apply Q_refl | cbn; apply Hf].
Qed.

Lemma preserves_sql_insert_do_nothing (t : string) (r : row) :
  free_table Q t -> preserves Q (sql_insert_do_nothing t r).
Proof.
  intros Hf. unfold sql_insert_do_nothing.
  apply preserves_bind; [apply preserves_round_trip | intros _].
  apply preserves_bind; [apply preserves_with_default_id | intros r'].
  intros w. unfold bind, get_store.
  destruct (violates _ _ _ _); [apply Q_refl | cbn; apply Hf].
Qed.

Lemma preserves_sql_upsert (t : string) (K : list string) sets (r : row) :
  free_table Q t -> preserves Q (sql_upsert t K sets r).
Proof.
  intros Hf. unfold sql_upsert.
  apply preserves_bind; [apply preserves_round_trip | intros _].
  intros w. unfold bind at 1. unfold get_store at 1.
  destruct (arbiter (store w) t K); cbn [negb]; [| apply Q_refl].
  destruct (existsb (agree K r) (tables (store w) t)).
  - destruct (existsb _ (tables (store w) t)); [apply Q_refl | cbn; apply Hf].
  - generalize (preserves_with_default_id t r w).
    unfold bind. destruct (with_default_id t r w) as [[r' | e] w1] eqn:E;
      cbn [snd]; intros Hq; [| exact Hq].
    destruct (violates _ _ _ _); [exact Hq |].
    cbn. apply Hf.
Qed.

Lemma preserves_sql_select (t c : string) (v : json) :
  preserves Q (sql_select t c v).
Proof.
  unfold sql_select.
  apply preserves_bind; [apply preserves_round_trip | intros _].
  apply preserves_bind; [apply preserves_get_store | intros d].
  apply preserves_ret.
Qed.

Lemma preserves_column_exists (t c : string) : preserves Q (column_exists t c).
Proof.
  unfold column_exists.
  apply preserves_bind; [apply preserves_round_trip | intros _].
  apply preserves_bind; [apply preserves_get_store | intros d].
  apply preserves_ret.
Qed.

Lemma preserves_alter_add_column (t c : string) :
  free_columns Q -> preserves Q (alter_add_column t c).
Proof.
  intros Hc. unfold alter_add_column.
  apply preserves_bind; [apply preserves_round_trip | intros _].
  intros w. unfold bind, get_store.
  destruct (mem c _); [apply Q_refl | cbn; apply Hc].
Qed.

Lemma preserves_sql_insert_append (t : string) (r : row) :
  (forall d r',
      match default_id t with
      | Some c => exists v, r' = (c, JStr v) :: r
      | None => r' = r
      end ->
      Q d (set_table t (tables d t ++ [r']) d)) ->
  preserves Q (sql_insert t r).
Proof.
  intros Hq. unfold sql_insert.
  apply preserves_bind; [apply preserves_round_trip | intros _].
  intros w. unfold bind, with_default_id, get_store.
  destruct (default_id t) as [c |] eqn:Ed; cbn.
  - destruct (violates _ _ _ _); cbn; [apply Q_refl |].
    apply Hq. eauto.
  - destruct (violates _ _ _ _); cbn; [apply Q_refl |].
    now apply Hq.
Qed.

Lemma preserves_add_column_if_missing (t c : string) :
  free_columns Q -> preserves Q (add_column_if_missing t c).
Proof.
  intros Hc. unfold add_column_if_missing.
  apply preserves_bind; [apply preserves_round_trip | intros _].
  intros w. unfold bind, get_store.
  destruct (mem c _); [apply Q_refl | cbn; apply Hc].
Qed.

End Frames.

Lemma preserves_run {Q : db -> db -> Prop} {A} {m : M A} {w w' : world}
  {r : result A} :
  preserves Q m -> m w = (r, w') -> Q (store w) (store w').
Proof. intros Hm E. specialize (Hm w). now rewrite E in Hm. Qed.

Lemma preserves_execSQL (Q : db -> db -> Prop) {A} (m : M A) :
  preserves Q m -> preserves Q (Http.execSQL m).
Proof.
  intros Hm w. unfold Http.execSQL. specialize (Hm w).
  destruct (m w) as [[a | e] w1]; exact Hm.
Qed.

Lemma preserves_attempt (Q : db -> db -> Prop) {A} (m : M A) :
  preserves Q m -> preserves Q (Http.attempt m).
Proof.
  intros Hm w. unfold Http.attempt. specialize (Hm w).
  destruct (m w) as [[a | e] w1]; exact Hm.
Qed.

(** The steps of a frame proof, on a computation whose program functions
    have been unfolded; [side] closes the conditions on the relation and
    [special] the steps that need an argument of their own. *)
Ltac frame side special :=
  repeat first
    [ solve [side]
    | special
    | progress cbv zeta
    | progress intros
    | match goal with
      | |- preserves _ (ret _) => apply preserves_ret
      | |- preserves _ (throw _) => apply preserves_throw
      | |- preserves _ (lift _) => apply preserves_lift
      | |- preserves _ get_store => apply preserves_get_store
      | |- preserves _ get_rep => apply preserves_get_rep
      | |- preserves _ round_trip => apply preserves_round_trip
      | |- preserves _ fresh_uuidv4 => apply preserves_fresh_uuidv4
      | |- preserves _ (push_created _ _) => apply preserves_push_created
      | |- preserves _ (push_warning _) => apply preserves_push_warning
      | |- preserves _ (count_insert _ _) => apply preserves_count_insert
      | |- preserves _ (count_skip _) => apply preserves_count_skip
      | |- preserves _ (set_status _) => apply preserves_set_status
      | |- preserves _ (sql_insert _ _) => apply preserves_sql_insert
      | |- preserves _ (sql_insert_do_nothing _ _) =>
          apply preserves_sql_insert_do_nothing
      | |- preserves _ (sql_upsert _ _ _ _) => apply preserves_sql_upsert
      | |- preserves _ (Http.upsert _ _ _) => apply preserves_sql_upsert
      | |- preserves _ (Http.insert _ _) => apply preserves_sql_insert
      | |- preserves _ (sql_select _ _ _) => apply preserves_sql_select
      | |- preserves _ (column_exists _ _) => apply preserves_column_exists
      | |- preserves _ (alter_add_column _ _) =>
          apply preserves_alter_add_column
      | |- preserves _ (add_column_if_missing _ _) =>
          apply preserves_add_column_if_missing
      | |- preserves _ (Http.execSQL _) => apply preserves_execSQL
      | |- preserves _ (Http.attempt _) => apply preserves_attempt
      | |- preserves _ (for_each _ _) => apply preserves_for_each
      | |- preserves _ (bind _ _) => apply preserves_bind
      | |- preserves _ (match ?x with _ => _ end) => destruct x
      end ].

Ltac open_cli :=
  unfold Cli.transaction, Cli.upsertCompany, Cli.computeAziendaId,
    Cli.insertCompanyVersion, Cli.insertRawSection, Cli.upsertContacts,
    Cli.upsertAddresses, Cli.upsertBalanceEntries, Cli.upsertBalanceEntry,
    Cli.promote, Cli.ensureColumn.

Ltac open_http :=
  unfold Http.attempt_run, Http.upsertCompany, Http.computeAziendaId,
    Http.insertCompanyVersion, Http.insertRawSection, Http.upsertContacts,
    Http.upsertAddresses, Http.upsertAteco, Http.upsertBalanceEntries,
    Http.upsertBalanceEntry, Http.promote, Http.ensureColumn.

Lemma same_table_refl (t : string) (d : db) : same_table t d d.
Proof. reflexivity. Qed.

Lemma same_table_trans (t : string) (a b c : db) :
  same_table t a b -> same_table t b c -> same_table t a c.
Proof. unfold same_table. congruence. Qed.

Lemma same_table_free (t t' : string) :
  String.eqb t t' = false -> free_table (same_table t) t'.
Proof. intros E d rows. unfold same_table. cbn. now rewrite E. Qed.

Lemma same_table_columns (t : string) : free_columns (same_table t).
Proof. intros d t' c. reflexivity. Qed.

Ltac same_table_side :=
  first [ apply same_table_refl
        | apply same_table_trans
        | apply same_table_columns
        | apply same_table_free; reflexivity ].


(** ** Recorded runs *)

Lemma runs_grow_refl (d : db) : runs_grow d d.
Proof. intros r Hr. now left. Qed.

Lemma runs_grow_trans (a b c : db) :
  runs_grow a b -> runs_grow b c -> runs_grow a c.
Proof.
  intros Hab Hbc r Hr. destruct (Hbc r Hr) as [Hb | Ht]; [| now right].
  apply Hab, Hb.
Qed.

Lemma runs_grow_free (t : string) :
  String.eqb "ingestions" t = false -> free_table runs_grow t.
Proof.
  intros E d rows r Hr. unfold set_table in Hr. cbn [tables] in Hr.
  rewrite E in Hr. now left.
Qed.

Lemma runs_grow_columns : free_columns runs_grow.
Proof. intros d t c r Hr. now left. Qed.

Lemma runs_grow_append (d : db) (r : row) :
  terminal_row r ->
  runs_grow d (set_table "ingestions" (tables d "ingestions" ++ [r]) d).
Proof.
  intros Ht x. cbn. rewrite in_app_iff. intros [Hx | [<- | []]]; auto.
Qed.

Ltac runs_grow_side :=
  first [ apply runs_grow_refl
        | apply runs_grow_trans
        | apply runs_grow_columns
        | apply runs_grow_free; reflexivity ].

Section RecordedRuns.
Context {P : Platform}.

Lemma error_row_preserves (id msg : string) :
  preserves runs_grow (sql_insert "ingestions" (error_row id msg)).
Proof.
  apply preserves_sql_insert_append;
      [apply runs_grow_refl | apply runs_grow_trans |].
  cbn. intros d r' ->. apply runs_grow_append.
  right; right. reflexivity.
Qed.

Lemma record_run_preserves (st : run_status) (id a : string) (k : M string) :
  st = UPDATED \/ st = UNCHANGED ->
  preserves runs_grow k ->
  preserves runs_grow
    (set_status st ;;;
     r <- get_rep ;;
     sql_insert "ingestions" (run_row id a r) ;;; k).
Proof.
  intros Hst Hk w. unfold bind at 1 2. unfold set_status, get_rep.
  cbn [rep set_rep].
  match goal with
  | |- context [run_row id a ?r] => set (final := r)
  end.
  assert (Hrow : preserves runs_grow
                   (sql_insert "ingestions" (run_row id a final) ;;; k)).
  { apply preserves_bind;
      [apply runs_grow_trans | | intros _; exact Hk].
    apply preserves_sql_insert_append;
      [apply runs_grow_refl | apply runs_grow_trans |].
    cbn [default_id String.eqb Ascii.eqb Bool.eqb]. intros d r' ->.
    apply runs_grow_append. unfold terminal_row.
    assert (E : col (run_row id a final) "status" = JStr (status_name st))
      by reflexivity.
    rewrite E. destruct Hst as [-> | ->]; auto. }
  specialize (Hrow (set_rep final w)). exact Hrow.
Qed.

Ltac record_run :=
  idtac;
  match goal with
  | |- preserves runs_grow (bind (set_status _) _) =>
      apply record_run_preserves;
      [ match goal with
        | |- context [if ?b then _ else _] => destruct b; auto
        end
      | ]
  end.

Lemma cli_transaction_runs (payload : json) (id : string) :
  preserves runs_grow (Cli.transaction payload id).
Proof. open_cli. frame runs_grow_side record_run. Qed.

Lemma http_attempt_runs (payload : json) (id : string) :
  preserves runs_grow (Http.attempt_run payload id).
Proof. open_http. frame runs_grow_side record_run. Qed.

End RecordedRuns.

Section MainRuns.
Context {P : Platform}.

Lemma connect_store (w w1 : world) (r : result string) :
  (round_trip ;;; fresh_uuidv4) w = (r, w1) -> store w1 = store w.
Proof.
  unfold bind, round_trip, fresh_uuidv4.
  destruct (faults w) as [| [msg |] rest]; intros E; inversion E; reflexivity.
Qed.

Lemma round_trip_store (w : world) : store (snd (round_trip w)) = store w.
Proof.
  unfold round_trip. destruct (faults w) as [| [msg |] rest]; reflexivity.
Qed.

(** The statement of the [catch] block of [index.js] is refused, and
    leaves the store as it is. *)
Lemma insert_error_row_refused (id msg : string) (w : world) :
  exists e w',
    Cli.insert_error_row id msg w = (Throw e, w')
    /\ store w' = store w
    /\ (faults w = [] -> e = Cli.undetermined_parameter).
Proof.
  unfold Cli.insert_error_row, bind, round_trip, throw.
  destruct (faults w) as [| [m |] rest]; do 2 eexists;
    (split; [reflexivity | split; [reflexivity |]]);
    intros E; first [reflexivity | discriminate E].
Qed.

(** Whatever relation the transaction keeps, [main] of [index.js]
    keeps. *)
Lemma cli_main_keeps (Q : db -> db -> Prop) (payload : json) :
  (forall d, Q d d) -> (forall a b c, Q a b -> Q b c -> Q a c) ->
  (forall id, preserves Q (Cli.transaction payload id)) ->
  forall w, Q (store w) (store (snd (Cli.main payload w))).
Proof.
  intros Hrefl Htrans Htx w. unfold Cli.main.
  destruct ((round_trip ;;; fresh_uuidv4) w) as [[id | e] w1] eqn:E0;
    apply connect_store in E0; cbn [snd].
  2: { rewrite E0. apply Hrefl. }
  destruct (Cli.transaction payload id (set_rep (initial_report id) w1))
    as [[a | e] w3] eqn:E1; cbn [snd].
  - apply (preserves_run (Htx id)) in E1. cbn in E1. now rewrite E0 in E1.
  - destruct (insert_error_row_refused id e
                (set_store (store (set_rep (initial_report id) w1)) w3))
      as (e' & w5 & E2 & Hs & _).
    rewrite E2. cbn [snd]. rewrite Hs. cbn. rewrite E0. apply Hrefl.
Qed.

(** The same for [main] of [index.http.js]. *)
Lemma http_main_keeps (Q : db -> db -> Prop) (payload : json) :
  (forall d, Q d d) -> (forall a b c, Q a b -> Q b c -> Q a c) ->
  (forall id, preserves Q (Http.attempt_run payload id)) ->
  (forall id msg, preserves Q (sql_insert "ingestions" (error_row id msg))) ->
  forall w, Q (store w) (store (snd (Http.main payload w))).
Proof.
  intros Hrefl Htrans Htx Herr w. unfold Http.main.
  assert (Hrun : Q (store w)
    (store (snd
       match Http.attempt_run payload (uuidv4 (js_draws w))
               (set_rep (initial_report (uuidv4 (js_draws w))) (drawn w)) with
       | (Ok azienda_id, w3) => (Http.Exit0 azienda_id (rep w3), w3)
       | (Throw msg, w3) =>
           (Http.Exit1 msg,
            snd (Http.insert "ingestions"
                   (error_row (uuidv4 (js_draws w)) msg) w3))
       end))).
  { destruct (Http.attempt_run _ _ _) as [[a | e] w3] eqn:E1; cbn [snd];
      apply (preserves_run (Htx _)) in E1; cbn in E1.
    - exact E1.
    - eapply Htrans; [exact E1 |]. apply (Herr _ e w3). }
  destruct payload; try exact Hrun. apply Hrefl.
Qed.

End MainRuns.

(** C10.  Every row of [ingestions] that a run of either program leaves in
    the store, and that was not there before the run, has status
    [UPDATED], [UNCHANGED] or [ERROR]: the initial [PARTIAL] and the
    reserved [OUTDATED] are never written. *)
Theorem recorded_status_is_terminal :
  forall (P : Platform) (payload : json) (w : world) (r : row),
    (In r (rows_of (snd (Cli.main payload w)) "ingestions") ->
     In r (rows_of w "ingestions") \/ terminal_row r)
    /\ (In r (rows_of (snd (Http.main payload w)) "ingestions") ->
        In r (rows_of w "ingestions") \/ terminal_row r).
Proof.
  intros P payload w r. split.
  - exact (cli_main_keeps runs_grow payload runs_grow_refl runs_grow_trans
             (cli_transaction_runs payload) w r).
  - exact (http_main_keeps runs_grow payload runs_grow_refl runs_grow_trans
             (http_attempt_runs payload) error_row_preserves w r).
Qed.

(** ** The raw section *)

Section RawSection.
Context {P : Platform}.

Lemma sql_insert_appends (t : string) (r : row) (w w' : world) (u : unit) :
  sql_insert t r w = (Ok u, w') ->
  exists r',
    match default_id t with
    | Some c => exists v, r' = (c, JStr v) :: r
    | None => r' = r
    end
    /\ tables (store w') t = tables (store w) t ++ [r'].
Proof.
  unfold sql_insert, bind, round_trip, with_default_id, get_store.
  destruct (faults w) as [| [msg |] rest]; try discriminate;
    destruct (default_id t) as [c |]; cbn;
    destruct (violates _ _ _ _); cbn; intros E; inversion E; subst; cbn;
    rewrite String.eqb_refl; eauto.
Qed.

Lemma cli_raw_section (payload : json) (id a : string) (w w' : world) :
  Cli.transaction payload id w = (Ok a, w') ->
  exists raw,
    rows_of w' "raw_sections" = rows_of w "raw_sections" ++ [raw]
    /\ col raw "section" = JStr "root" /\ col raw "raw_json" = payload.
Proof.
  intros H. unfold Cli.transaction in H.
  bind_inv H. bind_inv H. bind_inv H. bind_inv H. bind_inv H.
  assert (F0 : same_table "raw_sections" (store w) (store w0)).
  { refine (preserves_run _ Hm). frame same_table_side fail. }
  assert (F1 : same_table "raw_sections" (store w0) (store w1)).
  { refine (preserves_run _ Hm0). open_cli. frame same_table_side fail. }
  assert (F2 : same_table "raw_sections" (store w1) (store w2)).
  { refine (preserves_run _ Hm1). frame same_table_side fail. }
  assert (F3 : same_table "raw_sections" (store w2) (store w3)).
  { refine (preserves_run _ Hm2). open_cli. frame same_table_side fail. }
  assert (F5 : same_table "raw_sections" (store w4) (store w')).
  { refine (preserves_run _ H). open_cli. frame same_table_side fail. }
  unfold Cli.insertRawSection in Hm3.
  apply sql_insert_appends in Hm3. destruct Hm3 as (raw & Hraw & Happ).
  cbn in Hraw. destruct Hraw as (v & ->).
  exists (("raw_id", JStr v)
          :: [("azienda_id", JStr a1); ("section", JStr "root");
              ("effective_date", JStr a2); ("raw_json", payload)]).
  unfold same_table in *. unfold rows_of.
  rewrite F5, Happ, F3, F2, F1, F0. repeat split.
Qed.

Lemma http_raw_section (payload : json) (id a : string) (w w' : world) :
  Http.attempt_run payload id w = (Ok a, w') ->
  exists raw,
    rows_of w' "raw_sections" = rows_of w "raw_sections" ++ [raw]
    /\ col raw "section" = JStr "root" /\ col raw "raw_json" = payload.
Proof.
  intros H. unfold Http.attempt_run in H.
  bind_inv H. bind_inv H. bind_inv H. bind_inv H.
  assert (F1 : same_table "raw_sections" (store w) (store w0)).
  { refine (preserves_run _ Hm). open_http. frame same_table_side fail. }
  assert (F2 : same_table "raw_sections" (store w0) (store w1)).
  { refine (preserves_run _ Hm0). frame same_table_side fail. }
  assert (F3 : same_table "raw_sections" (store w1) (store w2)).
  { refine (preserves_run _ Hm1). open_http. frame same_table_side fail. }
  assert (F5 : same_table "raw_sections" (store w3) (store w')).
  { refine (preserves_run _ H). open_http. frame same_table_side fail. }
  unfold Http.insertRawSection, Http.insert in Hm2.
  apply sql_insert_appends in Hm2. destruct Hm2 as (raw & Hraw & Happ).
  cbn in Hraw. destruct Hraw as (v & ->).
  exists (("raw_id", JStr v)
          :: [("azienda_id", JStr a0); ("section", JStr "root");
              ("effective_date", JStr a1); ("raw_json", payload)]).
  unfold same_table in *. unfold rows_of.
  rewrite F5, Happ, F3, F2, F1. repeat split.
Qed.

End RawSection.

(** C7.  A run that succeeds adds exactly one row to [raw_sections]: its
    section name is ["root"] and its payload is the document that was
    ingested, whatever the extractors found in it. *)
Theorem raw_section_written_once :
  forall (P : Platform) (payload : json) (w w' : world) (id : string)
         (r : report),
    (Cli.main payload w = (Cli.Exit0 id r, w') ->
     exists raw,
       rows_of w' "raw_sections" = rows_of w "raw_sections" ++ [raw]
       /\ col raw "section" = JStr "root" /\ col raw "raw_json" = payload)
    /\ (Http.main payload w = (Http.Exit0 id r, w') ->
        exists raw,
          rows_of w' "raw_sections" = rows_of w "raw_sections" ++ [raw]
          /\ col raw "section" = JStr "root" /\ col raw "raw_json" = payload).
Proof.
  intros P payload w w' id r. split; intros H.
  - unfold Cli.main in H.
    destruct ((round_trip ;;; fresh_uuidv4) w) as [[i | e] w1] eqn:E0;
      [| discriminate].
    apply connect_store in E0.
    destruct (Cli.transaction payload i _) as [[a | e] w3] eqn:E1.
    + inversion H; subst. apply cli_raw_section in E1.
      unfold rows_of in *. cbn in E1. now rewrite E0 in E1.
    + destruct (Cli.insert_error_row _ _ _) as [[u | e'] w5]; discriminate.
  - unfold Http.main in H.
    assert (Hrun : Http.attempt_run payload (uuidv4 (js_draws w))
                     (set_rep (initial_report (uuidv4 (js_draws w)))
                        (drawn w)) = (Ok id, w')).
    { destruct payload; try discriminate; cbn in H;
        match type of H with
        | match ?m with _ => _ end = _ =>
            destruct m as [[a | e] w3] eqn:E1; inversion H; subst;
            exact E1
        end. }
    apply http_raw_section in Hrun. exact Hrun.
Qed.

Lemma raw_section_witness :
  exists raw,
    rows_of (snd (@Cli.main Demo.platform Samples.with_floor
                    (Demo.world_on empty_db))) "raw_sections"
    = rows_of (Demo.world_on empty_db) "raw_sections" ++ [raw]
    /\ col raw "section" = JStr "root"
    /\ col raw "raw_json" = Samples.with_floor.
Proof.
  refine (proj1 (raw_section_written_once Demo.platform Samples.with_floor
                   (Demo.world_on empty_db) _ "v5(IT12345678901)"
                   (rep (snd (@Cli.main Demo.platform Samples.with_floor
                                (Demo.world_on empty_db))))) _).
  vm_compute. reflexivity.
Defined.

(** ** The status of a run *)

(** A relation kept along a run follows from the steps the run went
    through. *)
Ltac chain_frames step :=
  repeat match goal with
         | E : _ ?x = (Ok _, ?y) |- same_table _ (store ?x) (store ?y) =>
             refine (preserves_run _ E); step
         | E : _ ?x = (Ok _, ?y) |- same_table _ (store ?x) _ =>
             apply same_table_trans with (b := store y)
         end.

Section RunStatus.
Context {P : Platform}.

Lemma lift_ok {A} (r : result A) (w w' : world) (a : A) :
  lift r w = (Ok a, w') -> r = Ok a /\ w' = w.
Proof. unfold lift. intros E. now inversion E. Qed.

Lemma round_trip_ok (w w' : world) (u : unit) :
  round_trip w = (Ok u, w') -> store w' = store w /\ rep w' = rep w.
Proof.
  unfold round_trip. destruct (faults w) as [| [msg |] rest]; intros E;
    inversion E; now subst.
Qed.

Lemma sql_insert_ok (t : string) (r : row) (w w' : world) (u : unit) :
  sql_insert t r w = (Ok u, w') ->
  rep w' = rep w
  /\ exists r',
       match default_id t with
       | Some c => exists v, r' = (c, JStr v) :: r
       | None => r' = r
       end
       /\ tables (store w') t = tables (store w) t ++ [r'].
Proof.
  intros E. split; [| eapply sql_insert_appends; exact E]. revert E.
  unfold sql_insert, bind, round_trip, with_default_id, get_store.
  destruct (faults w) as [| [msg |] rest]; try discriminate;
    destruct (default_id t) as [c |]; cbn;
    destruct (violates _ _ _ _); cbn; intros E; inversion E; reflexivity.
Qed.

(** The last steps of both [try] blocks: the status is set, and the row
    of the run is written with the report as it then is. *)
Lemma record_run_ok (st : run_status) (id a : string) (k : M string)
  (w w' : world) (b : string) :
  (forall w1 w2 x, k w1 = (Ok x, w2) ->
                   store w2 = store w1 /\ rep w2 = rep w1) ->
  (set_status st ;;;
   r <- get_rep ;;
   sql_insert "ingestions" (run_row id a r) ;;; k) w = (Ok b, w') ->
  status (rep w') = st
  /\ rows_of w' "ingestions"
     = rows_of w "ingestions" ++ [run_row id a (rep w')]
  /\ exists wk, k wk = (Ok b, w').
Proof.
  intros Hk H. bind_inv H. bind_inv H. bind_inv H.
  unfold set_status in Hm. inversion Hm; subst; clear Hm.
  unfold get_rep in Hm0. inversion Hm0; subst; clear Hm0.
  apply sql_insert_ok in Hm1. destruct Hm1 as (Hrep & r' & Hr' & Happ).
  cbn in Hr'. subst r'.
  pose proof (Hk _ _ _ H) as [Hs Hr]. unfold rows_of.
  rewrite Hs, Hr, Happ, Hrep. repeat split. now exists w2.
Qed.

Lemma cli_status (payload : json) (id a : string) (w w' : world) :
  Cli.transaction payload id w = (Ok a, w') ->
  exists contacts addresses,
    Cli.extractContacts payload = Ok contacts
    /\ Cli.extractAddresses payload = Ok addresses
    /\ status (rep w') = status_for (cli_facets payload contacts addresses)
    /\ rows_of w' "ingestions"
       = rows_of w "ingestions" ++ [run_row id a (rep w')].
Proof.
  intros H. unfold Cli.transaction in H.
  do 10 (bind_inv H).
  repeat match goal with
         | E : lift _ _ = (Ok _, _) |- _ =>
             apply lift_ok in E; destruct E as [? ->]
         end.
  match goal with
  | Hc : Cli.extractContacts payload = Ok ?c,
    Ha : Cli.extractAddresses payload = Ok ?l |- _ =>
      exists c, l; split; [exact Hc | split; [exact Ha |]]
  end.
  apply record_run_ok in H.
  - destruct H as (Hst & Hrows & wk & Hk). split; [exact Hst |].
    bind_inv Hk. inversion Hk; subst.
    rewrite Hrows. f_equal. unfold rows_of.
    change (same_table "ingestions" (store w) (store w9)).
    chain_frames ltac:(open_cli; frame same_table_side fail).
  - intros wa wb x E. apply bind_ok in E. destruct E as (u & wm & Ert & E).
    apply round_trip_ok in Ert. inversion E; subst. exact Ert.
Qed.

Lemma http_status (payload : json) (id a : string) (w w' : world) :
  Http.attempt_run payload id w = (Ok a, w') ->
  exists addresses entries,
    Http.extractAddresses payload = Ok addresses
    /\ Http.extractBalanceEntries payload = Ok entries
    /\ status (rep w') = status_for (http_facets payload addresses entries)
    /\ rows_of w' "ingestions"
       = rows_of w "ingestions" ++ [run_row id a (rep w')].
Proof.
  intros H. unfold Http.attempt_run in H.
  do 10 (cbv zeta in H; bind_inv H).
  repeat match goal with
         | E : lift _ _ = (Ok _, _) |- _ =>
             apply lift_ok in E; destruct E as [? ->]
         end.
  match goal with
  | Ha : Http.extractAddresses payload = Ok ?l,
    Hb : Http.extractBalanceEntries payload = Ok ?es |- _ =>
      exists l, es; split; [exact Ha | split; [exact Hb |]]
  end.
  cbv zeta in H. apply record_run_ok in H.
  - destruct H as (Hst & Hrows & wk & Hk). split; [exact Hst |].
    inversion Hk; subst.
    rewrite Hrows. f_equal. unfold rows_of.
    change (same_table "ingestions" (store w) (store w9)).
    chain_frames ltac:(open_http; frame same_table_side fail).
  - intros wa wb x E. inversion E; subst. now split.
Qed.

End RunStatus.

(** C3, as amended.  The status of a run that reaches the end of its [try]
    block is decided by what the extractors returned, and by nothing else:
    [UPDATED] when the contacts, addresses, classification codes and
    financial line items extracted from the payload number at least one,
    [UNCHANGED] otherwise.  That status is the one written in the row of
    the run. *)
Theorem status_follows_extracted_facets :
  forall (P : Platform) (payload : json) (w w' : world) (id : string)
         (r : report),
    (Cli.main payload w = (Cli.Exit0 id r, w') ->
     exists contacts addresses ingestion_id,
       Cli.extractContacts payload = Ok contacts
       /\ Cli.extractAddresses payload = Ok addresses
       /\ status r = status_for (cli_facets payload contacts addresses)
       /\ rows_of w' "ingestions"
          = rows_of w "ingestions" ++ [run_row ingestion_id id r])
    /\ (Http.main payload w = (Http.Exit0 id r, w') ->
        exists addresses entries ingestion_id,
          Http.extractAddresses payload = Ok addresses
          /\ Http.extractBalanceEntries payload = Ok entries
          /\ status r = status_for (http_facets payload addresses entries)
          /\ rows_of w' "ingestions"
             = rows_of w "ingestions" ++ [run_row ingestion_id id r]).
Proof.
  intros P payload w w' id r. split; intros H.
  - unfold Cli.main in H.
    destruct ((round_trip ;;; fresh_uuidv4) w) as [[i | e] w1] eqn:E0;
      [| discriminate].
    apply connect_store in E0.
    destruct (Cli.transaction payload i _) as [[a | e] w3] eqn:E1.
    + inversion H; subst. apply cli_status in E1.
      destruct E1 as (c & l & Hc & Hl & Hst & Hrows).
      exists c, l, i. repeat split; try assumption.
      unfold rows_of in *. cbn in Hrows. now rewrite E0 in Hrows.
    + destruct (Cli.insert_error_row _ _ _) as [[u | e'] w5]; discriminate.
  - unfold Http.main in H.
    assert (Hrun : Http.attempt_run payload (uuidv4 (js_draws w))
                     (set_rep (initial_report (uuidv4 (js_draws w)))
                        (drawn w)) = (Ok id, w') /\ r = rep w').
    { destruct payload; try discriminate; cbn in H;
        match type of H with
        | match ?m with _ => _ end = _ =>
            destruct m as [[a | e] w3] eqn:E1; inversion H; subst;
            split; [exact E1 | reflexivity]
        end. }
    destruct Hrun as [Hrun ->]. apply http_status in Hrun.
    destruct Hrun as (l & es & Hl & Hes & Hst & Hrows).
    exists l, es, (uuidv4 (js_draws w)). repeat split; assumption.
Qed.

(** C3, as stated, fails: a document whose content is new for its entity,
    and whose version row is inserted by the run, ends [UNCHANGED] when no
    extractor finds anything in it. *)
Lemma new_version_ends_unchanged :
  ~ (forall (P : Platform) (payload : json) (w w' : world) (id : string)
            (r : report),
        Cli.main payload w = (Cli.Exit0 id r, w') ->
        versions_of w id (object_hash payload) = [] ->
        versions_of w' id (object_hash payload) <> [] ->
        status r = UPDATED).
Proof.
  intros claim.
  pose (run := @Cli.main Demo.platform Samples.bare_company
                 (Demo.world_on empty_db)).
  specialize (claim Demo.platform Samples.bare_company
                (Demo.world_on empty_db) (snd run) "v5(IT12345678901)"
                (rep (snd run))).
  assert (E : status (rep (snd run)) = UNCHANGED) by (vm_compute; reflexivity).
  rewrite claim in E; [discriminate | | |].
  - vm_compute. reflexivity.
  - vm_compute. reflexivity.
  - vm_compute. discriminate.
Qed.

Lemma status_follows_extracted_facets_witness :
  exists contacts addresses ingestion_id,
    Cli.extractContacts Samples.with_floor = Ok contacts
    /\ Cli.extractAddresses Samples.with_floor = Ok addresses
    /\ UPDATED
       = status_for (cli_facets Samples.with_floor contacts addresses)
    /\ rows_of (snd (@Cli.main Demo.platform Samples.with_floor
                       (Demo.world_on empty_db))) "ingestions"
       = rows_of (Demo.world_on empty_db) "ingestions"
         ++ [@run_row Demo.platform ingestion_id "v5(IT12345678901)"
               (rep (snd (@Cli.main Demo.platform Samples.with_floor
                            (Demo.world_on empty_db))))].
Proof.
  refine (proj1 (status_follows_extracted_facets Demo.platform
                   Samples.with_floor (Demo.world_on empty_db)
                   (snd (@Cli.main Demo.platform Samples.with_floor
                           (Demo.world_on empty_db)))
                   "v5(IT12345678901)"
                   (rep (snd (@Cli.main Demo.platform Samples.with_floor
                                (Demo.world_on empty_db))))) _).
  vm_compute. reflexivity.
Defined.


(** ** The tiers of the financial extractor *)

Lemma jor_truthy (a b : jsval) : truthyv b = true -> truthyv (jor a b) = true.
Proof. intros Hb. unfold jor. now destruct (truthyv a) eqn:Ha. Qed.

Lemma defaultYear_truthy (payload : json) :
  truthy (Http.defaultYear payload) = true.
Proof.
  unfold Http.defaultYear.
  pose proof (jor_truthy
                (jor (optfield (Some payload) "year")
                     (optfield (Some payload) "fiscalYear"))
                (Some (JNum 2024)) eq_refl) as H.
  destruct (jor _ (Some (JNum 2024))); [exact H | discriminate].
Qed.

Lemma item_entries_have_keys (year : json) mapping (item : json)
  (es : list entry) :
  truthy year = true ->
  Http.item_entries year mapping item = Ok es ->
  Forall (fun e => has_keys e = true) es.
Proof.
  intros Hy. unfold Http.item_entries. destruct mapping as [[sec st] desc].
  destruct (dot (Some item) "code") as [[c |] | e]; cbn [rbind];
    try (intros E; inversion E; constructor).
  destruct (truthy c && _) eqn:Hc; intros E; inversion E; subst;
    constructor; [| constructor].
  unfold has_keys. cbn. rewrite Hy.
  now apply andb_true_iff in Hc.
Qed.

Lemma push_items_have_keys (year : json) mapping (items : list json) :
  truthy year = true ->
  forall acc es,
    Forall (fun e => has_keys e = true) acc ->
    Http.push_items year mapping items acc = Ok es ->
    Forall (fun e => has_keys e = true) es.
Proof.
  intros Hy. induction items as [| item items IH]; intros acc es Hacc;
    cbn [Http.push_items].
  - intros E. now inversion E; subst.
  - destruct (Http.item_entries year mapping item) as [pushed | e] eqn:Ei;
      cbn [rbind]; [| discriminate].
    apply IH. apply Forall_app. split; [exact Hacc |].
    eapply item_entries_have_keys; eassumption.
Qed.

Lemma push_sections_have_keys (year : json) (data : jsval) mappings :
  truthy year = true ->
  forall acc es,
    Forall (fun e => has_keys e = true) acc ->
    Http.push_sections year data mappings acc = Ok es ->
    Forall (fun e => has_keys e = true) es.
Proof.
  intros Hy. induction mappings as [| m ms IH]; intros acc es Hacc;
    cbn [Http.push_sections].
  - intros E. now inversion E; subst.
  - destruct (optfield data (fst (fst m))) as [[| | | | items |] |];
      cbn [rbind]; try (apply IH; exact Hacc).
    destruct (Http.push_items year m items acc) as [after | e] eqn:Ep;
      cbn [rbind]; [| discriminate].
    apply IH. eapply push_items_have_keys; eassumption.
Qed.

Lemma year_here_positive (s : string) (y : Z) :
  year_here s = Some y -> (2000 <= y)%Z.
Proof.
  unfold year_here.
  destruct s as [| a [| b [| d1 [| d2 rest]]]]; try discriminate.
  destruct (_ && _); [| discriminate].
  intros E.
  assert (Hy : (2000 + 10 * digit_value d1 + digit_value d2)%Z = y)
    by congruence.
  assert (H1 : (0 <= digit_value d1)%Z) by apply Nat2Z.is_nonneg.
  assert (H2 : (0 <= digit_value d2)%Z) by apply Nat2Z.is_nonneg.
  lia.
Qed.

Lemma match_year_positive (s : string) (y : Z) :
  match_year s = Some y -> (2000 <= y)%Z.
Proof.
  induction s as [| c rest IH]; cbn [match_year]; [discriminate |].
  destruct (year_here (String c rest)) as [y' |] eqn:E.
  - intros H. inversion H; subst. eapply year_here_positive, E.
  - exact IH.
Qed.

Lemma CODE_RE_nonempty (k : string) : CODE_RE k = true -> k <> EmptyString.
Proof. intros H ->. discriminate H. Qed.

Lemma code_entries_have_keys (year : json) (np : json * list string) :
  truthy year = true ->
  Forall (fun e => has_keys e = true) (Http.code_entries year np).
Proof.
  intros Hy. unfold Http.code_entries. destruct np as [node path].
  apply Forall_forall. intros e He. apply in_flat_map in He.
  destruct He as ([k v] & _ & He).
  destruct (CODE_RE k && _) eqn:Hk; [| contradiction].
  destruct He as [<- | []]. unfold has_keys. cbn.
  apply andb_true_iff in Hk. destruct Hk as [Hk _].
  apply CODE_RE_nonempty in Hk.
  assert (Hcode : negb (String.eqb k EmptyString) = true).
  { destruct (String.eqb_spec k EmptyString); [contradiction | reflexivity]. }
  rewrite Hcode, andb_true_r.
  destruct (match_year (join_dot path)) as [y |] eqn:Em; [| exact Hy].
  apply match_year_positive in Em. cbn.
  destruct (Z.eqb_spec y 0); [lia | reflexivity].
Qed.

Lemma filter_all {A} (f : A -> bool) (l : list A) :
  Forall (fun x => f x = true) l -> filter f l = l.
Proof.
  induction 1 as [| x l Hx _ IH]; cbn; [reflexivity |].
  now rewrite Hx, IH.
Qed.

Lemma length_zero {A} (l : list A) : (List.length l =? 0)%nat = true -> l = [].
Proof. destruct l; [reflexivity | discriminate]. Qed.

Lemma length_nonzero {A} (l : list A) :
  (List.length l =? 0)%nat = false -> l <> [].
Proof. destruct l; [discriminate | intros _; discriminate]. Qed.

(** C4, as amended.  In [index.http.js] the rows returned are those of
    the first tier that pushes any: the statement sections, else the
    legacy sections, else the scan for coded keys.  [index.js] has no
    fallback: it returns the rows of the aggregate sections and those of
    the detail groups together, each provided it has a year. *)
Theorem first_tier_with_rows_wins :
  forall (payload : json) (entries : list entry),
    (Http.extractBalanceEntries payload = Ok entries ->
     exists t1,
       http_tier1 payload = Ok t1
       /\ ((t1 <> [] /\ entries = t1)
           \/ (t1 = []
               /\ exists t2,
                    http_tier2 payload = Ok t2
                    /\ ((t2 <> [] /\ entries = t2)
                        \/ (t2 = [] /\ entries = http_tier3 payload)))))
    /\ (forall e,
          In e (Cli.extractBalanceEntries payload) <->
          (In e (Cli.aggregate_entries payload)
           \/ In e (Cli.detail_entries payload))
          /\ truthyv (e_year e) = true).
Proof.
  intros payload entries. split.
  - unfold Http.extractBalanceEntries. cbv zeta.
    fold (http_tier1 payload). fold (http_tier2 payload).
    fold (http_tier3 payload). fold has_keys.
    pose proof (defaultYear_truthy payload) as Hy.
    destruct (http_tier1 payload) as [t1 | e] eqn:E1;
      [| intros H; cbv [rbind] in H; discriminate H].
    cbn [rbind]. intros H. exists t1. split; [reflexivity |].
    assert (K1 : Forall (fun e => has_keys e = true) t1).
    { eapply push_sections_have_keys; [exact Hy | constructor | exact E1]. }
    destruct (List.length t1 =? 0)%nat eqn:L1.
    + apply length_zero in L1. subst t1. right. split; [reflexivity |].
      fold (http_tier2 payload) in H.
      destruct (http_tier2 payload) as [t2 | e] eqn:E2; cbn [rbind] in H;
        [| discriminate].
      exists t2. split; [reflexivity |].
      assert (K2 : Forall (fun e => has_keys e = true) t2).
      { eapply push_sections_have_keys; [exact Hy | constructor | exact E2]. }
      destruct (List.length t2 =? 0)%nat eqn:L2; inversion H; subst.
      * apply length_zero in L2. subst t2. right. split; [reflexivity |].
        cbn [app]. apply filter_all. unfold http_tier3.
        apply Forall_forall. intros e He. apply in_flat_map in He.
        destruct He as (np & _ & He).
        pose proof (code_entries_have_keys _ np Hy) as F.
        rewrite Forall_forall in F. exact (F e He).
      * left. split; [now apply length_nonzero |]. now apply filter_all.
    + cbn [rbind] in H. rewrite L1 in H. inversion H; subst. left.
      split; [now apply length_nonzero |]. now apply filter_all.
  - intros e. unfold Cli.extractBalanceEntries.
    rewrite filter_In, in_app_iff. reflexivity.
Qed.

(** C4, as stated, fails on [index.js]: the rows of a detail group are
    returned although the aggregate sections yield rows. *)
Lemma cli_tiers_are_added :
  ~ (forall (payload : json),
        Cli.aggregate_entries payload <> [] ->
        forall e, In e (Cli.extractBalanceEntries payload) ->
                  In e (Cli.aggregate_entries payload)).
Proof.
  intros claim.
  assert (H1 : Cli.aggregate_entries Samples.both_vocabularies <> [])
    by (vm_compute; discriminate).
  specialize (claim Samples.both_vocabularies H1
                (mkEntry (Some (JNum 2023)) "SP_P" (JStr "D7") undefined
                   (Amt (Some (JNum 120))) (JStr "EUR") "balance.debts")).
  assert (H2 : In (mkEntry (Some (JNum 2023)) "SP_P" (JStr "D7") undefined
                     (Amt (Some (JNum 120))) (JStr "EUR") "balance.debts")
                  (Cli.extractBalanceEntries Samples.both_vocabularies))
    by (vm_compute; auto).
  apply claim in H2. vm_compute in H2.
  destruct H2 as [H2 | []]. discriminate H2.
Qed.

Lemma first_tier_with_rows_wins_witness :
  exists t1,
    http_tier1 Samples.coded_keys = Ok t1
    /\ ((t1 <> []
         /\ Samples.rows_or_none
              (Http.extractBalanceEntries Samples.coded_keys) = t1)
        \/ (t1 = []
            /\ exists t2,
                 http_tier2 Samples.coded_keys = Ok t2
                 /\ ((t2 <> []
                      /\ Samples.rows_or_none
                           (Http.extractBalanceEntries Samples.coded_keys)
                         = t2)
                     \/ (t2 = []
                         /\ Samples.rows_or_none
                              (Http.extractBalanceEntries Samples.coded_keys)
                            = http_tier3 Samples.coded_keys)))).
Proof.
  apply (proj1 (first_tier_with_rows_wins Samples.coded_keys
                  (Samples.rows_or_none
                     (Http.extractBalanceEntries Samples.coded_keys)))).
  vm_compute. reflexivity.
Defined.

(** ** Versions *)

Section Versions.
Context {P : Platform}.

(** In [index.http.js] a version is recorded by a plain [insert]: whatever
    the constraints of the table, a call that returns has added a row.
    Recording again a version that is stored is never a no-op that
    succeeds. *)
Lemma http_version_insert_adds_a_row (azienda_id : string) (raw_json : json)
  (effective_date : string) (w w' : world) (h : string) :
  Http.insertCompanyVersion azienda_id raw_json effective_date w = (Ok h, w') ->
  List.length (rows_of w' "company_versions")
  = S (List.length (rows_of w "company_versions")).
Proof.
  unfold Http.insertCompanyVersion, Http.insert. intros H. bind_inv H.
  apply sql_insert_ok in Hm. destruct Hm as (_ & r' & _ & Happ).
  inversion H; subst. unfold rows_of. rewrite Happ, length_app. cbn. lia.
Qed.

(** In [index.js] the row is skipped exactly when it collides with a
    stored row on a constraint of the table. *)
Lemma cli_version_insert_adds_a_row (azienda_id : string) (raw_json : json)
  (effective_date : string) (w : world) :
  faults w = [] ->
  violates (store w) "company_versions"
    (("version_id", JStr (gen_random_uuid (pg_draws w)))
     :: Cli.version_row azienda_id raw_json effective_date)
    (rows_of w "company_versions") = false ->
  rows_of (snd (Cli.insertCompanyVersion azienda_id raw_json effective_date w))
    "company_versions"
  = rows_of w "company_versions"
    ++ [("version_id", JStr (gen_random_uuid (pg_draws w)))
        :: Cli.version_row azienda_id raw_json effective_date].
Proof.
  intros Hf Hv. unfold Cli.insertCompanyVersion, sql_insert_do_nothing, bind,
    round_trip, with_default_id, get_store, rows_of in *.
  rewrite Hf. cbn. rewrite Hv. reflexivity.
Qed.

End Versions.

(** C1 at its failing input.  The same document ingested twice, from the
    empty store with the constraints the schema lists: each program
    leaves two rows of [company_versions] for the one entity and the one
    content hash. *)
Theorem reingestion_duplicates_the_version :
  List.length
    (versions_of (Samples.cli_twice Samples.bare_company) "v5(IT12345678901)"
       (@object_hash Demo.platform Samples.bare_company)) = 2%nat
  /\ List.length
       (versions_of (Samples.http_twice Samples.bare_company)
          "v5(IT12345678901)"
          (@object_hash Demo.platform Samples.bare_company)) = 2%nat.
Proof. split; vm_compute; reflexivity. Qed.

(** ** Column promotion *)

Section Columns.
Context {P : Platform}.

Lemma column_exists_ok (t c : string) (w w' : world) (b : bool) :
  column_exists t c w = (Ok b, w') ->
  store w' = store w /\ b = mem c (columns (store w) t).
Proof.
  unfold column_exists, bind, round_trip, get_store, ret.
  destruct (faults w) as [| [m |] rest]; intros E; inversion E; now subst.
Qed.

Lemma alter_add_column_ok (t c : string) (w w' : world) (u : unit) :
  alter_add_column t c w = (Ok u, w') ->
  mem c (columns (store w) t) = false
  /\ store w' = add_column t c (store w).
Proof.
  unfold alter_add_column, bind, round_trip, get_store, put_store, throw.
  destruct (faults w) as [| [m |] rest]; try discriminate; cbn;
    destruct (mem c (columns (store w) t)); try discriminate;
    intros E; inversion E; now subst.
Qed.

Lemma mem_added (c : string) (l : list string) : mem c (l ++ [c]) = true.
Proof.
  unfold mem. rewrite existsb_app. cbn.
  now rewrite String.eqb_refl, orb_true_r.
Qed.

Lemma cli_ensureColumn_ok (t c : string) (v : json) (w w' : world)
  (r : column_result) :
  Cli.ensureColumn t c v w = (Ok r, w') ->
  mem (toSnakeCase c) (columns (store w') t) = true
  /\ (if created r
      then mem (toSnakeCase c) (columns (store w) t) = false
           /\ store w' = add_column t (toSnakeCase c) (store w)
      else store w' = store w).
Proof.
  unfold Cli.ensureColumn. cbv zeta. intros H. bind_inv H.
  apply column_exists_ok in Hm. destruct Hm as [Hs ->].
  destruct (mem (toSnakeCase c) (columns (store w) t)) eqn:Hc;
    cbn [negb] in H.
  - inversion H; subst. cbn. now rewrite Hs, Hc.
  - bind_inv H. apply alter_add_column_ok in Hm. destruct Hm as [_ Ha].
    inversion H; subst. cbn [created]. rewrite Ha, Hs.
    unfold add_column at 1. cbn [columns].
    rewrite String.eqb_refl, mem_added. auto.
Qed.

(** [ensureColumn] of [index.js]: after a call that returns, another call
    for the same field reports no creation and leaves the store as it is;
    and a call that reports a creation has added the column to a table
    that did not have it. *)
Lemma cli_ensureColumn_idempotent (t c : string) (v v' : json)
  (w w1 w2 : world) (r1 r2 : column_result) :
  Cli.ensureColumn t c v w = (Ok r1, w1) ->
  Cli.ensureColumn t c v' w1 = (Ok r2, w2) ->
  created r2 = false /\ store w2 = store w1
  /\ (created r1 = true ->
      mem (toSnakeCase c) (columns (store w) t) = false
      /\ columns (store w1) t = columns (store w) t ++ [toSnakeCase c]).
Proof.
  intros H1 H2. apply cli_ensureColumn_ok in H1, H2.
  destruct H1 as [Hin H1]. destruct H2 as [_ H2].
  destruct (created r2).
  - destruct H2 as [Hno _]. congruence.
  - split; [reflexivity | split; [exact H2 |]].
    intros Hc. rewrite Hc in H1. destruct H1 as [Hno ->].
    split; [exact Hno |]. cbn. now rewrite String.eqb_refl.
Qed.

(** [ensureColumn] of [index.http.js] reports a creation whenever it
    returns, whether the column existed or not. *)
Lemma http_ensureColumn_always_created (t c : string) (v : json)
  (w w' : world) (r : column_result) :
  Http.ensureColumn t c v w = (Ok r, w') -> created r = true.
Proof.
  unfold Http.ensureColumn. intros H. bind_inv H. now inversion H.
Qed.

End Columns.

(** C6 at its failing input.  A document with a new scalar field
    ([floor], in an address) ingested twice by [index.http.js]: the column
    is added by the first run, and the second run reports its creation
    again in [createdColumns]. *)
Theorem second_run_reports_the_column_again :
  let first := @Http.main Demo.platform Samples.with_floor
                 (Demo.world_on empty_db) in
  let second := @Http.main Demo.platform Samples.with_floor (snd first) in
  mem "floor" (columns (store (Demo.world_on empty_db)) "addresses") = false
  /\ mem "floor" (columns (store (snd first)) "addresses") = true
  /\ columns (store (snd second)) "addresses"
     = columns (store (snd first)) "addresses"
  /\ option_map (fun r => map (fun tc => (fst tc, created (snd tc),
                                          column (snd tc)))
                              (createdColumns r))
       (Samples.http_report (fst second))
     = Some [("addresses", true, "floor"); ("addresses", true, "floor")].
Proof. vm_compute. repeat split. Qed.

(** ** Line items without a year *)

(** [index.js] returns no candidate without a year: the test on
    [row.year] in [upsertBalanceEntries] never fires on what
    [extractBalanceEntries] hands over. *)
Lemma cli_extracted_rows_have_a_year (payload : json) (e : entry) :
  In e (Cli.extractBalanceEntries payload) -> truthyv (e_year e) = true.
Proof.
  unfold Cli.extractBalanceEntries. rewrite filter_In. now intros [_ H].
Qed.

(** C9 at its failing input.  A financial statement without a fiscal year,
    ingested by [index.js]: the candidate line item is dropped by the
    filter that ends [extractBalanceEntries], no warning is reported, and
    the section is counted as skipped. *)
Theorem missing_year_is_dropped_without_warning :
  let run := @Cli.main Demo.platform Samples.no_year
               (Demo.world_on empty_db) in
  map (fun e => (e_code e, e_year e))
    (Cli.aggregate_entries Samples.no_year) = [(JStr "A1", undefined)]
  /\ Cli.extractBalanceEntries Samples.no_year = []
  /\ option_map warnings (Samples.cli_report (fst run)) = Some []
  /\ option_map skips (Samples.cli_report (fst run))
     = Some [("contacts", 1%nat); ("addresses", 1%nat);
             ("balance_entries", 1%nat)]
  /\ rows_of (snd run) "balance_entries" = [].
Proof. vm_compute. repeat split. Qed.

(** ** Upsert on a key *)

Lemma key_eqb_eq (a b : json) : key_eqb a b = true -> a = b.
Proof.
  destruct a, b; cbn; try discriminate; intros H.
  - now apply Bool.eqb_prop in H; subst.
  - now apply Z.eqb_eq in H; subst.
  - now apply String.eqb_eq in H; subst.
Qed.

Lemma key_eqb_sym (a b : json) : key_eqb a b = key_eqb b a.
Proof.
  destruct a, b; cbn; try reflexivity.
  - now destruct b, b0.
  - apply Z.eqb_sym.
  - apply String.eqb_sym.
Qed.

Lemma agree_sym (K : list string) (r1 r2 : row) :
  agree K r1 r2 = agree K r2 r1.
Proof.
  unfold agree. induction K as [| c K IH]; cbn; [reflexivity |].
  now rewrite IH, key_eqb_sym.
Qed.

Lemma agree_cols (K : list string) (r1 r2 : row) :
  agree K r1 r2 = true -> forall c, In c K -> col r1 c = col r2 c.
Proof.
  unfold agree. rewrite forallb_forall. intros H c Hc.
  apply key_eqb_eq. now apply H.
Qed.

(** Collision on [K] looks at the columns of [K] only. *)
Lemma agree_same_key (K : list string) (x o o' : row) :
  (forall c, In c K -> col o' c = col o c) ->
  agree K x o' = agree K x o.
Proof.
  intros H. unfold agree. induction K as [| c K' IH]; cbn; [reflexivity |].
  rewrite H by now left. f_equal. apply IH. intros k Hk. apply H. now right.
Qed.

Lemma agree_trans (K : list string) (a b c : row) :
  agree K a b = true -> agree K a c = true -> agree K b c = true.
Proof.
  intros Hab Hac. rewrite <- Hac. rewrite !(agree_sym K _ c).
  apply agree_same_key. intros k Hk. symmetry.
  eapply agree_cols; eassumption.
Qed.

Lemma col_set_prop (c c' : string) (v : json) (r : row) :
  col (set_prop c v r) c' = if String.eqb c' c then v else col r c'.
Proof.
  unfold col. induction r as [| [k x] r IH]; cbn.
  - now destruct (String.eqb c' c).
  - destruct (String.eqb c k) eqn:Eck; cbn.
    + apply String.eqb_eq in Eck. subst k.
      now destruct (String.eqb c' c).
    + destruct (String.eqb c' k) eqn:Ek.
      * apply String.eqb_eq in Ek. subst k.
        now rewrite String.eqb_sym, Eck.
      * exact IH.
Qed.

Lemma col_set_cols (sets : list (string * json)) (r : row) (c' : string) :
  col (set_cols sets r) c'
  = match assoc c' (rev sets) with
    | Some v => v
    | None => col r c'
    end.
Proof.
  unfold set_cols, set_props. revert r.
  induction sets as [| [c v] sets IH]; intros r; cbn [fold_left rev].
  - reflexivity.
  - rewrite IH. cbn [fst snd].
    assert (Hassoc : forall l : list (string * json),
               assoc c' (l ++ [(c, v)])
               = match assoc c' l with
                 | Some x => Some x
                 | None => if String.eqb c' c then Some v else None
                 end).
    { induction l as [| [k x] l IHl]; cbn; [reflexivity |].
      destruct (String.eqb c' k); [reflexivity | exact IHl]. }
    rewrite Hassoc. destruct (assoc c' (rev sets)); [reflexivity |].
    rewrite col_set_prop. now destruct (String.eqb c' c).
Qed.

Section KeyUnique.
Variable K : list string.

Lemma key_unique_map (f : row -> row) (rows : list row) :
  (forall o c, In c K -> col (f o) c = col o c) ->
  key_unique K rows -> key_unique K (map f rows).
Proof.
  intros Hf. unfold key_unique. induction 1 as [| a l Ha _ IH]; cbn.
  - constructor.
  - constructor; [| exact IH].
    rewrite Forall_map. eapply Forall_impl; [| exact Ha].
    intros b Hab. cbn.
    rewrite (agree_same_key K _ _ _ (Hf b)), agree_sym,
      (agree_same_key K _ _ _ (Hf a)), agree_sym.
    exact Hab.
Qed.

Lemma key_unique_app (rows : list row) (x : row) :
  key_unique K rows ->
  existsb (agree K x) rows = false ->
  key_unique K (rows ++ [x]).
Proof.
  unfold key_unique. induction 1 as [| a l Ha _ IH]; cbn; intros Hx.
  - repeat constructor.
  - apply orb_false_iff in Hx. destruct Hx as [Hxa Hxl].
    constructor; [| now apply IH].
    apply Forall_app. split; [exact Ha |].
    constructor; [| constructor]. now rewrite agree_sym.
Qed.

Lemma filter_none (p : row -> bool) (rows : list row) :
  existsb p rows = false -> filter p rows = [].
Proof.
  induction rows as [| a l IH]; cbn; [reflexivity |].
  intros H. apply orb_false_iff in H. destruct H as [-> Hl]. now apply IH.
Qed.

Lemma key_unique_one (x : row) (rows : list row) :
  key_unique K rows ->
  existsb (agree K x) rows = true ->
  exists o, filter (agree K x) rows = [o].
Proof.
  unfold key_unique. induction 1 as [| a l Ha _ IH]; cbn; [discriminate |].
  destruct (agree K x a) eqn:Hxa; cbn.
  - intros _. exists a. f_equal. apply filter_none.
    apply not_true_is_false. intros Hex. apply existsb_exists in Hex.
    destruct Hex as (b & Hb & Hxb).
    rewrite Forall_forall in Ha. specialize (Ha b Hb). cbn in Ha.
    now rewrite (agree_trans K _ _ _ Hxa Hxb) in Ha.
  - exact IH.
Qed.

End KeyUnique.

Lemma filter_map_same {A} (p : A -> bool) (f : A -> A) (l : list A) :
  (forall x, p (f x) = p x) -> filter p (map f l) = map f (filter p l).
Proof.
  intros H. induction l as [| a l IH]; cbn; [reflexivity |].
  rewrite H. destruct (p a); cbn; now rewrite IH.
Qed.

Section UpsertOnKey.
Context {P : Platform}.

Lemma with_default_id_ok (t : string) (r r' : row) (w w' : world) :
  with_default_id t r w = (Ok r', w') ->
  store w' = store w
  /\ match default_id t with
     | Some c => exists v, r' = (c, JStr v) :: r
     | None => r' = r
     end.
Proof.
  unfold with_default_id. destruct (default_id t); intros E; inversion E;
    subst; eauto.
Qed.

(** What [insert ... on conflict (K) do update] leaves in a table whose
    rows are pairwise distinct on [K], when the assignments leave the
    columns of [K] alone: the rows are still pairwise distinct on [K], and
    exactly one of them has the key of the row sent.  It is the row found
    under that key, updated, when there was one, and the table has not
    grown; otherwise it is the row sent, added at the end. *)
Lemma sql_upsert_on_key (t : string) (K : list string)
  (sets : row -> list (string * json)) (r : row) (w w' : world) (u : unit) :
  (forall c, In c K -> key_eqb (col r c) (col r c) = true) ->
  (forall o c, In c K -> agree K r o = true ->
               col (set_cols (sets o) o) c = col o c) ->
  match default_id t with Some c => ~ In c K | None => True end ->
  key_unique K (tables (store w) t) ->
  sql_upsert t K sets r w = (Ok u, w') ->
  key_unique K (tables (store w') t)
  /\ exists x,
       filter (agree K r) (tables (store w') t) = [x]
       /\ if existsb (agree K r) (tables (store w) t)
          then List.length (tables (store w') t)
               = List.length (tables (store w) t)
               /\ exists o, In o (tables (store w) t)
                            /\ agree K r o = true
                            /\ x = set_cols (sets o) o
          else tables (store w') t = tables (store w) t ++ [x]
               /\ match default_id t with
                  | Some c => exists v, x = (c, JStr v) :: r
                  | None => x = r
                  end.
Proof.
  intros Hnn Hsets Hdef Huniq H. unfold sql_upsert in H.
  bind_inv H. apply round_trip_ok in Hm. destruct Hm as [Hs0 _].
  bind_inv H. unfold get_store in Hm. inversion Hm; subst; clear Hm.
  rewrite Hs0 in *. set (rows := tables (store w) t) in *.
  destruct (arbiter (store w) t K); cbn [negb] in H; [| discriminate].
  destruct (existsb (agree K r) rows) eqn:Hex.
  - (* a row has the key: it is updated *)
    destruct (existsb _ rows) eqn:Hviol in H; [discriminate |].
    unfold put_store in H. inversion H; subst; clear H.
    cbn [store set_store tables set_table]. rewrite String.eqb_refl.
    set (update := fun o : row =>
                     if agree K r o then set_cols (sets o) o else o).
    assert (Hkeep : forall o c, In c K -> col (update o) c = col o c).
    { intros o c Hc. unfold update. destruct (agree K r o) eqn:Ho;
        [now apply Hsets | reflexivity]. }
    split; [now apply key_unique_map |].
    destruct (key_unique_one K r rows Huniq Hex) as (o & Ho).
    assert (Hin : In o (filter (agree K r) rows)) by (rewrite Ho; now left).
    apply filter_In in Hin. destruct Hin as [Hin Hagree].
    exists (set_cols (sets o) o). split.
    + rewrite filter_map_same.
      * rewrite Ho. cbn. unfold update. now rewrite Hagree.
      * intros x. apply agree_same_key. apply Hkeep.
    + split; [apply length_map | now exists o].
  - (* no row has the key: the row is added *)
    bind_inv H. apply with_default_id_ok in Hm. destruct Hm as [Hs1 Hr'].
    destruct (violates _ _ _ _) in H; [discriminate |].
    unfold put_store in H. inversion H; subst; clear H.
    cbn [store set_store tables set_table]. rewrite String.eqb_refl.
    fold rows.
    assert (Hkey : forall c, In c K -> col a0 c = col r c).
    { intros c Hc. destruct (default_id t) as [c0 |].
      - destruct Hr' as (v & ->). unfold col. cbn.
        destruct (String.eqb_spec c c0); [now subst | reflexivity].
      - now subst. }
    assert (Hself : agree K r a0 = true).
    { rewrite (agree_same_key K r r a0 Hkey). unfold agree.
      apply forallb_forall. exact Hnn. }
    split.
    + apply key_unique_app; [exact Huniq |].
      rewrite <- Hex. clear Hex Huniq. induction rows as [| o l IH];
        cbn; [reflexivity |].
      rewrite IH. f_equal.
      rewrite !(agree_sym K _ o). now apply agree_same_key.
    + exists a0. split; [| split; [reflexivity | exact Hr']].
      rewrite filter_app, (filter_none _ _ Hex). cbn. now rewrite Hself.
Qed.

End UpsertOnKey.

(** ** Failed runs *)

Section Calm.
Context {P : Platform}.

Lemma calm_same {A} (m : M A) :
  (forall w, faults (snd (m w)) = faults w) -> calm m.
Proof. intros H w Hw. now rewrite H. Qed.

Lemma calm_bind {A B} (m : M A) (k : A -> M B) :
  calm m -> (forall a, calm (k a)) -> calm (bind m k).
Proof.
  intros Hm Hk w Hw. unfold bind. specialize (Hm w Hw).
  destruct (m w) as [[a | e] w1]; cbn [snd] in *; [now apply Hk | exact Hm].
Qed.

Lemma calm_for_each {A} (l : list A) (body : A -> M unit) :
  (forall x, calm (body x)) -> calm (for_each l body).
Proof.
  intros Hb. induction l as [| x l IH]; cbn [for_each].
  - now apply calm_same.
  - apply calm_bind; [apply Hb | intros _; exact IH].
Qed.

Lemma calm_round_trip : calm round_trip.
Proof. intros w Hw. unfold round_trip. now rewrite Hw. Qed.

Lemma calm_with_default_id (t : string) (r : row) :
  calm (with_default_id t r).
Proof.
  intros w Hw. unfold with_default_id. destruct (default_id t); exact Hw.
Qed.

Lemma calm_execSQL {A} (m : M A) : calm m -> calm (Http.execSQL m).
Proof.
  intros Hm w Hw. unfold Http.execSQL. specialize (Hm w Hw).
  destruct (m w) as [[a | e] w1]; exact Hm.
Qed.

Lemma calm_attempt {A} (m : M A) : calm m -> calm (Http.attempt m).
Proof.
  intros Hm w Hw. unfold Http.attempt. specialize (Hm w Hw).
  destruct (m w) as [[a | e] w1]; exact Hm.
Qed.

End Calm.

Ltac open_sql :=
  unfold Http.upsert, Http.insert, sql_insert, sql_insert_do_nothing,
    sql_upsert, sql_select, column_exists, alter_add_column,
    add_column_if_missing.

Ltac calm_steps :=
  repeat first
    [ progress cbv zeta
    | progress intros
    | match goal with
      | |- calm (bind _ _) => apply calm_bind
      | |- calm (for_each _ _) => apply calm_for_each
      | |- calm round_trip => apply calm_round_trip
      | |- calm (with_default_id _ _) => apply calm_with_default_id
      | |- calm (Http.execSQL _) => apply calm_execSQL
      | |- calm (Http.attempt _) => apply calm_attempt
      | |- calm (match ?x with _ => _ end) => destruct x
      | |- calm _ => solve [apply calm_same; reflexivity]
      end ].

Section FailedRuns.
Context {P : Platform}.

Lemma cli_transaction_calm (payload : json) (id : string) :
  calm (Cli.transaction payload id).
Proof. open_cli. open_sql. calm_steps. Qed.

Lemma http_attempt_calm (payload : json) (id : string) :
  calm (Http.attempt_run payload id).
Proof. open_http. open_sql. calm_steps. Qed.

End FailedRuns.

Lemma same_uniques_refl (d : db) : same_uniques d d.
Proof. reflexivity. Qed.

Lemma same_uniques_trans (a b c : db) :
  same_uniques a b -> same_uniques b c -> same_uniques a c.
Proof. unfold same_uniques. congruence. Qed.

Lemma same_uniques_free (t : string) : free_table same_uniques t.
Proof. intros d rows. reflexivity. Qed.

Lemma same_uniques_columns : free_columns same_uniques.
Proof. intros d t c. reflexivity. Qed.

Ltac same_uniques_side :=
  first [ apply same_uniques_refl
        | apply same_uniques_trans
        | apply same_uniques_columns
        | apply same_uniques_free ].

(** The steps a run went through before it threw. *)
Ltac chain_to_throw step :=
  repeat match goal with
         | E : _ ?x = (_, ?y) |- same_table _ (store ?x) (store ?y) =>
             refine (preserves_run _ E); step
         | E : _ ?x = (Ok _, ?y) |- same_table _ (store ?x) _ =>
             apply same_table_trans with (b := store y)
         end.

Section ErrorRow.
Context {P : Platform}.

Lemma sql_insert_throw (t : string) (r : row) (w w' : world) (e : string) :
  sql_insert t r w = (Throw e, w') -> store w' = store w.
Proof.
  unfold sql_insert, bind, round_trip, with_default_id, get_store, throw,
    put_store.
  destruct (faults w) as [| [m |] rest]; destruct (default_id t); cbn;
    try destruct (violates _ _ _ _); intros E; inversion E; reflexivity.
Qed.

Lemma sql_insert_quiet (t : string) (r : row) (w : world) :
  faults w = [] -> default_id t = None ->
  violates (store w) t r (tables (store w) t) = false ->
  sql_insert t r w
  = (Ok tt, set_store (set_table t (tables (store w) t ++ [r]) (store w)) w).
Proof.
  intros Hf Hd Hv.
  unfold sql_insert, bind, round_trip, with_default_id, get_store, put_store.
  rewrite Hf, Hd. cbn. now rewrite Hv.
Qed.

(** However the [ERROR] row is written, the rows of [ingestions] are the
    old ones, followed or not by that row. *)
Lemma error_row_written_or_not (id msg : string) (w : world) :
  let w' := snd (sql_insert "ingestions" (error_row id msg) w) in
  (forall t, t <> "ingestions" -> rows_of w' t = rows_of w t)
  /\ columns (store w') = columns (store w)
  /\ (rows_of w' "ingestions" = rows_of w "ingestions" ++ [error_row id msg]
      \/ rows_of w' "ingestions" = rows_of w "ingestions").
Proof.
  cbv zeta.
  destruct (sql_insert "ingestions" (error_row id msg) w) as [[u | e] w']
    eqn:E; cbn [snd].
  - unfold sql_insert, bind, round_trip, with_default_id, get_store,
      put_store, throw in E. cbn [default_id String.eqb Ascii.eqb Bool.eqb]
      in E. unfold ret in E.
    destruct (faults w) as [| [m |] rest]; try discriminate;
      destruct (violates _ _ _ _); try discriminate; inversion E; subst;
      unfold rows_of; cbn; (split; [| split; [reflexivity | now left]]);
      intros t Ht; destruct (String.eqb_spec t "ingestions");
      [contradiction | reflexivity | contradiction | reflexivity].
  - apply sql_insert_throw in E. unfold rows_of. rewrite E.
    split; [reflexivity | split; [reflexivity | now right]].
Qed.

Lemma http_record_throw (st : run_status) (id a : string) (w w' : world)
  (e : string) :
  (set_status st ;;;
   r <- get_rep ;;
   Http.insert "ingestions" (run_row id a r) ;;; ret a) w = (Throw e, w') ->
  store w' = store w.
Proof.
  intros H. apply bind_throw in H.
  destruct H as [H | (u & w1 & Hm & H)]; [discriminate H |].
  unfold set_status in Hm. inversion Hm; subst; clear Hm.
  apply bind_throw in H.
  destruct H as [H | (r & w1 & Hm & H)]; [discriminate H |].
  unfold get_rep in Hm. inversion Hm; subst; clear Hm.
  apply bind_throw in H.
  destruct H as [H | (u' & w2 & Hm & H)]; [| discriminate H].
  apply sql_insert_throw in H. exact H.
Qed.

(** A run of [index.http.js] that throws has not written to
    [ingestions]. *)
Lemma http_attempt_throw (payload : json) (id : string) (w w' : world)
  (e : string) :
  Http.attempt_run payload id w = (Throw e, w') ->
  same_table "ingestions" (store w) (store w').
Proof.
  intros H. unfold Http.attempt_run in H.
  do 10 (cbv zeta in H; apply bind_throw in H;
         destruct H as [H | (? & ? & ? & H)];
         [chain_to_throw ltac:(open_http; frame same_table_side fail) |]).
  cbv zeta in H. apply http_record_throw in H.
  match type of H with
  | store _ = store ?x =>
      unfold same_table; rewrite H;
      change (same_table "ingestions" (store w) (store x))
  end.
  chain_to_throw ltac:(open_http; frame same_table_side fail).
Qed.

End ErrorRow.

Section FailureOfMain.
Context {P : Platform}.

Lemma connect_ok (w w1 : world) (id : string) :
  (round_trip ;;; fresh_uuidv4) w = (Ok id, w1) ->
  id = uuidv4 (js_draws w) /\ store w1 = store w
  /\ (faults w = [] -> faults w1 = []).
Proof.
  unfold bind, round_trip, fresh_uuidv4.
  destruct (faults w) as [| [m |] rest] eqn:Ef; intros E; inversion E; subst;
    cbn; rewrite ?Ef; repeat split; try reflexivity; intros Hq;
    first [exact Hq | discriminate Hq].
Qed.

Lemma connect_quiet (w : world) :
  faults w = [] ->
  (round_trip ;;; fresh_uuidv4) w = (Ok (uuidv4 (js_draws w)), drawn w).
Proof. intros Hf. unfold bind, round_trip, fresh_uuidv4. now rewrite Hf. Qed.

Lemma violates_same (d d' : db) (t : string) (r : row) (rows : list row) :
  uniques d' = uniques d -> violates d' t r rows = violates d t r rows.
Proof. intros E. unfold violates. now rewrite E. Qed.

(** A run of [index.js] that fails leaves the store as it was, the table
    of runs included; when the store announces no failure, the process
    ends on the refusal of the statement of the [ERROR] row. *)
Lemma cli_failed_run (payload : json) (w w' : world) (msg : string) :
  Cli.main payload w = (Cli.Exit1 msg, w') ->
  store w' = store w
  /\ (faults w = [] -> msg = Cli.undetermined_parameter).
Proof.
  intros H. unfold Cli.main in H.
  destruct ((round_trip ;;; fresh_uuidv4) w) as [[id | e] w1] eqn:E0.
  - pose proof (connect_ok _ _ _ E0) as (-> & Hs & Hf).
    set (id := uuidv4 (js_draws w)) in *.
    destruct (Cli.transaction payload id _) as [[a | e] w3] eqn:E1;
      [discriminate |].
    pose proof (cli_transaction_calm payload id
                  (set_rep (initial_report id) w1)) as Hcalm.
    rewrite E1 in Hcalm. cbn [snd faults set_rep] in Hcalm.
    destruct (insert_error_row_refused id e
                (set_store (store (set_rep (initial_report id) w1)) w3))
      as (e' & w5 & E2 & Hs5 & He').
    rewrite E2 in H. inversion H; subst; clear H.
    split; [rewrite Hs5; cbn; exact Hs |].
    intros Hq. apply He'. cbn. apply Hcalm, Hf, Hq.
  - inversion H; subst. split; [exact (connect_store _ _ _ E0) |].
    intros Hq. rewrite (connect_quiet _ Hq) in E0. discriminate.
Qed.

Lemma http_failed_run (payload : json) (w w' : world) (msg : string) :
  payload <> JNull ->
  Http.main payload w = (Http.Exit1 msg, w') ->
  (rows_of w' "ingestions"
   = rows_of w "ingestions" ++ [error_row (uuidv4 (js_draws w)) msg]
   \/ rows_of w' "ingestions" = rows_of w "ingestions")
  /\ (faults w = [] ->
      (forall m, violates (store w) "ingestions"
                   (error_row (uuidv4 (js_draws w)) m)
                   (rows_of w "ingestions") = false) ->
      rows_of w' "ingestions"
      = rows_of w "ingestions" ++ [error_row (uuidv4 (js_draws w)) msg]).
Proof.
  intros Hp H. set (id := uuidv4 (js_draws w)) in *.
  assert (Hrun : exists w3,
             Http.attempt_run payload id
               (set_rep (initial_report id) (drawn w)) = (Throw msg, w3)
             /\ w' = snd (Http.insert "ingestions" (error_row id msg) w3)).
  { unfold Http.main in H. destruct payload; try contradiction; cbn in H;
      match type of H with
      | match ?m with _ => _ end = _ =>
          destruct m as [[a | e] w3] eqn:E1; inversion H; subst;
          exists w3; split; [exact E1 | reflexivity]
      end. }
  clear H. destruct Hrun as (w3 & Hrun & ->).
  pose proof (http_attempt_throw _ _ _ _ _ Hrun) as Hsame.
  unfold same_table in Hsame. cbn [store set_rep drawn] in Hsame.
  pose proof (error_row_written_or_not id msg w3) as Hrow.
  cbv zeta in Hrow. destruct Hrow as (_ & _ & Hrows).
  unfold Http.insert, rows_of in *. rewrite Hsame in Hrows.
  split; [exact Hrows |]. intros Hq Hv.
  pose proof (http_attempt_calm payload id
                (set_rep (initial_report id) (drawn w)) Hq) as Hcalm.
  assert (Hu : same_uniques (store w) (store w3)).
  { change (store w) with (store (set_rep (initial_report id) (drawn w))).
    refine (preserves_run _ Hrun). open_http.
    frame same_uniques_side fail. }
  rewrite Hrun in Hcalm. cbn [snd] in Hcalm.
  rewrite sql_insert_quiet; [| exact Hcalm | reflexivity |].
  - cbn. now rewrite Hsame.
  - rewrite Hsame, (violates_same _ _ _ _ _ Hu). apply Hv.
Qed.

End FailureOfMain.

(** C8.  A run of [index.js] that fails is not recorded: the store holds
    exactly what it held before the run, so that the table of runs has no
    [ERROR] row for it, and, when the store itself announced no failure,
    the process ends on the refusal of the statement that should have
    written that row, not on the error of the run.  A run of
    [index.http.js] that fails is recorded: the table of runs holds what
    it held and at most one row more, the [ERROR] row of the run with the
    message of the error, which is there whenever the store announced no
    failure and the row collides with no recorded run; the other tables
    keep what the run wrote before the error. *)
Theorem failed_run_is_recorded_by_index_http_only :
  forall (P : Platform) (payload : json) (w w' : world) (msg : string),
    (Cli.main payload w = (Cli.Exit1 msg, w') ->
     store w' = store w
     /\ (faults w = [] -> msg = Cli.undetermined_parameter))
    /\ (payload <> JNull ->
        Http.main payload w = (Http.Exit1 msg, w') ->
        (rows_of w' "ingestions"
         = rows_of w "ingestions" ++ [error_row (uuidv4 (js_draws w)) msg]
         \/ rows_of w' "ingestions" = rows_of w "ingestions")
        /\ (faults w = [] ->
            (forall m, violates (store w) "ingestions"
                         (error_row (uuidv4 (js_draws w)) m)
                         (rows_of w "ingestions") = false) ->
            rows_of w' "ingestions"
            = rows_of w "ingestions"
              ++ [error_row (uuidv4 (js_draws w)) msg])).
Proof.
  intros P payload w w' msg. split.
  - apply cli_failed_run.
  - apply http_failed_run.
Qed.

Lemma failed_run_witness :
  store (snd (@Cli.main Demo.platform Samples.broken_offices
                (Demo.world_on empty_db)))
  = store (Demo.world_on empty_db).
Proof.
  refine (proj1 (proj1 (failed_run_is_recorded_by_index_http_only
                          Demo.platform Samples.broken_offices
                          (Demo.world_on empty_db)
                          (snd (@Cli.main Demo.platform
                                  Samples.broken_offices
                                  (Demo.world_on empty_db)))
                          Cli.undetermined_parameter) _)).
  vm_compute. reflexivity.
Defined.

(** The document with a [null] office, ingested by [index.js] from the
    empty store: the extraction of the addresses throws inside the
    transaction, the process ends on the refusal of the statement of the
    [ERROR] row, and the table of runs is empty. *)
Example failed_run_of_index_js :
  let run := @Cli.main Demo.platform Samples.broken_offices
               (Demo.world_on empty_db) in
  Cli.extractAddresses Samples.broken_offices = Throw null_office
  /\ fst run = Cli.Exit1 Cli.undetermined_parameter
  /\ rows_of (snd run) "ingestions" = [].
Proof. cbv zeta. repeat split; vm_compute; reflexivity. Qed.

(** C8, as stated, fails on [index.http.js] too: a run that throws while
    the financial statements are read leaves the company, the version and
    the raw section it has written. *)
Lemma http_failure_keeps_its_writes :
  ~ (forall (P : Platform) (payload : json) (w w' : world) (msg : string),
        Http.main payload w = (Http.Exit1 msg, w') ->
        forall t, t <> "ingestions" -> rows_of w' t = rows_of w t).
Proof.
  intros claim.
  specialize (claim Demo.platform Samples.broken_statement
                (Demo.world_on empty_db)
                (snd (@Http.main Demo.platform Samples.broken_statement
                        (Demo.world_on empty_db)))
                "Cannot read properties of null (reading 'code')"
                ltac:(vm_compute; reflexivity)
                "raw_sections" ltac:(discriminate)).
  vm_compute in claim. discriminate claim.
Qed.

Lemma recorded_status_is_terminal_witness :
  let w := Demo.world_on empty_db in
  let r := @error_row Demo.platform "v4#0"
             "Cannot read properties of null (reading 'code')" in
  In r (rows_of (snd (@Http.main Demo.platform Samples.broken_statement w))
          "ingestions")
  /\ (In r (rows_of w "ingestions") \/ terminal_row r).
Proof.
  cbv zeta. split.
  - vm_compute. now left.
  - apply (proj2 (recorded_status_is_terminal Demo.platform
                    Samples.broken_statement (Demo.world_on empty_db) _)).
    vm_compute. now left.
Defined.

(** ** The string tests on examples *)

Example CODE_RE_accepts : CODE_RE "IPL12" = true /\ CODE_RE "AB1234" = true.
Proof. split; reflexivity. Qed.

Example CODE_RE_rejects :
  CODE_RE "A1" = false /\ CODE_RE "ABCDE12" = false /\ CODE_RE "AB12x" = false
  /\ CODE_RE "0" = false /\ CODE_RE "ab12" = false.
Proof. repeat split; reflexivity. Qed.

Example match_year_path :
  match_year "bilanci.2021.attivo" = Some 2021%Z /\
  match_year "x20a.y2019" = Some 2019%Z /\ match_year "balance" = None.
Proof. repeat split; reflexivity. Qed.

Example toSnakeCase_examples :
  toSnakeCase "zipCode" = "zip_code" /\
  toSnakeCase "REA code-2.x" = "rea_code_2_x" /\
  toSnakeCase "floor" = "floor".
Proof. repeat split; reflexivity. Qed.

(** * Further properties of the programs *)

(** ** [safeGet] *)

Lemma safeGet_app (obj : jsval) (p q : list string) :
  safeGet obj (p ++ q) = safeGet (safeGet obj p) q.
Proof. unfold safeGet. apply fold_left_app. Qed.

Lemma safeGet_undefined (p : list string) : safeGet undefined p = undefined.
Proof. induction p as [| k p IH]; [reflexivity | exact IH]. Qed.

Lemma safeGet_step_falsy (acc : jsval) (k : string) :
  truthyv acc = false -> safeGet_step acc k = undefined.
Proof. unfold safeGet_step. now intros ->. Qed.

(** X1. [safeGet] stops at the first falsy value on the path: when the
    value reached by a path is falsy ([null], [0], the empty string, or
    nothing), every longer path gives [undefined]. *)
Theorem safeGet_stops_at_a_falsy_value (obj : jsval) (p q : list string) :
  truthyv (safeGet obj p) = false -> q <> [] ->
  safeGet obj (p ++ q) = undefined.
Proof.
  intros Hp Hq. rewrite safeGet_app. destruct q as [| k q]; [now elim Hq |].
  change (safeGet (safeGet obj p) (k :: q))
    with (safeGet (safeGet_step (safeGet obj p) k) q).
  rewrite safeGet_step_falsy by exact Hp. apply safeGet_undefined.
Qed.

Lemma safeGet_stops_witness :
  safeGet (Some (JObj [("address", JNull)]))
    (["address"] ++ ["country"; "code"])
  = undefined.
Proof.
  apply (safeGet_stops_at_a_falsy_value
           (Some (JObj [("address", JNull)])) ["address"] ["country"; "code"]).
  - reflexivity.
  - discriminate.
Defined.

(** ** [toSnakeCase] *)

Lemma lower_char_plain (c : ascii) :
  is_separator c = false -> plain_char (lower_char c) = true.
Proof.
  destruct c as [[] [] [] [] [] [] [] []]; intros H; try discriminate H;
    reflexivity.
Qed.

Lemma lower_char_fixed (c : ascii) : is_upper c = false -> lower_char c = c.
Proof. unfold lower_char. now intros ->. Qed.

Lemma toLowerCase_chars (s : string) :
  Forall (fun c => is_separator c = false) (list_ascii_of_string s) ->
  Forall (fun c => plain_char c = true) (list_ascii_of_string (toLowerCase s)).
Proof.
  induction s as [| c s IH]; cbn; intros H; constructor; inversion H; subst.
  - now apply lower_char_plain.
  - now apply IH.
Qed.

Lemma collapse_chars (b : bool) (s : string) :
  Forall (fun c => is_separator c = false)
    (list_ascii_of_string (collapse_separators b s)).
Proof.
  revert b. induction s as [| c s IH]; intros b; cbn; [constructor |].
  destruct (is_separator c) eqn:E.
  - destruct b; [apply IH |]. cbn. constructor; [reflexivity | apply IH].
  - cbn. constructor; [exact E | apply IH].
Qed.

Lemma substring_chars (P : ascii -> Prop) (n m : nat) (s : string) :
  Forall P (list_ascii_of_string s) ->
  Forall P (list_ascii_of_string (String.substring n m s)).
Proof.
  revert n m. induction s as [| c s IH]; intros n m H.
  - destruct n, m; cbn; constructor.
  - inversion H; subst. destruct n as [| n].
    + destruct m as [| m]; cbn; [constructor |]. constructor; [assumption |].
      now apply IH.
    + cbn. now apply IH.
Qed.

Lemma substring_length_le (n m : nat) (s : string) :
  (String.length (String.substring n m s) <= m)%nat.
Proof.
  revert n m. induction s as [| c s IH]; intros n m.
  - destruct n, m; cbn; lia.
  - destruct n as [| n].
    + destruct m as [| m]; cbn; [lia |]. specialize (IH 0%nat m). lia.
    + cbn. apply IH.
Qed.

Lemma toSnakeCase_chars (str : string) :
  Forall (fun c => plain_char c = true)
    (list_ascii_of_string (toSnakeCase str)).
Proof.
  unfold toSnakeCase. apply substring_chars, toLowerCase_chars, collapse_chars.
Qed.

(** X2. A column name made by [toSnakeCase] has at most 60 characters, no
    upper-case letter, and no white space, hyphen or full stop. *)
Theorem toSnakeCase_is_a_short_plain_name (str : string) :
  (String.length (toSnakeCase str) <= 60)%nat
  /\ forall c, In c (list_ascii_of_string (toSnakeCase str)) ->
               is_upper c = false /\ is_separator c = false.
Proof.
  split; [apply substring_length_le |].
  intros c Hc. pose proof (toSnakeCase_chars str) as H.
  rewrite Forall_forall in H. specialize (H c Hc). unfold plain_char in H.
  apply andb_true_iff in H. destruct H as [H1 H2].
  now rewrite negb_true_iff in H1, H2.
Qed.

Lemma camel_breaks_plain (prev : option ascii) (s : string) :
  Forall (fun c => plain_char c = true) (list_ascii_of_string s) ->
  camel_breaks prev s = s.
Proof.
  revert prev. induction s as [| c s IH]; intros prev H; [reflexivity |].
  inversion H as [| ? ? Hc Hs]; subst. cbn.
  unfold plain_char in Hc. apply andb_true_iff in Hc. destruct Hc as [Hu _].
  rewrite negb_true_iff in Hu. rewrite Hu.
  replace (match prev with
           | Some p => is_lower_or_digit p && false
           | None => false
           end)
    with false by (destruct prev; [now rewrite andb_false_r | reflexivity]).
  f_equal. now apply IH.
Qed.

Lemma collapse_plain (s : string) :
  Forall (fun c => plain_char c = true) (list_ascii_of_string s) ->
  collapse_separators false s = s.
Proof.
  induction s as [| c s IH]; intros H; [reflexivity |].
  inversion H as [| ? ? Hc Hs]; subst. cbn.
  unfold plain_char in Hc. apply andb_true_iff in Hc. destruct Hc as [_ Hp].
  rewrite negb_true_iff in Hp. rewrite Hp. f_equal. now apply IH.
Qed.

Lemma toLowerCase_plain (s : string) :
  Forall (fun c => plain_char c = true) (list_ascii_of_string s) ->
  toLowerCase s = s.
Proof.
  induction s as [| c s IH]; intros H; [reflexivity |].
  inversion H as [| ? ? Hc Hs]; subst. cbn.
  unfold plain_char in Hc. apply andb_true_iff in Hc. destruct Hc as [Hu _].
  rewrite negb_true_iff in Hu. rewrite lower_char_fixed by exact Hu.
  f_equal. now apply IH.
Qed.

Lemma substring_all (m : nat) (s : string) :
  (String.length s <= m)%nat -> String.substring 0 m s = s.
Proof.
  revert m. induction s as [| c s IH]; intros m H.
  - destruct m; reflexivity.
  - destruct m as [| m]; cbn in *; [lia |]. f_equal. apply IH. lia.
Qed.

(** X3. [toSnakeCase] leaves its own results as they are. *)
Theorem toSnakeCase_idempotent (str : string) :
  toSnakeCase (toSnakeCase str) = toSnakeCase str.
Proof.
  pose proof (toSnakeCase_chars str) as Hc.
  pose proof (substring_length_le 0 60
                (toLowerCase
                   (collapse_separators false (camel_breaks None str))))
    as Hl.
  fold (toSnakeCase str) in Hl.
  unfold toSnakeCase at 1.
  rewrite camel_breaks_plain, collapse_plain, toLowerCase_plain by exact Hc.
  now apply substring_all.
Qed.

(** ** The pattern of coded keys *)

Lemma span_all (p : ascii -> bool) (l rest : string) :
  all_chars p l = true ->
  match rest with
  | EmptyString => True
  | String c _ => p c = false
  end ->
  span p (l ++ rest)%string = (String.length l, rest).
Proof.
  unfold all_chars. induction l as [| c l IH]; cbn; intros Hl Hr.
  - destruct rest as [| c rest]; [reflexivity |]. cbn. now rewrite Hr.
  - apply andb_true_iff in Hl. destruct Hl as [Hc Hl]. rewrite Hc.
    now rewrite IH.
Qed.

Lemma span_split (p : ascii -> bool) (s : string) :
  exists l, s = (l ++ snd (span p s))%string
            /\ all_chars p l = true
            /\ String.length l = fst (span p s).
Proof.
  induction s as [| c s (l & Hs & Hall & Hlen)]; cbn.
  - now exists EmptyString.
  - destruct (p c) eqn:Hc.
    + destruct (span p s) as [n tl]. cbn in *. exists (String c l).
      repeat split; cbn.
      * now f_equal.
      * unfold all_chars in *. cbn. now rewrite Hc.
      * now f_equal.
    + now exists EmptyString.
Qed.

Lemma digit_not_upper (c : ascii) : is_digit c = true -> is_upper c = false.
Proof.
  destruct c as [[] [] [] [] [] [] [] []]; intros H; try discriminate H;
    reflexivity.
Qed.

Lemma append_empty (s : string) : (s ++ EmptyString)%string = s.
Proof. induction s as [| c s IH]; cbn; [reflexivity | now f_equal]. Qed.

(** X4. The pattern of coded keys accepts the strings made of two to four
    upper-case letters followed by two to four digits, and no other. *)
Theorem CODE_RE_matches_letters_then_digits (k : string) :
  CODE_RE k = true <->
  exists letters digits : string,
    k = (letters ++ digits)%string
    /\ all_chars is_upper letters = true
    /\ (2 <= String.length letters <= 4)%nat
    /\ all_chars is_digit digits = true
    /\ (2 <= String.length digits <= 4)%nat.
Proof.
  unfold CODE_RE. split.
  - destruct (span_split is_upper k) as (l & Hk & Hl & Hn).
    destruct (span is_upper k) as [n after]. cbn in *.
    destruct (span_split is_digit after) as (d & Ha & Hd & Hm).
    destruct (span is_digit after) as [m tail]. cbn in *.
    intros H. repeat (apply andb_true_iff in H; destruct H as [H ?]).
    apply String.eqb_eq in H0. subst tail. rewrite append_empty in Ha.
    repeat match goal with
           | E : (_ <=? _)%nat = true |- _ => apply Nat.leb_le in E
           end.
    exists l, d. subst. repeat split; try assumption; try lia.
    + destruct (String.length l) as [| [| ?]]; try discriminate; lia.
    + destruct (String.length d) as [| [| ?]]; try discriminate; lia.
  - intros (l & d & -> & Hl & [Hl2 Hl4] & Hd & [Hd2 Hd4]).
    rewrite (span_all is_upper l d Hl).
    + pose proof (span_all is_digit d EmptyString Hd I) as E.
      rewrite append_empty in E. rewrite E.
      repeat (apply andb_true_iff; split);
        try (apply Nat.leb_le; assumption). reflexivity.
    + destruct d as [| c d]; [exact I |]. apply digit_not_upper.
      unfold all_chars in Hd. cbn in Hd. apply andb_true_iff in Hd. tauto.
Qed.

(** ** The year read in a path *)

Lemma year_here_spec (s : string) (y : Z) :
  year_here s = Some y ->
  exists d1 d2 post,
    year_at EmptyString post d1 d2 s
    /\ y = (2000 + 10 * digit_value d1 + digit_value d2)%Z.
Proof.
  destruct s as [| a [| b [| d1 [| d2 post]]]]; try discriminate. cbn.
  destruct (Ascii.eqb_spec a "2"); [| discriminate].
  destruct (Ascii.eqb_spec b "0"); [| discriminate]. cbn.
  destruct (is_digit d1) eqn:E1; [| discriminate].
  destruct (is_digit d2) eqn:E2; [| discriminate]. cbn.
  intros H. inversion H. subst. exists d1, d2, post. now repeat split.
Qed.

Lemma year_here_found (post : string) (d1 d2 : ascii) :
  is_digit d1 = true -> is_digit d2 = true ->
  year_here (String "2" (String "0" (String d1 (String d2 post)))) <> None.
Proof. intros H1 H2. cbn. rewrite H1, H2. discriminate. Qed.

Lemma year_here_prefix (a b : string) :
  year_here (a ++ b)%string = None -> year_here a = None.
Proof.
  destruct a as [| c1 [| c2 [| c3 [| c4 a]]]]; try reflexivity.
  intros H. exact H.
Qed.

Lemma digit_value_range (c : ascii) :
  is_digit c = true -> (0 <= digit_value c <= 9)%Z.
Proof.
  destruct c as [[] [] [] [] [] [] [] []]; intros H; try discriminate H;
    vm_compute; split; discriminate.
Qed.

(** X5. The year read in a path: there is one exactly when the text holds
    [20] followed by two digits, and it is then between 2000 and 2099, read
    at an occurrence with no complete occurrence before it. *)
Theorem match_year_finds_a_year_of_the_century (s : string) :
  (match_year s <> None <->
   exists pre post d1 d2, year_at pre post d1 d2 s)
  /\ forall y, match_year s = Some y ->
       (2000 <= y <= 2099)%Z
       /\ exists pre post d1 d2,
            year_at pre post d1 d2 s
            /\ match_year pre = None
            /\ y = (2000 + 10 * digit_value d1 + digit_value d2)%Z.
Proof.
  split; [split |].
  - induction s as [| c s IH]; cbn [match_year]; [intros H; now elim H |].
    destruct (year_here (String c s)) as [y |] eqn:E.
    + intros _. apply year_here_spec in E.
      destruct E as (d1 & d2 & post & Hat & _).
      now exists EmptyString, post, d1, d2.
    + intros H. destruct (IH H) as (pre & post & d1 & d2 & -> & H1 & H2).
      exists (String c pre), post, d1, d2. now repeat split.
  - intros (pre & post & d1 & d2 & -> & H1 & H2).
    induction pre as [| c pre IH].
    + cbn [append]. unfold match_year.
      pose proof (year_here_found post d1 d2 H1 H2) as Hf.
      destruct (year_here _); [discriminate | now elim Hf].
    + cbn [append match_year].
      destruct (year_here _); [discriminate | exact IH].
  - induction s as [| c s IH]; intros y; cbn [match_year]; [discriminate |].
    destruct (year_here (String c s)) as [y0 |] eqn:E.
    + intros H. inversion H; subst. apply year_here_spec in E.
      destruct E as (d1 & d2 & post & Hat & ->).
      pose proof Hat as (_ & H1 & H2).
      pose proof (digit_value_range d1 H1).
      pose proof (digit_value_range d2 H2).
      split; [lia |]. now exists EmptyString, post, d1, d2.
    + intros H.
      destruct (IH y H) as (Hr & pre & post & d1 & d2 & Hat & Hn & Hy).
      split; [exact Hr |]. exists (String c pre), post, d1, d2.
      destruct Hat as (-> & H1 & H2). repeat split; try assumption.
      change
        (String c
           (pre
            ++ String "2" (String "0" (String d1 (String d2 post)))))%string
        with (String c pre
              ++ String "2" (String "0" (String d1 (String d2 post))))%string
        in E.
      cbn [match_year]. rewrite (year_here_prefix _ _ E). exact Hn.
Qed.

(** ** [walk] *)

Lemma json_nested_ind (Q : json -> Prop) :
  Q JNull -> (forall b, Q (JBool b)) -> (forall n, Q (JNum n)) ->
  (forall s, Q (JStr s)) ->
  (forall items, Forall Q items -> Q (JArr items)) ->
  (forall props, Forall (fun kv => Q (snd kv)) props -> Q (JObj props)) ->
  forall v, Q v.
Proof.
  intros Hnull Hbool Hnum Hstr Harr Hobj.
  fix IH 1. intros [| b | n | s | items | props].
  - exact Hnull.
  - apply Hbool.
  - apply Hnum.
  - apply Hstr.
  - apply Harr. induction items as [| x items IHitems]; constructor.
    + apply IH.
    + exact IHitems.
  - apply Hobj. induction props as [| [k x] props IHprops]; constructor.
    + apply IH.
    + exact IHprops.
Qed.

Lemma string_of_nat_inj (i j : nat) :
  string_of_nat i = string_of_nat j -> i = j.
Proof.
  unfold string_of_nat, string_of_Z. intros H.
  assert (Hnil : forall z, Z.to_int z <> Decimal.Pos Decimal.Nil
                           /\ Z.to_int z <> Decimal.Neg Decimal.Nil).
  { intros z. split; intros E; pose proof (of_to z) as Hz; rewrite E in Hz;
      cbn in Hz; subst z; discriminate E. }
  assert (E : Some (Z.to_int (Z.of_nat i)) = Some (Z.to_int (Z.of_nat j))).
  { rewrite <- (NilZero.isi (Z.to_int (Z.of_nat i))) by apply Hnil.
    rewrite <- (NilZero.isi (Z.to_int (Z.of_nat j))) by apply Hnil.
    now rewrite H. }
  inversion E as [E']. apply to_int_inj in E'. lia.
Qed.

Lemma assoc_in {A} (k : string) (x : A) (l : list (string * A)) :
  distinct (map fst l) = true -> In (k, x) l -> assoc k l = Some x.
Proof.
  induction l as [| [k' x'] l IH]; cbn; [contradiction |].
  intros Hd [E | Hin].
  - inversion E; subst. now rewrite String.eqb_refl.
  - apply andb_true_iff in Hd. destruct Hd as [Hk Hd].
    destruct (String.eqb_spec k k') as [-> | _]; [| now apply IH].
    exfalso. rewrite negb_true_iff in Hk. unfold mem in Hk.
    assert (Hex : existsb (String.eqb k') (map fst l) = true).
    { apply existsb_exists. exists k'. split; [| apply String.eqb_refl].
      apply in_map_iff. now exists (k', x). }
    congruence.
Qed.

Lemma indexed_keys {A} (i : nat) (l : list A) (k : string) :
  In k (map fst (indexed i l)) ->
  exists j, k = string_of_nat j /\ (i <= j)%nat.
Proof.
  revert i. induction l as [| x l IH]; intros i; cbn; [contradiction |].
  intros [<- | H].
  - exists i. split; [reflexivity | lia].
  - destruct (IH (S i) H) as (j & -> & Hj). exists j.
    split; [reflexivity | lia].
Qed.

Lemma indexed_distinct {A} (i : nat) (l : list A) :
  distinct (map fst (indexed i l)) = true.
Proof.
  revert i. induction l as [| x l IH]; intros i; cbn; [reflexivity |].
  rewrite IH, andb_true_r, negb_true_iff.
  destruct (mem (string_of_nat i) (map fst (indexed (S i) l))) eqn:E;
    [| reflexivity].
  unfold mem in E. apply existsb_exists in E. destruct E as (k & Hk & Ek).
  apply String.eqb_eq in Ek. subst k.
  apply indexed_keys in Hk. destruct Hk as (j & Hj & Hle).
  apply string_of_nat_inj in Hj. lia.
Qed.

Lemma walk_object (props : list (string * json)) (path : list string)
  (n : json) (p : list string) :
  In (n, p) (Http.walk (JObj props) path) ->
  (n, p) = (JObj props, path)
  \/ exists k x, In (k, x) props /\ In (n, p) (Http.walk x (path ++ [k])).
Proof.
  cbn [Http.walk]. intros [E | H]; [now left; symmetry |]. right.
  induction props as [| [k x] props IH]; [contradiction |].
  apply in_app_or in H. destruct H as [H | H].
  - exists k, x. split; [now left | exact H].
  - destruct (IH H) as (k' & x' & Hin & Hw). exists k', x'.
    split; [now right | exact Hw].
Qed.

Lemma walk_array (items : list json) (path : list string)
  (n : json) (p : list string) :
  In (n, p) (Http.walk (JArr items) path) ->
  (n, p) = (JArr items, path)
  \/ exists k x, In (k, x) (indexed 0 items)
                 /\ In (n, p) (Http.walk x (path ++ [k])).
Proof.
  cbn [Http.walk]. intros [E | H]; [now left; symmetry |]. right.
  revert H. generalize 0%nat.
  induction items as [| x items IH]; intros i H; [contradiction |].
  apply in_app_or in H. destruct H as [H | H].
  - exists (string_of_nat i), x. split; [now left | exact H].
  - destruct (IH (S i) H) as (k' & x' & Hin & Hw). exists k', x'.
    split; [now right | exact Hw].
Qed.

Lemma unique_keys_object (props : list (string * json)) (k : string)
  (x : json) :
  unique_keys (JObj props) = true -> In (k, x) props ->
  distinct (map fst props) = true /\ unique_keys x = true.
Proof.
  cbn [unique_keys]. intros H Hin. apply andb_true_iff in H.
  destruct H as [Hd Hall]. split; [exact Hd |].
  induction props as [| [k' x'] props IH]; [contradiction |].
  apply andb_true_iff in Hall. destruct Hall as [Hx Hall].
  destruct Hin as [E | Hin]; [inversion E; now subst |].
  apply IH; [| exact Hall | exact Hin].
  cbn in Hd. apply andb_true_iff in Hd. tauto.
Qed.

Lemma unique_keys_array (items : list json) (i : nat) (k : string) (x : json) :
  unique_keys (JArr items) = true -> In (k, x) (indexed i items) ->
  unique_keys x = true.
Proof.
  cbn [unique_keys]. revert i.
  induction items as [| x' items IH]; intros i Hall Hin; [contradiction |].
  apply andb_true_iff in Hall. destruct Hall as [Hx Hall].
  destruct Hin as [E | Hin]; [inversion E; now subst |].
  now apply (IH (S i)).
Qed.

Lemma walk_paths (v : json) :
  forall (path : list string) (n : json) (p : list string),
    unique_keys v = true ->
    In (n, p) (Http.walk v path) ->
    is_object n = true
    /\ exists r, p = path ++ r /\ at_path v r = Some n.
Proof.
  induction v as [| b | z | s | items IH | props IH] using json_nested_ind;
    intros path n p Hu Hin; try contradiction.
  - apply walk_array in Hin. destruct Hin as [E | (k & x & Hkx & Hw)].
    + inversion E; subst. split; [reflexivity |]. exists [].
      now rewrite app_nil_r.
    + rewrite Forall_forall in IH.
      assert (Hx : In x items).
      { clear - Hkx. revert Hkx. generalize 0%nat.
        induction items as [| y items IHi]; intros i; cbn; [contradiction |].
        intros [E | H]; [inversion E; now left | right].
        now apply (IHi (S i)). }
      destruct (IH x Hx (path ++ [k]) n p
                  (unique_keys_array items 0 k x Hu Hkx) Hw)
        as (Hobj & r & -> & Hat).
      split; [exact Hobj |]. exists (k :: r). rewrite <- app_assoc.
      split; [reflexivity |]. cbn [at_path child entries].
      now rewrite (assoc_in k x _ (indexed_distinct 0 items) Hkx).
  - apply walk_object in Hin. destruct Hin as [E | (k & x & Hkx & Hw)].
    + inversion E; subst. split; [reflexivity |]. exists [].
      now rewrite app_nil_r.
    + rewrite Forall_forall in IH.
      destruct (unique_keys_object props k x Hu Hkx) as [Hd Hux].
      destruct (IH (k, x) Hkx (path ++ [k]) n p Hux Hw)
        as (Hobj & r & -> & Hat).
      split; [exact Hobj |]. exists (k :: r). rewrite <- app_assoc.
      split; [reflexivity |]. cbn [at_path child entries].
      now rewrite (assoc_in k x _ Hd Hkx).
Qed.

Lemma assoc_some_in {A} (k : string) (x : A) (l : list (string * A)) :
  assoc k l = Some x -> In (k, x) l.
Proof.
  induction l as [| [k' x'] l IH]; cbn; [discriminate |].
  destruct (String.eqb_spec k k') as [-> | _].
  - intros E. inversion E. now left.
  - intros E. right. now apply IH.
Qed.

Lemma walk_object_child (props : list (string * json)) (path : list string)
  (k : string) (x : json) (np : json * list string) :
  In (k, x) props -> In np (Http.walk x (path ++ [k])) ->
  In np (Http.walk (JObj props) path).
Proof.
  intros Hin Hw. cbn [Http.walk]. right.
  induction props as [| [k' x'] props IH]; [contradiction |].
  apply in_or_app. destruct Hin as [E | Hin].
  - inversion E; subst. now left.
  - right. now apply IH.
Qed.

Lemma walk_array_child (items : list json) (path : list string)
  (k : string) (x : json) (np : json * list string) :
  In (k, x) (indexed 0 items) -> In np (Http.walk x (path ++ [k])) ->
  In np (Http.walk (JArr items) path).
Proof.
  intros Hin Hw. cbn [Http.walk]. right. revert Hin. generalize 0%nat.
  induction items as [| x' items IH]; intros i Hin; [contradiction |].
  apply in_or_app. destruct Hin as [E | Hin].
  - inversion E; subst. now left.
  - right. now apply (IH (S i)).
Qed.

Lemma walk_reaches (r : list string) :
  forall (v n : json) (path : list string),
    is_object n = true -> at_path v r = Some n ->
    In (n, path ++ r) (Http.walk v path).
Proof.
  induction r as [| k r IH]; intros v n path Ho Hat.
  - cbn in Hat. inversion Hat; subst. rewrite app_nil_r.
    destruct n; try discriminate Ho; now left.
  - cbn [at_path] in Hat.
    destruct (child v k) as [c |] eqn:Hc; [| discriminate].
    specialize (IH c n (path ++ [k]) Ho Hat). rewrite <- app_assoc in IH.
    destruct v; try discriminate Hc; cbn [child entries] in Hc;
      apply assoc_some_in in Hc.
    + eapply walk_array_child; eassumption.
    + eapply walk_object_child; eassumption.
Qed.

(** X6. [walk], on a document whose objects have distinct keys, reports
    the objects and arrays of the document and nothing else, each with
    the path of keys and indices that leads to it from the root. *)
Theorem walk_reports_each_node_with_its_path (root n : json) (p : list string) :
  unique_keys root = true ->
  (In (n, p) (Http.walk root []) <->
   is_object n = true /\ at_path root p = Some n).
Proof.
  intros Hu. split.
  - intros Hin.
    destruct (walk_paths root [] n p Hu Hin) as (Ho & r & -> & Hat).
    now split.
  - intros [Ho Hat]. exact (walk_reaches p root n [] Ho Hat).
Qed.

Lemma walk_reports_witness :
  In (JObj [("IPL12", JNum 5); ("ABC123", JStr "17")],
      ["data"; "bilancio"; "2021"])
     (Http.walk Samples.coded_keys []).
Proof.
  apply (proj2 (walk_reports_each_node_with_its_path Samples.coded_keys
                  (JObj [("IPL12", JNum 5); ("ABC123", JStr "17")])
                  ["data"; "bilancio"; "2021"] eq_refl)).
  split; reflexivity.
Defined.

(** ** [extractAddresses] of [index.js] *)

Lemma office_address_result (o : json) :
  (o = JNull /\ Cli.office_address o = Throw null_office)
  \/ (o <> JNull /\ exists a, Cli.office_address o = Ok a).
Proof.
  destruct o; [left; now split | right ..]; (split; [discriminate |]);
    unfold Cli.office_address; cbn; eauto.
Qed.

Lemma rmap_office_address (offices : list json) :
  (In JNull offices /\ rmap Cli.office_address offices = Throw null_office)
  \/ (~ In JNull offices
      /\ exists l, rmap Cli.office_address offices = Ok l
                   /\ List.length l = List.length offices).
Proof.
  induction offices as [| o offices IH].
  - right. split; [intros [] |]. now exists [].
  - cbn [rmap]. destruct (office_address_result o) as [[-> E] | [Hn (a & E)]];
      rewrite E; cbn [rbind].
    + left. split; [now left | reflexivity].
    + destruct IH as [[Hin ->] | [Hnot (l & -> & Hl)]]; cbn [rbind].
      * left. split; [now right | reflexivity].
      * right. split.
        -- intros [Eo | Hin]; [now elim Hn | now elim Hnot].
        -- exists (a :: l). split; [reflexivity | cbn; now f_equal].
Qed.

(** X7. [extractAddresses] of [index.js] throws a [TypeError] when
    [allOffices] holds a [null]; otherwise it gives one address for the
    seat, when there is one, and one for each office. *)
Theorem cli_extractAddresses_fails_on_a_null_office (payload : json) :
  payload <> JNull ->
  (In JNull (offices_of payload) ->
   Cli.extractAddresses payload = Throw null_office)
  /\ (~ In JNull (offices_of payload) ->
      exists l,
        Cli.extractAddresses payload = Ok l
        /\ List.length l
           = ((if truthyv (field payload "address") then 1 else 0)
              + List.length (offices_of payload))%nat).
Proof.
  intros Hp. unfold Cli.extractAddresses, offices_of.
  rewrite !dot_defined by exact Hp. cbn [rbind].
  destruct (field payload "allOffices") as [[| | | | offices |] |];
    try (split; [intros [] | intros _; eexists; split; [reflexivity |];
         destruct (truthyv (field payload "address")); reflexivity]).
  destruct (rmap_office_address offices) as [[Hin E] | [Hnot (l & E & Hl)]];
    rewrite E; cbn [rbind].
  - split; [reflexivity | intros Hn; now elim Hn].
  - split; [intros Hin; now elim Hnot |]. intros _. eexists.
    split; [reflexivity |]. rewrite length_app, Hl.
    destruct (truthyv (field payload "address")); reflexivity.
Qed.

Lemma cli_extractAddresses_witness :
  Cli.extractAddresses Samples.broken_offices = Throw null_office.
Proof.
  apply (proj1 (cli_extractAddresses_fails_on_a_null_office
                  Samples.broken_offices ltac:(discriminate))).
  now left.
Defined.

(** ** [extractAddresses] of [index.http.js] *)

Lemma walk_top_level (props : list (string * json)) (k : string) (x : json) :
  In (k, x) props -> is_object x = true ->
  In (x, [k]) (Http.walk (JObj props) []).
Proof.
  intros Hin Ho. apply (walk_object_child props [] k x); [exact Hin |].
  destruct x; try discriminate Ho; now left.
Qed.

(** X8. [extractAddresses] of [index.http.js] gives the address of the
    seat twice when it has three of the keys of an address: first as
    [SEDE], and again as [OFFICE] from the scan of the document. *)
Theorem http_seat_address_is_extracted_twice
  (props a : list (string * json)) :
  assoc "address" props = Some (JObj a) ->
  (3 <= Http.address_score (JObj a))%nat ->
  exists mid rest,
    Http.extractAddresses (JObj props)
    = Ok (Http.normalize_address
            (JObj (spread [("addressType", JStr "SEDE")] (Some (JObj a))))
          :: mid
          ++ Http.normalize_address
               (JObj (spread [("addressType", JStr "OFFICE")]
                        (Some (JObj a))))
          :: rest).
Proof.
  intros Ha Hs. unfold Http.extractAddresses.
  cbn [dot field rbind]. rewrite Ha. cbn [truthy is_object andb].
  assert (Hin : In (JObj (spread [("addressType", JStr "OFFICE")]
                            (Some (JObj a))))
                   (flat_map Http.looks_like_address
                      (Http.walk (JObj props) []))).
  { apply in_flat_map. exists (JObj a, ["address"]). split.
    - apply walk_top_level; [now apply assoc_some_in | reflexivity].
    - unfold Http.looks_like_address. apply Nat.leb_le in Hs. rewrite Hs.
      now left. }
  apply in_split in Hin. destruct Hin as (l1 & l2 & ->).
  set (offices := match assoc "allOffices" props with
                  | Some (JArr items) => map Http.office_address items
                  | _ => []
                  end).
  exists (map Http.normalize_address (offices ++ l1)),
         (map Http.normalize_address l2).
  cbn [app map]. rewrite !map_app. cbn [map]. now rewrite <- app_assoc.
Qed.

Lemma http_seat_address_witness :
  exists mid rest,
    Http.extractAddresses Samples.with_floor
    = Ok (Http.normalize_address
            (JObj (spread [("addressType", JStr "SEDE")]
                     (field Samples.with_floor "address")))
          :: mid
          ++ Http.normalize_address
               (JObj (spread [("addressType", JStr "OFFICE")]
                        (field Samples.with_floor "address")))
          :: rest).
Proof.
  apply (http_seat_address_is_extracted_twice
           [("companyDetails", JObj [("vatCode", JStr "IT12345678901")]);
            ("address", JObj [("street", JStr "Via Roma 1");
                              ("zipCode", JStr "00100"); ("town", JStr "Roma");
                              ("floor", JNum 3)])]
           [("street", JStr "Via Roma 1"); ("zipCode", JStr "00100");
            ("town", JStr "Roma"); ("floor", JNum 3)]).
  - reflexivity.
  - vm_compute. lia.
Defined.

(** ** The normalization of an address *)

Lemma assoc_set_prop_same (k : string) (v : json) (l : list (string * json)) :
  assoc k (set_prop k v l) = Some v.
Proof.
  induction l as [| [k' v'] l IH]; cbn.
  - now rewrite String.eqb_refl.
  - destruct (String.eqb_spec k k') as [<- | Hne]; cbn.
    + now rewrite String.eqb_refl.
    + destruct (String.eqb_spec k k'); [contradiction | exact IH].
Qed.

Lemma assoc_set_prop_other (k k0 : string) (v : json)
  (l : list (string * json)) :
  k <> k0 -> assoc k (set_prop k0 v l) = assoc k l.
Proof.
  intros Hne. induction l as [| [k' v'] l IH]; cbn.
  - destruct (String.eqb_spec k k0); [contradiction | reflexivity].
  - destruct (String.eqb_spec k0 k') as [<- | Hk]; cbn.
    + destruct (String.eqb_spec k k0); [contradiction | reflexivity].
    + destruct (String.eqb_spec k k'); [reflexivity | exact IH].
Qed.

Lemma assoc_set_props_absent (k : string) (more base : list (string * json)) :
  mem k (map fst more) = false ->
  assoc k (set_props base more) = assoc k base.
Proof.
  unfold set_props. revert base.
  induction more as [| [k' v'] more IH]; intros base Hk; [reflexivity |].
  cbn in Hk. apply orb_false_iff in Hk. destruct Hk as [Hne Hk].
  cbn [fold_left fst snd]. rewrite IH by exact Hk.
  apply assoc_set_prop_other. intros ->. now rewrite String.eqb_refl in Hne.
Qed.

Lemma assoc_set_props_present (k : string) (v : json)
  (more base : list (string * json)) :
  distinct (map fst more) = true -> assoc k more = Some v ->
  assoc k (set_props base more) = Some v.
Proof.
  unfold set_props. revert base.
  induction more as [| [k' v'] more IH]; intros base Hd Hk; [discriminate |].
  cbn in Hd. apply andb_true_iff in Hd. destruct Hd as [Hnew Hd].
  cbn in Hk. cbn [fold_left fst snd].
  destruct (String.eqb_spec k k') as [-> | Hne].
  - inversion Hk; subst.
    fold (set_props (set_prop k' v base) more).
    rewrite assoc_set_props_absent by now rewrite negb_true_iff in Hnew.
    apply assoc_set_prop_same.
  - now apply IH.
Qed.

Lemma assoc_set_props_base (k : string) (more base : list (string * json)) :
  assoc k base <> None -> assoc k (set_props base more) <> None.
Proof.
  unfold set_props. revert base.
  induction more as [| [k' v'] more IH]; intros base Hk; [exact Hk |].
  cbn [fold_left fst snd]. apply IH.
  destruct (String.eqb_spec k k') as [-> | Hne].
  - rewrite assoc_set_prop_same. discriminate.
  - now rewrite assoc_set_prop_other.
Qed.

(** X9. The normalization of an address of [index.http.js] keeps every
    property the address has, with its value, and the result has all the
    seven normalized keys. *)
Theorem normalize_address_keeps_what_the_address_has
  (props : list (string * json)) :
  distinct (map fst props) = true ->
  (forall k v, assoc k props = Some v ->
               field (Http.normalize_address (JObj props)) k = Some v)
  /\ (forall k, In k normalized_keys ->
                field (Http.normalize_address (JObj props)) k <> None).
Proof.
  intros Hd. unfold Http.normalize_address. cbn [field spread entries]. split.
  - intros k v Hk. now apply assoc_set_props_present.
  - intros k Hk. apply assoc_set_props_base. cbn in Hk.
    repeat (destruct Hk as [<- | Hk]; [cbn; discriminate |]). contradiction.
Qed.

Lemma normalize_address_witness :
  field (Http.normalize_address
           (JObj [("street", JStr EmptyString);
                  ("indirizzo", JStr "Via Roma 1")]))
    "street" = Some (JStr EmptyString).
Proof.
  apply (proj1 (normalize_address_keeps_what_the_address_has
                  [("street", JStr EmptyString);
                   ("indirizzo", JStr "Via Roma 1")]
                  eq_refl)).
  reflexivity.
Defined.

(** ** The rows of the financial extractors *)

Lemma statement_guess_allowed (g : string) :
  In (Cli.statement_guess g) statements.
Proof.
  unfold Cli.statement_guess, statements.
  destruct (existsb _ _); [cbn; tauto |].
  destruct (existsb _ _); cbn; tauto.
Qed.

Lemma number_or_null_cases (v : json) :
  is_number (Cli.number_or_null v) = true \/ Cli.number_or_null v = JNull.
Proof.
  unfold Cli.number_or_null.
  destruct (is_number v) eqn:E; [now left | now right].
Qed.

(** X10. Every row [extractBalanceEntries] of [index.js] gives has a
    truthy year, a statement among [SP_A], [SP_P] and [CE], a string for
    code, no description, and a number or [null] for amount. *)
Theorem cli_extracted_rows_are_typed (payload : json) :
  Forall cli_row (Cli.extractBalanceEntries payload).
Proof.
  apply Forall_forall. intros e He. unfold Cli.extractBalanceEntries in He.
  apply filter_In in He. destruct He as [He Hy].
  unfold cli_row. split; [exact Hy |].
  apply in_app_or in He. destruct He as [He | He].
  - unfold Cli.aggregate_entries in He. apply in_flat_map in He.
    destruct He as (m & Hm & He). apply in_map_iff in He.
    destruct He as (ca & <- & _). cbn.
    repeat split; try reflexivity.
    + unfold Cli.maps in Hm. cbn in Hm. unfold statements.
      repeat (destruct Hm as [<- | Hm]; [cbn; tauto |]). contradiction.
    + eexists. split; [reflexivity | apply number_or_null_cases].
  - unfold Cli.detail_entries in He. apply in_flat_map in He.
    destruct He as (g & Hg & He). apply in_map_iff in He.
    destruct He as (ca & <- & _). cbn.
    repeat split; try reflexivity.
    + apply statement_guess_allowed.
    + eexists. split; [reflexivity | apply number_or_null_cases].
Qed.

Lemma append_not_empty (a b : string) :
  b <> EmptyString -> (a ++ b)%string <> EmptyString.
Proof. destruct a; cbn; [tauto | discriminate]. Qed.

Lemma item_entries_rows (year : json) mapping (item : json) (es : list entry) :
  truthy year = true -> In (snd (fst mapping)) statements ->
  Http.item_entries year mapping item = Ok es -> Forall http_row es.
Proof.
  intros Hy Hs E. pose proof (item_entries_have_keys _ _ _ _ Hy E) as Hk.
  revert E Hk. unfold Http.item_entries. destruct mapping as [[sec st] desc].
  destruct (dot (Some item) "code") as [[c |] | e]; cbn [rbind];
    try (intros E; inversion E; constructor).
  destruct (truthy c && _); intros E Hk; inversion E; subst;
    constructor; [| constructor].
  inversion Hk; subst. unfold http_row. repeat split; try assumption.
  cbn. rewrite negb_true_iff. apply String.eqb_neq.
  apply append_not_empty. discriminate.
Qed.

Lemma push_items_rows (year : json) mapping (items : list json) :
  truthy year = true -> In (snd (fst mapping)) statements ->
  forall acc es,
    Forall http_row acc ->
    Http.push_items year mapping items acc = Ok es -> Forall http_row es.
Proof.
  intros Hy Hs. induction items as [| item items IH]; intros acc es Hacc;
    cbn [Http.push_items].
  - intros E. now inversion E; subst.
  - destruct (Http.item_entries year mapping item) as [pushed | e] eqn:Ei;
      cbn [rbind]; [| discriminate].
    apply IH. apply Forall_app. split; [exact Hacc |].
    eapply item_entries_rows; eassumption.
Qed.

Lemma push_sections_rows (year : json) (data : jsval) mappings :
  truthy year = true ->
  Forall (fun m : string * string * string => In (snd (fst m)) statements)
    mappings ->
  forall acc es,
    Forall http_row acc ->
    Http.push_sections year data mappings acc = Ok es -> Forall http_row es.
Proof.
  intros Hy. induction mappings as [| m ms IH]; intros Hms acc es Hacc;
    cbn [Http.push_sections].
  - intros E. now inversion E; subst.
  - inversion Hms; subst.
    destruct (optfield data (fst (fst m))) as [[| | | | items |] |];
      cbn [rbind]; try (apply IH; assumption).
    destruct (Http.push_items year m items acc) as [after | e] eqn:Ep;
      cbn [rbind]; [| discriminate].
    apply IH; [assumption |]. eapply push_items_rows; eassumption.
Qed.

Lemma code_entries_rows (year : json) (np : json * list string) :
  truthy year = true -> Forall http_row (Http.code_entries year np).
Proof.
  intros Hy. pose proof (code_entries_have_keys year np Hy) as Hk.
  rewrite Forall_forall in *. intros e He. specialize (Hk e He).
  unfold Http.code_entries in He. destruct np as [node path].
  apply in_flat_map in He. destruct He as ([k v] & _ & He).
  destruct (CODE_RE k && _); [| contradiction].
  destruct He as [<- | []]. unfold http_row. repeat split; try assumption.
  cbn. unfold statements.
  destruct (startsWith k "IPL"); [cbn; tauto |].
  destruct (startsWith k "IIC1"); cbn; tauto.
Qed.

Lemma sectionMappings_allowed :
  Forall (fun m : string * string * string => In (snd (fst m)) statements)
    Http.sectionMappings.
Proof. repeat constructor; cbn; tauto. Qed.

Lemma euromarSectionMappings_allowed :
  Forall (fun m : string * string * string => In (snd (fst m)) statements)
    Http.euromarSectionMappings.
Proof. repeat constructor; cbn; tauto. Qed.

Lemma Forall_filter {A} (Q : A -> Prop) (f : A -> bool) (l : list A) :
  Forall Q l -> Forall Q (filter f l).
Proof.
  rewrite !Forall_forall. intros H x Hx. apply filter_In in Hx. now apply H.
Qed.

Lemma http_rows_complete (payload : json) (es : list entry) :
  Http.extractBalanceEntries payload = Ok es -> Forall http_row es.
Proof.
  unfold Http.extractBalanceEntries. cbv zeta.
  pose proof (defaultYear_truthy payload) as Hy.
  destruct (Http.push_sections _ _ Http.sectionMappings [])
    as [t1 | e] eqn:E1; cbn [rbind]; [| discriminate].
  assert (K1 : Forall http_row t1).
  { eapply push_sections_rows;
      [exact Hy | apply sectionMappings_allowed | constructor | exact E1]. }
  destruct (List.length t1 =? 0)%nat.
  - destruct (Http.push_sections _ _ Http.euromarSectionMappings t1)
      as [t2 | e] eqn:E2; cbn [rbind]; [| discriminate].
    assert (K2 : Forall http_row t2).
    { eapply push_sections_rows;
        [exact Hy | apply euromarSectionMappings_allowed | exact K1
        | exact E2]. }
    intros E. inversion E; subst. apply Forall_filter.
    destruct (List.length t2 =? 0)%nat; [| exact K2].
    apply Forall_app. split; [exact K2 |].
    apply Forall_forall. intros e He. apply in_flat_map in He.
    destruct He as (np & _ & He).
    pose proof (code_entries_rows _ np Hy) as F.
    rewrite Forall_forall in F. exact (F e He).
  - cbn [rbind]. intros E. inversion E; subst. apply Forall_filter.
    destruct (List.length t1 =? 0)%nat; [| exact K1].
    apply Forall_app. split; [exact K1 |].
    apply Forall_forall. intros e He. apply in_flat_map in He.
    destruct He as (np & _ & He).
    pose proof (code_entries_rows _ np Hy) as F.
    rewrite Forall_forall in F. exact (F e He).
Qed.

(** X11. Every row [extractBalanceEntries] of [index.http.js] gives has
    a truthy year, code and description, a statement among [SP_A], [SP_P]
    and [CE], and the currency [EUR]. *)
Theorem http_extracted_rows_are_complete (payload : json) (es : list entry) :
  Http.extractBalanceEntries payload = Ok es -> Forall http_row es.
Proof. apply http_rows_complete. Qed.

Lemma http_extracted_rows_witness :
  Forall http_row
    (Samples.rows_or_none (Http.extractBalanceEntries Samples.coded_keys)).
Proof.
  apply (http_extracted_rows_are_complete Samples.coded_keys). reflexivity.
Defined.

(** A [null] line item. *)
Lemma item_entries_throw (year : json) mapping (item : json) (msg : string) :
  Http.item_entries year mapping item = Throw msg ->
  item = JNull /\ msg = null_item.
Proof.
  unfold Http.item_entries. destruct mapping as [[sec st] desc].
  destruct item; cbn; try (destruct (assoc "code" props) as [c |];
    [destruct (truthy c && _) |]); try discriminate.
  intros E. inversion E. now split.
Qed.

Lemma push_items_null (year : json) mapping (items : list json) :
  In JNull items ->
  forall acc, Http.push_items year mapping items acc = Throw null_item.
Proof.
  induction items as [| item items IH]; intros Hin acc; [contradiction |].
  cbn [Http.push_items].
  destruct (Http.item_entries year mapping item) as [pushed | msg] eqn:Ei;
    cbn [rbind].
  - destruct Hin as [-> | Hin]; [| now apply IH].
    destruct mapping as [[sec st] desc]. discriminate Ei.
  - apply item_entries_throw in Ei. now destruct Ei as [_ ->].
Qed.

Lemma push_items_throw (year : json) mapping (items : list json) :
  forall acc msg,
    Http.push_items year mapping items acc = Throw msg -> msg = null_item.
Proof.
  induction items as [| item items IH]; intros acc msg; cbn [Http.push_items];
    [discriminate |].
  destruct (Http.item_entries year mapping item) as [pushed | m] eqn:Ei;
    cbn [rbind].
  - apply IH.
  - intros E. inversion E; subst. now apply item_entries_throw in Ei.
Qed.

Lemma push_sections_null (year : json) (data : jsval) mappings
  (m : string * string * string) (items : list json) :
  In m mappings -> optfield data (fst (fst m)) = Some (JArr items) ->
  In JNull items ->
  forall acc, Http.push_sections year data mappings acc = Throw null_item.
Proof.
  intros Hm Hsec Hnull.
  induction mappings as [| m' ms IH]; intros acc; [contradiction |].
  cbn [Http.push_sections]. destruct Hm as [-> | Hm].
  - rewrite Hsec, push_items_null by exact Hnull. reflexivity.
  - destruct (optfield data (fst (fst m'))) as [[| | | | items' |] |];
      cbn [rbind]; try (now apply IH).
    destruct (Http.push_items year m' items' acc) as [after | msg] eqn:Ep;
      cbn [rbind]; [now apply IH |].
    apply push_items_throw in Ep. now subst.
Qed.

(** X12. [extractBalanceEntries] of [index.http.js] throws a [TypeError]
    when one of the statement sections it reads first is an array that
    holds a [null]. *)
Theorem http_null_line_item_aborts_the_extraction
  (payload : json) (m : string * string * string) (items : list json) :
  In m Http.sectionMappings ->
  optfield (Http.data_of payload) (fst (fst m)) = Some (JArr items) ->
  In JNull items ->
  Http.extractBalanceEntries payload = Throw null_item.
Proof.
  intros Hm Hsec Hnull. unfold Http.extractBalanceEntries. cbv zeta.
  now rewrite (push_sections_null _ _ _ m items Hm Hsec Hnull).
Qed.

Lemma http_null_line_item_witness :
  Http.extractBalanceEntries Samples.broken_statement = Throw null_item.
Proof.
  apply (http_null_line_item_aborts_the_extraction Samples.broken_statement
           ("stato_patrimoniale_attivo", "SP_A", "Stato Patrimoniale Attivo")
           [JNull]).
  - now left.
  - reflexivity.
  - now left.
Defined.

(** ** [upsertCompany] *)

Section Companies.
Context {P : Platform}.

Lemma details_field (payload : json) (k : string) :
  optfield (jor (field payload "companyDetails") (Some (JObj []))) k
  = safeGet (Some payload) ["companyDetails"; k].
Proof.
  unfold safeGet. cbn [fold_left]. unfold safeGet_step at 2.
  assert (E : (if truthyv (Some payload) then field payload "companyDetails"
               else undefined) = field payload "companyDetails").
  { destruct payload; try reflexivity; cbn;
      match goal with |- (if ?b then _ else _) = _ => now destruct b end. }
  rewrite E. unfold safeGet_step, jor.
  destruct (field payload "companyDetails") as [c |]; [| reflexivity].
  cbn [truthyv]. destruct (truthy c) eqn:Hc; [| reflexivity].
  destruct c; try discriminate Hc; reflexivity.
Qed.

Lemma computeAziendaId_store (payload : json) (w w' : world) (id : string) :
  Cli.computeAziendaId payload w = (Ok id, w') ->
  store w' = store w /\ faults w' = faults w /\ rep w' = rep w.
Proof.
  unfold Cli.computeAziendaId. intros H. bind_inv H. bind_inv H.
  apply lift_ok in Hm, Hm0. destruct Hm as [_ ->]. destruct Hm0 as [_ ->].
  destruct (negb _) in H; inversion H; subst; now repeat split.
Qed.

Lemma agree_entity_key (id : string) (r : row) :
  col r "azienda_id" = JStr id ->
  forall o, agree company_key r o = agree company_key (entity_key id) o.
Proof. intros H o. unfold agree, company_key. cbn. now rewrite H. Qed.

Lemma filter_ext_eq {A} (f g : A -> bool) (l : list A) :
  (forall x, f x = g x) -> filter f l = filter g l.
Proof.
  intros H. induction l as [| a l IH]; cbn; [reflexivity |].
  now rewrite H, IH.
Qed.

Lemma existsb_ext_eq {A} (f g : A -> bool) (l : list A) :
  (forall x, f x = g x) -> existsb f l = existsb g l.
Proof.
  intros H. induction l as [| a l IH]; cbn; [reflexivity |].
  now rewrite H, IH.
Qed.

Lemma cli_company_row
  (payload : json) (w w' : world) (id : string) :
  key_unique company_key (rows_of w "companies") ->
  Cli.upsertCompany payload w = (Ok id, w') ->
  key_unique company_key (rows_of w' "companies")
  /\ exists x,
       filter (agree company_key (entity_key id)) (rows_of w' "companies")
       = [x]
       /\ col x "vat_code" = as_text (or_null (cli_key payload "vatCode"))
       /\ col x "tax_code" = as_text (or_null (cli_key payload "taxCode"))
       /\ (existsb (agree company_key (entity_key id))
             (rows_of w "companies") = true ->
           List.length (rows_of w' "companies")
           = List.length (rows_of w "companies")).
Proof.
  intros Huniq H. unfold Cli.upsertCompany in H.
  bind_inv H. apply computeAziendaId_store in Hm. destruct Hm as (Hs & _ & _).
  do 4 (bind_inv H;
        match goal with
        | E : lift _ _ = (Ok _, _) |- _ =>
            apply lift_ok in E; destruct E as [? ->]
        end).
  assert (Hp : payload <> JNull) by (intros ->; discriminate).
  rewrite dot_defined in * by exact Hp.
  repeat match goal with
         | E : Ok _ = Ok _ |- _ => inversion E; subst; clear E
         end.
  cbv zeta in H. bind_inv H. inversion H; subst; clear H.
  match type of Hm with
  | sql_upsert _ _ _ ?r _ = _ => set (sent := r) in *
  end.
  assert (Hid : col sent "azienda_id" = JStr id) by reflexivity.
  apply sql_upsert_on_key in Hm.
  - destruct Hm as (Hu & x & Hx & Hcase). unfold rows_of.
    rewrite Hs in Hcase. split; [exact Hu |]. exists x.
    fold company_key in Hx, Hcase.
    rewrite <- (filter_ext_eq _ _ _ (agree_entity_key id sent Hid)).
    rewrite <- (existsb_ext_eq _ _ _ (agree_entity_key id sent Hid)).
    split; [exact Hx |].
    destruct (existsb (agree company_key sent) _) eqn:Hex.
    + destruct Hcase as (Hlen & o & _ & _ & ->).
      rewrite !col_set_cols. cbn. unfold cli_key. rewrite <- !details_field.
      repeat split. intros _. exact Hlen.
    + destruct Hcase as (_ & ->). cbn. unfold cli_key.
      rewrite <- !details_field. repeat split. discriminate.
  - intros c [<- | []]. cbn. apply String.eqb_refl.
  - intros o c [<- | []] _. rewrite col_set_cols. reflexivity.
  - exact I.
  - now rewrite Hs.
Qed.

Lemma http_computeAziendaId_store (payload : json) (w w' : world)
  (id : string) :
  Http.computeAziendaId payload w = (Ok id, w') ->
  store w' = store w /\ faults w' = faults w /\ rep w' = rep w.
Proof.
  unfold Http.computeAziendaId. intros H. bind_inv H. bind_inv H.
  apply lift_ok in Hm, Hm0. destruct Hm as [_ ->]. destruct Hm0 as [_ ->].
  destruct (truthyv _) in H; inversion H; subst; now repeat split.
Qed.

Lemma http_company_row (payload : json) (w w' : world) (id : string) :
  key_unique company_key (rows_of w "companies") ->
  Http.upsertCompany payload w = (Ok id, w') ->
  key_unique company_key (rows_of w' "companies")
  /\ exists x,
       filter (agree company_key (entity_key id)) (rows_of w' "companies")
       = [x]
       /\ (existsb (agree company_key (entity_key id))
             (rows_of w "companies") = true ->
           List.length (rows_of w' "companies")
           = List.length (rows_of w "companies")).
Proof.
  intros Huniq H. unfold Http.upsertCompany in H.
  bind_inv H. apply http_computeAziendaId_store in Hm.
  destruct Hm as (Hs & _ & _).
  cbv zeta in H. bind_inv H. inversion H; subst; clear H.
  unfold Http.upsert in Hm.
  match type of Hm with
  | sql_upsert _ _ _ ?r _ = _ => set (sent := r) in *
  end.
  assert (Hid : col sent "azienda_id" = JStr id) by reflexivity.
  apply sql_upsert_on_key in Hm.
  - destruct Hm as (Hu & x & Hx & Hcase). unfold rows_of.
    rewrite Hs in Hcase. split; [exact Hu |]. exists x.
    fold company_key in Hx, Hcase.
    rewrite <- (filter_ext_eq _ _ _ (agree_entity_key id sent Hid)).
    rewrite <- (existsb_ext_eq _ _ _ (agree_entity_key id sent Hid)).
    split; [exact Hx |].
    destruct (existsb (agree company_key sent) _) eqn:Hex.
    + destruct Hcase as (Hlen & _). intros _. exact Hlen.
    + discriminate.
  - intros c [<- | []]. cbn. apply String.eqb_refl.
  - intros o c [<- | []] Ho. rewrite col_set_cols.
    rewrite <- (agree_cols _ _ _ Ho "azienda_id") by now left. reflexivity.
  - exact I.
  - now rewrite Hs.
Qed.

(** X16. [upsertCompany], when it succeeds on a table with at most one
    row for each entity, leaves at most one row for each entity and one
    row for the entity of the document; the table does not grow when the
    entity had a row. In [index.js] the row has the tax identifiers of
    the document. *)
Theorem company_row_is_unique_per_entity
  (payload : json) (w w' : world) (id : string) :
  key_unique company_key (rows_of w "companies") ->
  (Cli.upsertCompany payload w = (Ok id, w') ->
   key_unique company_key (rows_of w' "companies")
   /\ exists x,
        filter (agree company_key (entity_key id)) (rows_of w' "companies")
        = [x]
        /\ col x "vat_code" = as_text (or_null (cli_key payload "vatCode"))
        /\ col x "tax_code" = as_text (or_null (cli_key payload "taxCode"))
        /\ (existsb (agree company_key (entity_key id))
              (rows_of w "companies") = true ->
            List.length (rows_of w' "companies")
            = List.length (rows_of w "companies")))
  /\ (Http.upsertCompany payload w = (Ok id, w') ->
      key_unique company_key (rows_of w' "companies")
      /\ exists x,
           filter (agree company_key (entity_key id))
             (rows_of w' "companies") = [x]
           /\ (existsb (agree company_key (entity_key id))
                 (rows_of w "companies") = true ->
               List.length (rows_of w' "companies")
               = List.length (rows_of w "companies"))).
Proof.
  intros Huniq. split; intros H.
  - exact (cli_company_row payload w w' id Huniq H).
  - exact (http_company_row payload w w' id Huniq H).
Qed.

(** Two entities with one tax code. *)
Lemma existsb_In {A} (f : A -> bool) (l : list A) (x : A) :
  In x l -> f x = true -> existsb f l = true.
Proof. intros Hin Hf. apply existsb_exists. now exists x. Qed.

(** X17. [upsertCompany] of [index.js] fails, and leaves the store as it
    is, when another entity has the tax code of the document: on the
    unique constraint of [tax_code] when [azienda_id] has the primary key
    that the conflict target names, as in the schema, and on the missing
    constraint otherwise. *)
Theorem cli_shared_tax_code_is_refused
  (payload : json) (w w1 : world) (id t : string) (o : row) :
  faults w = [] ->
  In ["tax_code"] (uniques (store w) "companies") ->
  Cli.computeAziendaId payload w = (Ok id, w1) ->
  as_text (or_null (cli_key payload "taxCode")) = JStr t ->
  In o (rows_of w "companies") ->
  col o "tax_code" = JStr t ->
  key_eqb (col o "azienda_id") (JStr id) = false ->
  fst (Cli.upsertCompany payload w)
  = Throw (if arbiter (store w) "companies" company_key
           then duplicate_key else no_arbiter)
  /\ store (snd (Cli.upsertCompany payload w)) = store w.
Proof.
  intros Hf Hu Hid Htax Ho Hot Hoid.
  assert (Hp : payload <> JNull).
  { intros ->. discriminate Hid. }
  pose proof (computeAziendaId_store _ _ _ _ Hid) as (Hs & Hf1 & _).
  set (refusal := if arbiter (store w) "companies" company_key
                  then duplicate_key else no_arbiter).
  enough (Hrun : Cli.upsertCompany payload w = (Throw refusal, w1))
    by (rewrite Hrun; split; [reflexivity | exact Hs]).
  unfold Cli.upsertCompany. unfold bind at 1. rewrite Hid.
  rewrite !dot_defined by exact Hp. unfold lift, bind at 1 2 3 4. cbv zeta.
  rewrite !details_field. fold (cli_key payload "vatCode").
  fold (cli_key payload "taxCode"). rewrite Htax.
  match goal with
  | |- context [sql_upsert _ _ _ ?r] => set (sent := r)
  end.
  unfold bind at 1.
  assert (E : sql_upsert "companies" ["azienda_id"] (Cli.company_sets sent)
                sent w1 = (Throw refusal, w1)).
  { unfold sql_upsert, bind, round_trip, get_store. rewrite Hf1, Hf, Hs.
    unfold refusal, company_key.
    destruct (arbiter (store w) "companies" ["azienda_id"]);
      cbn [negb]; [| reflexivity].
    unfold rows_of in Ho. set (rows := tables (store w) "companies") in *.
    assert (Hother : agree ["azienda_id"] sent o = false).
    { unfold agree. cbn [forallb].
      change (col sent "azienda_id") with (JStr id).
      now rewrite key_eqb_sym, Hoid. }
    destruct (existsb (agree ["azienda_id"] sent) rows) eqn:Hex.
    - apply existsb_exists in Hex. destruct Hex as (o' & Ho' & Hagree).
      match goal with
      | |- (if ?c then _ else _) _ = _ =>
          assert (Hc : c = true); [| now rewrite Hc]
      end.
      apply (existsb_In _ _ o' Ho'). rewrite Hagree. cbn [andb].
      unfold violates. apply (existsb_In _ _ ["tax_code"] Hu).
      apply (existsb_In _ _ o).
      + apply filter_In. split; [exact Ho | now rewrite Hother].
      + unfold agree. cbn [forallb]. rewrite col_set_cols, Hot. cbn.
        now rewrite String.eqb_refl.
    - unfold with_default_id. cbn.
      match goal with
      | |- (if ?c then _ else _) _ = _ =>
          assert (Hc : c = true); [| now rewrite Hc]
      end.
      unfold violates. apply (existsb_In _ _ ["tax_code"] Hu).
      apply (existsb_In _ _ o Ho). unfold agree. cbn [forallb].
      rewrite Hot. cbn. now rewrite String.eqb_refl. }
  now rewrite E.
Qed.

End Companies.

Lemma company_row_witness :
  key_unique company_key (rows_of Samples.one_company "companies").
Proof.
  refine (proj1 (proj1 (@company_row_is_unique_per_entity Demo.platform
                          Samples.vat_and_tax (Demo.world_on empty_db)
                          Samples.one_company "v5(IT123)" _) _)).
  - vm_compute. constructor.
  - vm_compute. reflexivity.
Defined.

Lemma cli_shared_tax_code_witness :
  fst (@Cli.upsertCompany Demo.platform Samples.same_tax Samples.one_company)
  = Throw duplicate_key
  /\ store (snd (@Cli.upsertCompany Demo.platform Samples.same_tax
                   Samples.one_company))
     = store Samples.one_company.
Proof.
  apply (@cli_shared_tax_code_is_refused Demo.platform Samples.same_tax
           Samples.one_company
           (snd (@Cli.computeAziendaId Demo.platform Samples.same_tax
                   Samples.one_company))
           "v5(IT999)" "T9"
           [("azienda_id", JStr "v5(IT123)"); ("vat_code", JStr "IT123");
            ("tax_code", JStr "T9"); ("company_name", JNull);
            ("legal_form", JNull); ("status", JNull); ("cciaa", JNull);
            ("rea_code", JNull); ("country_code", JNull)]).
  - reflexivity.
  - vm_compute. tauto.
  - vm_compute. reflexivity.
  - reflexivity.
  - vm_compute. now left.
  - reflexivity.
  - reflexivity.
Defined.

(** ** The legend and the unmapped codes *)

Section LegendLookup.
Context {P : Platform}.

Lemma sql_select_ok (t c : string) (v : json) (w w' : world) (res : list row) :
  sql_select t c v w = (Ok res, w') ->
  store w' = store w
  /\ res = filter (fun r => key_eqb (col r c) v) (tables (store w) t).
Proof.
  unfold sql_select. intros H. bind_inv H. bind_inv H.
  apply round_trip_ok in Hm. destruct Hm as [Hs _].
  inversion Hm0; subst. inversion H; subst. now rewrite Hs.
Qed.

Lemma as_text_truthy (v : json) :
  truthy v = true -> as_text v = JStr (pg_text v).
Proof. destruct v; try reflexivity. discriminate. Qed.

(** X18. In [index.js], a line item whose code the legend does not
    describe is recorded in [unmapped_codes]: a first time with 1
    occurrence and its statement; after that the occurrences grow by one
    and the statement recorded first stays. *)
Theorem cli_unmapped_code_is_counted
  (azienda_id : string) (e : entry) (w w' : world) (u : unit) :
  has_keys e = true ->
  e_statement e <> EmptyString ->
  truthyv (e_description e) = false ->
  legend_rows w (e_code e) = [] ->
  key_unique ["code"] (rows_of w "unmapped_codes") ->
  Cli.upsertBalanceEntry azienda_id e w = (Ok u, w') ->
  key_unique ["code"] (rows_of w' "unmapped_codes")
  /\ exists x,
       filter (agree ["code"] (code_key (e_code e)))
         (rows_of w' "unmapped_codes") = [x]
       /\ match filter (agree ["code"] (code_key (e_code e)))
                (rows_of w "unmapped_codes") with
          | [] => col x "occurrences" = JNum 1
                  /\ col x "statement_guess" = JStr (e_statement e)
                  /\ rows_of w' "unmapped_codes"
                     = rows_of w "unmapped_codes" ++ [x]
          | o :: _ => col x "occurrences" = next_occurrence o
                      /\ col x "statement_guess" = col o "statement_guess"
                      /\ List.length (rows_of w' "unmapped_codes")
                         = List.length (rows_of w "unmapped_codes")
          end.
Proof.
  intros Hkeys Hst Hdesc Hleg Huniq H.
  unfold has_keys in Hkeys. apply andb_true_iff in Hkeys.
  destruct Hkeys as [Hyear Hcode].
  unfold Cli.upsertBalanceEntry in H. rewrite Hyear, Hcode in H.
  destruct (String.eqb_spec (e_statement e) EmptyString) as [| _];
    [contradiction |].
  cbn [negb orb] in H. cbv zeta in H.
  assert (Hd0 : truthy (or_null (e_description e)) = false).
  { unfold or_null, jor. rewrite Hdesc. reflexivity. }
  rewrite Hd0 in H. cbn [negb andb] in H.
  bind_inv H. bind_inv Hm. apply sql_select_ok in Hm0.
  destruct Hm0 as [Hs0 ->]. unfold legend_rows, rows_of in Hleg.
  rewrite Hleg in Hm. bind_inv Hm. inversion Hm; subst; clear Hm.
  assert (F : same_table "unmapped_codes" (store w0) (store w')).
  { destruct (pg_integer _); [| discriminate].
    refine (preserves_run _ H). frame same_table_side fail. }
  unfold same_table in F. unfold rows_of in *. rewrite F. clear F H.
  rewrite <- Hs0 in *.
  match type of Hm0 with
  | sql_upsert _ _ _ ?r _ = _ => set (sent := r) in *
  end.
  change (agree ["code"] (code_key (e_code e))) with (agree ["code"] sent).
  apply sql_upsert_on_key in Hm0.
  - destruct Hm0 as (Hu & x & Hx & Hcase). split; [exact Hu |]. exists x.
    split; [exact Hx |].
    destruct (existsb (agree ["code"] sent)
                (tables (store w1) "unmapped_codes"))
      eqn:Hex.
    + destruct Hcase as (Hlen & o & Hin & Hagree & ->).
      destruct (key_unique_one ["code"] sent _ Huniq Hex) as (o' & Ho').
      rewrite Ho'.
      assert (Hoo : In o [o']).
      { rewrite <- Ho'. apply filter_In. now split. }
      destruct Hoo as [-> | []].
      rewrite !col_set_cols. cbn. repeat split. exact Hlen.
    + rewrite (filter_none _ _ Hex). destruct Hcase as (Happ & ->).
      repeat split. exact Happ.
  - intros c [<- | []]. cbn. rewrite (as_text_truthy _ Hcode). cbn.
    apply String.eqb_refl.
  - intros o c [<- | []] _. rewrite col_set_cols. reflexivity.
  - exact I.
  - exact Huniq.
Qed.

(** X19. In [index.js], a line item whose code the legend describes is
    stored with the description of the first row of the legend for the
    code, and [unmapped_codes] is left as it is. *)
Theorem cli_description_comes_from_the_legend
  (azienda_id : string) (e : entry) (w w' : world) (u : unit)
  (first : row) (rest : list row) :
  has_keys e = true ->
  e_statement e <> EmptyString ->
  truthyv (e_description e) = false ->
  legend_rows w (e_code e) = first :: rest ->
  key_unique Cli.balance_key (rows_of w "balance_entries") ->
  Cli.upsertBalanceEntry azienda_id e w = (Ok u, w') ->
  rows_of w' "unmapped_codes" = rows_of w "unmapped_codes"
  /\ exists y x,
       pg_integer (or_null (e_year e)) = Some y
       /\ filter (agree Cli.balance_key (line_key azienda_id y e))
            (rows_of w' "balance_entries") = [x]
       /\ col x "description" = as_text (col first "description").
Proof.
  intros Hkeys Hst Hdesc Hleg Huniq H.
  unfold has_keys in Hkeys. apply andb_true_iff in Hkeys.
  destruct Hkeys as [Hyear Hcode].
  unfold Cli.upsertBalanceEntry in H. rewrite Hyear, Hcode in H.
  destruct (String.eqb_spec (e_statement e) EmptyString) as [| _];
    [contradiction |].
  cbn [negb orb] in H. cbv zeta in H.
  assert (Hd0 : truthy (or_null (e_description e)) = false).
  { unfold or_null, jor. rewrite Hdesc. reflexivity. }
  rewrite Hd0 in H. cbn [negb andb] in H.
  bind_inv H. bind_inv Hm. apply sql_select_ok in Hm0.
  destruct Hm0 as [Hs0 ->]. unfold legend_rows, rows_of in Hleg.
  rewrite Hleg in Hm. inversion Hm; subst; clear Hm.
  destruct (pg_integer (or_null (e_year e))) as [y |] eqn:Hy;
    [| discriminate].
  assert (F : same_table "unmapped_codes" (store w0) (store w')).
  { refine (preserves_run _ H). frame same_table_side fail. }
  unfold same_table in F. unfold rows_of in *. rewrite F, Hs0.
  split; [reflexivity |]. exists y.
  match type of H with
  | sql_upsert _ _ _ ?r _ = _ => set (sent := r) in *
  end.
  change (agree Cli.balance_key (line_key azienda_id y e))
    with (agree Cli.balance_key sent).
  apply sql_upsert_on_key in H.
  - destruct H as (_ & x & Hx & Hcase). exists x.
    split; [reflexivity | split; [exact Hx |]].
    destruct (existsb _ _).
    + destruct Hcase as (_ & o & _ & _ & ->). rewrite col_set_cols.
      reflexivity.
    + destruct Hcase as (_ & v & ->). reflexivity.
  - intros c Hc. cbn in Hc.
    destruct Hc as [<- | [<- | [<- | [<- | []]]]]; cbn;
      try apply String.eqb_refl; try apply Z.eqb_refl.
    change (key_eqb (as_text (e_code e)) (as_text (e_code e)) = true).
    rewrite (as_text_truthy _ Hcode). cbn. apply String.eqb_refl.
  - intros o c Hc _. rewrite col_set_cols. cbn in Hc.
    destruct Hc as [<- | [<- | [<- | [<- | []]]]]; reflexivity.
  - cbn. intros [E | [E | [E | [E | []]]]]; discriminate E.
  - now rewrite Hs0.
Qed.

End LegendLookup.

Lemma cli_unmapped_code_witness :
  key_unique ["code"] (rows_of Samples.after_second_upsert "unmapped_codes").
Proof.
  refine (proj1 (@cli_unmapped_code_is_counted Demo.platform
                   "v5(IT12345678901)" (Samples.line_item 150)
                   Samples.after_first_upsert Samples.after_second_upsert tt
                   _ _ _ _ _ _)).
  - reflexivity.
  - discriminate.
  - reflexivity.
  - reflexivity.
  - vm_compute. repeat constructor.
  - vm_compute. reflexivity.
Defined.

Lemma cli_description_witness :
  rows_of Samples.after_described_upsert "unmapped_codes"
  = rows_of Samples.with_legend "unmapped_codes".
Proof.
  refine (proj1 (@cli_description_comes_from_the_legend Demo.platform
                   "v5(IT12345678901)" (Samples.line_item 100)
                   Samples.with_legend Samples.after_described_upsert tt
                   [("code", JStr "A1"); ("description", JStr "Ricavi")] []
                   _ _ _ _ _ _)).
  - reflexivity.
  - discriminate.
  - reflexivity.
  - reflexivity.
  - vm_compute. constructor.
  - vm_compute. reflexivity.
Defined.

(** ** Frames under a condition *)

Lemma preserves_bind_lift (Q : db -> db -> Prop) {A B} (r : result A)
  (k : A -> M B) :
  (forall d, Q d d) ->
  (forall a, r = Ok a -> preserves Q (k a)) -> preserves Q (bind (lift r) k).
Proof.
  intros Hrefl Hk w. unfold bind, lift. destruct r as [a | e]; cbn [snd].
  - now apply Hk.
  - apply Hrefl.
Qed.

Lemma preserves_for_each_in (Q : db -> db -> Prop) {A} (l : list A)
  (body : A -> M unit) :
  (forall d, Q d d) -> (forall a b c, Q a b -> Q b c -> Q a c) ->
  (forall x, In x l -> preserves Q (body x)) -> preserves Q (for_each l body).
Proof.
  intros Hrefl Htrans Hb. induction l as [| x l IH]; cbn [for_each].
  - now apply preserves_ret.
  - apply preserves_bind; [exact Htrans | apply Hb; now left | intros _].
    apply IH. intros y Hy. apply Hb. now right.
Qed.

Section HttpUnmapped.
Context {P : Platform}.

Lemma http_row_passes (e : entry) :
  http_row e ->
  negb (truthyv (e_year e)) || String.eqb (e_statement e) EmptyString
  || negb (truthy (e_code e)) = false
  /\ truthy (or_null (e_description e)) = true.
Proof.
  intros (Hk & Hs & Hd & _). unfold has_keys in Hk.
  apply andb_true_iff in Hk. destruct Hk as [-> ->]. split.
  - cbn. unfold statements in Hs. cbn in Hs.
    destruct Hs as [<- | [<- | [<- | []]]]; reflexivity.
  - unfold or_null, jor. rewrite Hd. destruct (e_description e); [exact Hd |
    discriminate].
Qed.

Lemma http_complete_row_leaves_unmapped (azienda_id : string) (e : entry) :
  http_row e ->
  preserves (same_table "unmapped_codes")
    (Http.upsertBalanceEntry azienda_id e).
Proof.
  intros He. destruct (http_row_passes e He) as [Hc Hd].
  unfold Http.upsertBalanceEntry. rewrite Hc. cbv zeta. rewrite Hd.
  cbn [negb]. frame same_table_side fail.
Qed.

Ltac extracted_rows :=
  idtac;
  match goal with
  | |- preserves _ (bind (lift (Http.extractBalanceEntries _)) _) =>
      apply preserves_bind_lift; [apply same_table_refl |];
      let es := fresh "es" in
      let Hes := fresh "Hes" in
      intros es Hes; apply http_rows_complete in Hes
  | H : Forall http_row ?es
    |- preserves _ (Http.upsertBalanceEntries _ ?es) =>
      apply preserves_for_each_in;
      [ apply same_table_refl | apply same_table_trans
      | rewrite Forall_forall in H; intros x Hx;
        apply http_complete_row_leaves_unmapped; now apply H ]
  end.

Lemma http_attempt_leaves_unmapped (payload : json) (id : string) :
  preserves (same_table "unmapped_codes") (Http.attempt_run payload id).
Proof.
  unfold Http.attempt_run, Http.upsertCompany, Http.computeAziendaId,
    Http.insertCompanyVersion, Http.insertRawSection, Http.upsertContacts,
    Http.upsertAddresses, Http.upsertAteco, Http.promote, Http.ensureColumn.
  frame same_table_side extracted_rows.
Qed.

End HttpUnmapped.

(** ** The report along a run *)

Lemma quiet_bind {A B} (m : M A) (k : A -> M B) :
  quiet m -> (forall a, quiet (k a)) -> quiet (bind m k).
Proof.
  intros Hm Hk w. unfold bind. specialize (Hm w).
  destruct (m w) as [[a | e] w1]; cbn [snd] in *; [| exact Hm].
  now rewrite Hk.
Qed.

Lemma quiet_ret {A} (a : A) : quiet (ret a).
Proof. now intros w. Qed.

Lemma quiet_throw {A} (e : string) : quiet (@throw A e).
Proof. now intros w. Qed.

Lemma quiet_get_store : quiet get_store.
Proof. now intros w. Qed.

Lemma quiet_put_store (d : db) : quiet (put_store d).
Proof. now intros w. Qed.

Section Quiet.
Context {P : Platform}.

Lemma quiet_round_trip : quiet round_trip.
Proof.
  intros w. unfold round_trip. now destruct (faults w) as [| [msg |] rest].
Qed.

Lemma quiet_fresh_uuidv4 : quiet fresh_uuidv4.
Proof. now intros w. Qed.

Lemma quiet_with_default_id (t : string) (r : row) :
  quiet (with_default_id t r).
Proof. intros w. unfold with_default_id. now destruct (default_id t). Qed.

Ltac quiet_steps :=
  repeat first
    [ apply quiet_ret | apply quiet_throw | apply quiet_get_store
    | apply quiet_put_store | apply quiet_round_trip
    | apply quiet_with_default_id | apply quiet_bind
    | progress intros
    | match goal with
      | |- quiet (if ?b then _ else _) => destruct b
      end ].

Lemma quiet_sql_insert (t : string) (r : row) : quiet (sql_insert t r).
Proof. unfold sql_insert. quiet_steps. Qed.

Lemma quiet_sql_insert_do_nothing (t : string) (r : row) :
  quiet (sql_insert_do_nothing t r).
Proof. unfold sql_insert_do_nothing. quiet_steps. Qed.

Lemma quiet_sql_upsert (t : string) (K : list string) sets (r : row) :
  quiet (sql_upsert t K sets r).
Proof. unfold sql_upsert. quiet_steps. Qed.

Lemma quiet_sql_select (t c : string) (v : json) : quiet (sql_select t c v).
Proof. unfold sql_select. quiet_steps. Qed.

Lemma quiet_column_exists (t c : string) : quiet (column_exists t c).
Proof. unfold column_exists. quiet_steps. Qed.

Lemma quiet_alter_add_column (t c : string) : quiet (alter_add_column t c).
Proof. unfold alter_add_column. quiet_steps. Qed.

Lemma quiet_add_column_if_missing (t c : string) :
  quiet (add_column_if_missing t c).
Proof. unfold add_column_if_missing. quiet_steps. Qed.

Lemma quiet_execSQL {A} (m : M A) : quiet m -> quiet (Http.execSQL m).
Proof.
  intros Hm w. unfold Http.execSQL. specialize (Hm w).
  now destruct (m w) as [[a | e] w1].
Qed.

Lemma quiet_attempt {A} (m : M A) : quiet m -> quiet (Http.attempt m).
Proof.
  intros Hm w. unfold Http.attempt. specialize (Hm w).
  now destruct (m w) as [[a | e] w1].
Qed.

End Quiet.

Section Keeps.
Variable R : report -> report -> Prop.
Hypothesis R_refl : forall r, R r r.
Hypothesis R_trans : forall a b c, R a b -> R b c -> R a c.

Lemma keeps_quiet {A} (m : M A) : quiet m -> keeps R m.
Proof. intros Hm w. rewrite Hm. apply R_refl. Qed.

Lemma keeps_bind {A B} (m : M A) (k : A -> M B) :
  keeps R m -> (forall a, keeps R (k a)) -> keeps R (bind m k).
Proof.
  intros Hm Hk w. unfold bind. specialize (Hm w).
  destruct (m w) as [[a | msg] w1]; cbn [snd] in *.
  - eapply R_trans; [exact Hm | apply Hk].
  - exact Hm.
Qed.

Lemma keeps_bind_lift {A B} (r : result A) (k : A -> M B) :
  (forall a, r = Ok a -> keeps R (k a)) -> keeps R (bind (lift r) k).
Proof.
  intros Hk w. unfold bind, lift. destruct r as [a | e]; cbn [snd].
  - now apply Hk.
  - apply R_refl.
Qed.

Lemma keeps_lift {A} (r : result A) : keeps R (lift r).
Proof. intros w. apply R_refl. Qed.

Lemma keeps_get_rep : keeps R get_rep.
Proof. intros w. apply R_refl. Qed.

Lemma keeps_for_each_in {A} (l : list A) (body : A -> M unit) :
  (forall x, In x l -> keeps R (body x)) -> keeps R (for_each l body).
Proof.
  intros Hb. induction l as [| x l IH]; cbn [for_each].
  - intros w. apply R_refl.
  - apply keeps_bind; [apply Hb; now left | intros _].
    apply IH. intros y Hy. apply Hb. now right.
Qed.

Lemma keeps_for_each {A} (l : list A) (body : A -> M unit) :
  (forall x, keeps R (body x)) -> keeps R (for_each l body).
Proof. intros Hb. apply keeps_for_each_in. intros x _. apply Hb. Qed.

End Keeps.

Lemma keeps_run {R : report -> report -> Prop} {A} {m : M A} {w w' : world}
  {r : result A} :
  keeps R m -> m w = (r, w') -> R (rep w) (rep w').
Proof. intros Hm E. specialize (Hm w). now rewrite E in Hm. Qed.

(** The steps of a proof that a run keeps a relation on its report;
    [updates] closes the steps that write to the report. *)
Ltac report_frame R_refl R_trans updates special :=
  repeat first
    [ special
    | updates
    | progress cbv zeta
    | progress intros
    | match goal with
      | |- keeps _ (ret _) =>
          apply keeps_quiet; [exact R_refl | apply quiet_ret]
      | |- keeps _ (throw _) =>
          apply keeps_quiet; [exact R_refl | apply quiet_throw]
      | |- keeps _ (lift _) => apply keeps_lift; exact R_refl
      | |- keeps _ get_rep => apply keeps_get_rep; exact R_refl
      | |- keeps _ round_trip =>
          apply keeps_quiet; [exact R_refl | apply quiet_round_trip]
      | |- keeps _ fresh_uuidv4 =>
          apply keeps_quiet; [exact R_refl | apply quiet_fresh_uuidv4]
      | |- keeps _ (sql_insert _ _) =>
          apply keeps_quiet; [exact R_refl | apply quiet_sql_insert]
      | |- keeps _ (Http.insert _ _) =>
          apply keeps_quiet; [exact R_refl | apply quiet_sql_insert]
      | |- keeps _ (sql_insert_do_nothing _ _) =>
          apply keeps_quiet; [exact R_refl | apply quiet_sql_insert_do_nothing]
      | |- keeps _ (sql_upsert _ _ _ _) =>
          apply keeps_quiet; [exact R_refl | apply quiet_sql_upsert]
      | |- keeps _ (Http.upsert _ _ _) =>
          apply keeps_quiet; [exact R_refl | apply quiet_sql_upsert]
      | |- keeps _ (sql_select _ _ _) =>
          apply keeps_quiet; [exact R_refl | apply quiet_sql_select]
      | |- keeps _ (column_exists _ _) =>
          apply keeps_quiet; [exact R_refl | apply quiet_column_exists]
      | |- keeps _ (alter_add_column _ _) =>
          apply keeps_quiet; [exact R_refl | apply quiet_alter_add_column]
      | |- keeps _ (Http.execSQL (add_column_if_missing _ _)) =>
          apply keeps_quiet;
          [exact R_refl | apply quiet_execSQL, quiet_add_column_if_missing]
      | |- keeps _ (Http.attempt (sql_select _ _ _)) =>
          apply keeps_quiet;
          [exact R_refl | apply quiet_attempt, quiet_sql_select]
      | |- keeps _ (for_each _ _) =>
          apply keeps_for_each; [exact R_refl | exact R_trans |]
      | |- keeps _ (bind _ _) => apply keeps_bind; [exact R_trans | |]
      | |- keeps _ (match ?x with _ => _ end) => destruct x
      end ].

Lemma same_warnings_refl (r : report) : same_warnings r r.
Proof. reflexivity. Qed.

Lemma same_warnings_trans (a b c : report) :
  same_warnings a b -> same_warnings b c -> same_warnings a c.
Proof. unfold same_warnings. congruence. Qed.

Lemma same_counters_refl (r : report) : same_counters r r.
Proof. now split. Qed.

Lemma same_counters_trans (a b c : report) :
  same_counters a b -> same_counters b c -> same_counters a c.
Proof. unfold same_counters. intros [? ?] [? ?]. split; congruence. Qed.

Ltac warnings_updates :=
  idtac;
  match goal with
  | |- keeps same_warnings (push_created _ _) => intros ?; reflexivity
  | |- keeps same_warnings (count_insert _ _) => intros ?; reflexivity
  | |- keeps same_warnings (count_skip _) => intros ?; reflexivity
  | |- keeps same_warnings (set_status _) => intros ?; reflexivity
  end.

Ltac counters_updates :=
  idtac;
  match goal with
  | |- keeps same_counters (push_created _ _) => intros ?; now split
  | |- keeps same_counters (push_warning _) => intros ?; now split
  | |- keeps same_counters (set_status _) => intros ?; now split
  end.

Section HttpWarnings.
Context {P : Platform}.

Lemma http_complete_row_is_not_warned (azienda_id : string) (e : entry) :
  http_row e -> keeps same_warnings (Http.upsertBalanceEntry azienda_id e).
Proof.
  intros He. destruct (http_row_passes e He) as [Hc Hd].
  unfold Http.upsertBalanceEntry. rewrite Hc. cbv zeta. rewrite Hd.
  cbn [negb].
  report_frame same_warnings_refl same_warnings_trans warnings_updates fail.
Qed.

Ltac unwarned_rows :=
  idtac;
  match goal with
  | |- keeps _ (bind (lift (Http.extractBalanceEntries _)) _) =>
      apply keeps_bind_lift; [exact same_warnings_refl |];
      let es := fresh "es" in
      let Hes := fresh "Hes" in
      intros es Hes; apply http_rows_complete in Hes
  | H : Forall http_row ?es
    |- keeps _ (Http.upsertBalanceEntries _ ?es) =>
      apply keeps_for_each_in;
      [ exact same_warnings_refl | exact same_warnings_trans
      | rewrite Forall_forall in H; intros x Hx;
        apply http_complete_row_is_not_warned; now apply H ]
  end.

Lemma http_attempt_warns_of_nothing (payload : json) (id : string) :
  keeps same_warnings (Http.attempt_run payload id).
Proof.
  unfold Http.attempt_run, Http.upsertCompany, Http.computeAziendaId,
    Http.insertCompanyVersion, Http.insertRawSection, Http.upsertContacts,
    Http.upsertAddresses, Http.upsertAteco, Http.promote, Http.ensureColumn.
  report_frame same_warnings_refl same_warnings_trans warnings_updates
    unwarned_rows.
Qed.

End HttpWarnings.

(** ** The counters of the report *)

Section Counters.
Context {P : Platform}.

Lemma count_step (section : string) (n : nat) (work : M unit)
  (w w' : world) (u : unit) :
  keeps same_counters work ->
  (if negb (n =? 0)%nat then work ;;; count_insert section n
   else count_skip section) w = (Ok u, w') ->
  counted section n (rep w) (rep w').
Proof.
  intros Hw H. unfold counted. destruct (n =? 0)%nat; cbn [negb] in H.
  - inversion H; subst. now split.
  - bind_inv H. apply (keeps_run Hw) in Hm. destruct Hm as [Hi Hs].
    inversion H; subst. cbn. now rewrite Hi, Hs.
Qed.

Lemma cli_upsertContacts_counters (id : string) (c : json) (eff : string) :
  keeps same_counters (Cli.upsertContacts id c eff).
Proof.
  unfold Cli.upsertContacts, Cli.promote, Cli.ensureColumn.
  report_frame same_counters_refl same_counters_trans counters_updates fail.
Qed.

Lemma cli_upsertAddresses_counters (id : string) (l : list json)
  (eff : string) :
  keeps same_counters (Cli.upsertAddresses id l eff).
Proof.
  unfold Cli.upsertAddresses, Cli.promote, Cli.ensureColumn.
  report_frame same_counters_refl same_counters_trans counters_updates fail.
Qed.

Lemma cli_upsertBalanceEntries_counters (id : string) (l : list entry) :
  keeps same_counters (Cli.upsertBalanceEntries id l).
Proof.
  unfold Cli.upsertBalanceEntries, Cli.upsertBalanceEntry.
  report_frame same_counters_refl same_counters_trans counters_updates fail.
Qed.

Lemma cli_prologue_counters (payload : json) :
  keeps same_counters (Cli.upsertCompany payload)
  /\ (forall a e, keeps same_counters (Cli.insertCompanyVersion a payload e))
  /\ (forall a s e, keeps same_counters (Cli.insertRawSection a s e payload)).
Proof.
  split; [| split]; intros;
    unfold Cli.upsertCompany, Cli.computeAziendaId, Cli.insertCompanyVersion,
      Cli.insertRawSection;
    report_frame same_counters_refl same_counters_trans counters_updates fail.
Qed.

Lemma record_run_counters (st : run_status) (id a : string) (k : M string) :
  quiet k ->
  keeps same_counters
    (set_status st ;;;
     r <- get_rep ;;
     sql_insert "ingestions" (run_row id a r) ;;; k).
Proof.
  intros Hk.
  report_frame same_counters_refl same_counters_trans counters_updates
    ltac:(apply keeps_quiet; [exact same_counters_refl | exact Hk]).
Qed.

Lemma cli_counters (payload : json) (id a : string) (w w' : world) :
  inserts (rep w) = [] -> skips (rep w) = [] ->
  Cli.transaction payload id w = (Ok a, w') ->
  exists contacts addresses,
    Cli.extractContacts payload = Ok contacts
    /\ Cli.extractAddresses payload = Ok addresses
    /\ inserts (rep w') = inserted (cli_sections payload contacts addresses)
    /\ skips (rep w') = skipped (cli_sections payload contacts addresses).
Proof.
  intros Hi0 Hs0 H. unfold Cli.transaction in H.
  do 10 (bind_inv H).
  repeat match goal with
         | E : lift _ _ = (Ok _, _) |- _ =>
             apply lift_ok in E; destruct E as [? ->]
         end.
  match goal with
  | Hc : Cli.extractContacts payload = Ok ?c,
    Ha : Cli.extractAddresses payload = Ok ?l |- _ =>
      exists c, l; split; [exact Hc | split; [exact Ha |]];
      rename c into contacts; rename l into addresses
  end.
  destruct (cli_prologue_counters payload) as (Kc & Kv & Kr).
  repeat match goal with
         | E : round_trip _ = (Ok _, _) |- _ =>
             apply round_trip_ok in E; destruct E as [_ E]
         | E : Cli.upsertCompany _ _ = (Ok _, _) |- _ =>
             apply (keeps_run Kc) in E
         | E : Cli.insertCompanyVersion _ _ _ _ = (Ok _, _) |- _ =>
             apply (keeps_run (Kv _ _)) in E
         | E : Cli.insertRawSection _ _ _ _ _ = (Ok _, _) |- _ =>
             apply (keeps_run (Kr _ _ _)) in E
         | E : (match contacts with _ => _ end) ?wa = (Ok _, ?wb) |- _ =>
             assert (counted "contacts" (found contacts) (rep wa) (rep wb));
             [ destruct contacts; cbn [found];
               [ eapply count_step; [| exact E];
                 apply cli_upsertContacts_counters
               | inversion E; subst; now split ]
             | clear E ]
         | E : (if negb (List.length addresses =? 0)%nat then _ else _) _
               = (Ok _, _) |- _ =>
             apply count_step in E; [| apply cli_upsertAddresses_counters]
         | E : (if negb (List.length (Cli.extractBalanceEntries _) =? 0)%nat
                then _ else _) _ = (Ok _, _) |- _ =>
             apply count_step in E; [| apply cli_upsertBalanceEntries_counters]
         end.
  eapply (@keeps_run same_counters) in H;
    [| apply record_run_counters, quiet_bind;
       [apply quiet_round_trip | intros; apply quiet_ret]].
  unfold same_counters, counted in *.
  repeat match goal with
         | E : _ /\ _ |- _ => destruct E as [? ?]
         end.
  repeat match goal with
         | E : inserts _ = _ |- _ => rewrite E; clear E
         | E : skips _ = _ |- _ => rewrite E; clear E
         | E : rep _ = rep _ |- _ => rewrite E in *; clear E
         end.
  unfold inserted, skipped, cli_sections. cbn [filter map fst snd].
  destruct contacts; cbn [found Nat.eqb negb];
    destruct (List.length addresses =? 0)%nat; cbn [negb];
    destruct (List.length (Cli.extractBalanceEntries payload) =? 0)%nat;
    cbn; split; reflexivity.
Qed.

End Counters.

Section Counters2.
Context {P : Platform}.

Lemma http_upsertContacts_counters (id : string) (c : json) (eff : string) :
  keeps same_counters (Http.upsertContacts id c eff).
Proof.
  unfold Http.upsertContacts, Http.promote, Http.ensureColumn.
  report_frame same_counters_refl same_counters_trans counters_updates fail.
Qed.

Lemma http_upsertAddresses_counters (id : string) (l : list json)
  (eff : string) :
  keeps same_counters (Http.upsertAddresses id l eff).
Proof.
  unfold Http.upsertAddresses, Http.promote, Http.ensureColumn.
  report_frame same_counters_refl same_counters_trans counters_updates fail.
Qed.

Lemma http_upsertAteco_counters (id : string) (l : list json) (eff : string) :
  keeps same_counters (Http.upsertAteco id l eff).
Proof.
  unfold Http.upsertAteco.
  report_frame same_counters_refl same_counters_trans counters_updates fail.
Qed.

Lemma http_upsertBalanceEntries_counters (id : string) (l : list entry) :
  keeps same_counters (Http.upsertBalanceEntries id l).
Proof.
  unfold Http.upsertBalanceEntries, Http.upsertBalanceEntry.
  report_frame same_counters_refl same_counters_trans counters_updates fail.
Qed.

Lemma http_prologue_counters (payload : json) :
  keeps same_counters (Http.upsertCompany payload)
  /\ (forall a e, keeps same_counters (Http.insertCompanyVersion a payload e))
  /\ (forall a s e, keeps same_counters (Http.insertRawSection a s e payload)).
Proof.
  split; [| split]; intros;
    unfold Http.upsertCompany, Http.computeAziendaId,
      Http.insertCompanyVersion, Http.insertRawSection;
    report_frame same_counters_refl same_counters_trans counters_updates fail.
Qed.

Lemma http_counters (payload : json) (id a : string) (w w' : world) :
  inserts (rep w) = [] -> skips (rep w) = [] ->
  Http.attempt_run payload id w = (Ok a, w') ->
  exists addresses entries,
    Http.extractAddresses payload = Ok addresses
    /\ Http.extractBalanceEntries payload = Ok entries
    /\ inserts (rep w') = inserted (http_sections payload addresses entries)
    /\ skips (rep w') = skipped (http_sections payload addresses entries).
Proof.
  intros Hi0 Hs0 H. unfold Http.attempt_run in H.
  do 10 (cbv zeta in H; bind_inv H).
  repeat match goal with
         | E : lift _ _ = (Ok _, _) |- _ =>
             apply lift_ok in E; destruct E as [? ->]
         end.
  match goal with
  | Ha : Http.extractAddresses payload = Ok ?l,
    Hb : Http.extractBalanceEntries payload = Ok ?es |- _ =>
      exists l, es; split; [exact Ha | split; [exact Hb |]];
      rename l into addresses; rename es into entries
  end.
  destruct (http_prologue_counters payload) as (Kc & Kv & Kr).
  cbv zeta in H.
  repeat match goal with
         | E : Http.upsertCompany _ _ = (Ok _, _) |- _ =>
             apply (keeps_run Kc) in E
         | E : Http.insertCompanyVersion _ _ _ _ = (Ok _, _) |- _ =>
             apply (keeps_run (Kv _ _)) in E
         | E : Http.insertRawSection _ _ _ _ _ = (Ok _, _) |- _ =>
             apply (keeps_run (Kr _ _ _)) in E
         | E : (match Http.extractContacts payload with _ => _ end) ?wa
               = (Ok _, ?wb) |- _ =>
             assert (counted "contacts" (found (Http.extractContacts payload))
                       (rep wa) (rep wb));
             [ destruct (Http.extractContacts payload); cbn [found];
               [ eapply count_step; [| exact E];
                 apply http_upsertContacts_counters
               | inversion E; subst; now split ]
             | clear E ]
         | E : (if negb (List.length addresses =? 0)%nat then _ else _) _
               = (Ok _, _) |- _ =>
             apply count_step in E; [| apply http_upsertAddresses_counters]
         | E : (if negb (List.length (Http.extractAteco _) =? 0)%nat
                then _ else _) _ = (Ok _, _) |- _ =>
             apply count_step in E; [| apply http_upsertAteco_counters]
         | E : (if negb (List.length entries =? 0)%nat then _ else _) _
               = (Ok _, _) |- _ =>
             apply count_step in E; [| apply http_upsertBalanceEntries_counters]
         end.
  eapply (@keeps_run same_counters) in H;
    [| apply record_run_counters, quiet_ret].
  unfold same_counters, counted in *.
  repeat match goal with
         | E : _ /\ _ |- _ => destruct E as [? ?]
         end.
  repeat match goal with
         | E : inserts _ = _ |- _ => rewrite E; clear E
         | E : skips _ = _ |- _ => rewrite E; clear E
         end.
  unfold inserted, skipped, http_sections. cbn [filter map fst snd].
  destruct (Http.extractContacts payload); cbn [found Nat.eqb negb];
    destruct (List.length addresses =? 0)%nat; cbn [negb];
    destruct (List.length (Http.extractAteco payload) =? 0)%nat; cbn [negb];
    destruct (List.length entries =? 0)%nat;
    cbn; split; reflexivity.
Qed.

End Counters2.

Lemma cli_main_exit0 {P : Platform} (payload : json) (w w' : world)
  (id : string) (r : report) :
  Cli.main payload w = (Cli.Exit0 id r, w') ->
  exists i w1,
    (round_trip ;;; fresh_uuidv4) w = (Ok i, w1)
    /\ Cli.transaction payload i (set_rep (initial_report i) w1) = (Ok id, w')
    /\ r = rep w'.
Proof.
  unfold Cli.main. intros H.
  destruct ((round_trip ;;; fresh_uuidv4) w) as [[i | e] w1] eqn:E0;
    [| discriminate].
  destruct (Cli.transaction payload i _) as [[a | e] w3] eqn:E1.
  - inversion H; subst. now exists i, w1.
  - destruct (Cli.insert_error_row _ _ _) as [[u | e'] w5]; discriminate.
Qed.

Lemma http_main_exit0 {P : Platform} (payload : json) (w w' : world)
  (id : string) (r : report) :
  Http.main payload w = (Http.Exit0 id r, w') ->
  Http.attempt_run payload (uuidv4 (js_draws w))
    (set_rep (initial_report (uuidv4 (js_draws w))) (drawn w)) = (Ok id, w')
  /\ r = rep w'.
Proof.
  unfold Http.main. intros H.
  destruct payload; try discriminate; cbn in H;
    match type of H with
    | match ?m with _ => _ end = _ =>
        destruct m as [[a | e] w3] eqn:E1; inversion H; subst;
        split; [exact E1 | reflexivity]
    end.
Qed.

(** X13. A run of [index.http.js] leaves the table [unmapped_codes] as it
    is, and the report of a run that ends well has no warning. *)
Theorem http_run_has_no_warning_and_no_unmapped_code :
  forall (P : Platform) (payload : json) (w : world),
    rows_of (snd (Http.main payload w)) "unmapped_codes"
    = rows_of w "unmapped_codes"
    /\ forall (id : string) (r : report),
         fst (Http.main payload w) = Http.Exit0 id r -> warnings r = [].
Proof.
  intros P payload w. split.
  - apply (http_main_keeps (same_table "unmapped_codes") payload
             (same_table_refl _) (same_table_trans _)
             (http_attempt_leaves_unmapped payload)).
    intros id msg. apply preserves_sql_insert;
      [apply same_table_refl | apply same_table_trans |].
    now apply same_table_free.
  - intros id r H. destruct (Http.main payload w) as [o w'] eqn:E.
    cbn [fst] in H. subst o. apply http_main_exit0 in E.
    destruct E as (E & ->).
    apply (keeps_run (http_attempt_warns_of_nothing payload _)) in E.
    exact E.
Qed.

Lemma http_run_witness :
  warnings
    (mkReport "v4#0"
       [("addresses", mkColumnResult true "floor" (Some "bigint"));
        ("addresses", mkColumnResult true "floor" (Some "bigint"))]
       [("addresses", 2%nat)]
       [("contacts", 1%nat); ("ateco", 1%nat); ("balance_entries", 1%nat)]
       [] UPDATED)
  = [].
Proof.
  apply (proj2 (http_run_has_no_warning_and_no_unmapped_code Demo.platform
                  Samples.with_floor (Demo.world_on empty_db))
           "v5(IT12345678901)").
  vm_compute. reflexivity.
Defined.

(** X14. In the report of a run that ends well, every section is counted
    once: in [inserts] with the number of facets extracted when there are
    some, in [skips] with 1 when there are none. *)
Theorem report_counts_each_section_once :
  forall (P : Platform) (payload : json) (w w' : world) (id : string)
         (r : report),
    (Cli.main payload w = (Cli.Exit0 id r, w') ->
     exists contacts addresses,
       Cli.extractContacts payload = Ok contacts
       /\ Cli.extractAddresses payload = Ok addresses
       /\ inserts r = inserted (cli_sections payload contacts addresses)
       /\ skips r = skipped (cli_sections payload contacts addresses))
    /\ (Http.main payload w = (Http.Exit0 id r, w') ->
        exists addresses entries,
          Http.extractAddresses payload = Ok addresses
          /\ Http.extractBalanceEntries payload = Ok entries
          /\ inserts r = inserted (http_sections payload addresses entries)
          /\ skips r = skipped (http_sections payload addresses entries)).
Proof.
  intros P payload w w' id r. split; intros H.
  - apply cli_main_exit0 in H. destruct H as (i & w1 & _ & H & ->).
    now apply cli_counters in H.
  - apply http_main_exit0 in H. destruct H as (H & ->).
    now apply http_counters in H.
Qed.

Lemma report_counts_witness :
  exists contacts addresses,
    Cli.extractContacts Samples.with_floor = Ok contacts
    /\ Cli.extractAddresses Samples.with_floor = Ok addresses
    /\ [("addresses", 1%nat)]
       = inserted (cli_sections Samples.with_floor contacts addresses)
    /\ [("contacts", 1%nat); ("balance_entries", 1%nat)]
       = skipped (cli_sections Samples.with_floor contacts addresses).
Proof.
  apply (proj1 (report_counts_each_section_once Demo.platform
                  Samples.with_floor (Demo.world_on empty_db)
                  (snd (@Cli.main Demo.platform Samples.with_floor
                          (Demo.world_on empty_db)))
                  "v5(IT12345678901)"
                  (mkReport "v4#0"
                     [("addresses",
                       mkColumnResult true "floor" (Some "bigint"))]
                     [("addresses", 1%nat)]
                     [("contacts", 1%nat); ("balance_entries", 1%nat)] []
                     UPDATED))).
  vm_compute. reflexivity.
Defined.

(** ** The rows a run adds for its facets *)

Lemma gained_nothing (t : string) (w w' : world) :
  same_table t (store w) (store w') -> gained t [] w w'.
Proof.
  intros H. exists []. unfold rows_of. rewrite H, app_nil_r. now split.
Qed.

Lemma gained_trans (t : string) (a b : list json) (w w1 w2 : world) :
  gained t a w w1 -> gained t b w1 w2 -> gained t (a ++ b) w w2.
Proof.
  intros (x & Hx & Ha) (y & Hy & Hb). exists (x ++ y).
  rewrite Hy, Hx, app_assoc. split; [reflexivity |].
  unfold raw_of in *. now rewrite map_app, Ha, Hb.
Qed.

Lemma gained_before (t : string) (a : list json) (w w1 w2 : world) :
  same_table t (store w) (store w1) -> gained t a w1 w2 -> gained t a w w2.
Proof.
  intros H G. apply (gained_trans t [] a w w1 w2); [| exact G].
  now apply gained_nothing.
Qed.

Lemma gained_after (t : string) (a : list json) (w w1 w2 : world) :
  gained t a w w1 -> same_table t (store w1) (store w2) -> gained t a w w2.
Proof.
  intros G H. rewrite <- (app_nil_r a).
  apply (gained_trans t a [] w w1 w2); [exact G |]. now apply gained_nothing.
Qed.

Ltac other_steps opener :=
  repeat match goal with
         | E : ?m ?x = (Ok _, ?y) |- gained ?t _ ?x _ =>
             apply (gained_before t _ x y);
             [ solve [ refine (preserves_run _ E); opener;
                       frame same_table_side fail ] | ]
         end.

Section Gains.
Context {P : Platform}.

Lemma insert_gains (t : string) (r : row) (doc : json) (w w' : world)
  (u : unit) :
  col r "raw_json" = doc ->
  match default_id t with
  | Some c => String.eqb "raw_json" c = false
  | None => True
  end ->
  sql_insert t r w = (Ok u, w') -> gained t [doc] w w'.
Proof.
  intros Hdoc Hid H. apply sql_insert_appends in H.
  destruct H as (r' & Hr' & Happ). exists [r']. split; [exact Happ |].
  unfold raw_of. cbn. f_equal. destruct (default_id t) as [c |].
  - destruct Hr' as (v & ->). unfold col in *. cbn [assoc]. now rewrite Hid.
  - now subst.
Qed.

Lemma cli_upsertContacts_gains (id : string) (c : json) (eff : string)
  (w w' : world) (u : unit) :
  Cli.upsertContacts id c eff w = (Ok u, w') -> gained "contacts" [c] w w'.
Proof.
  unfold Cli.upsertContacts. intros H. bind_inv H.
  eapply gained_before.
  - refine (preserves_run _ Hm). unfold Cli.promote, Cli.ensureColumn.
    frame same_table_side fail.
  - eapply insert_gains; [| | exact H]; reflexivity.
Qed.

Lemma cli_upsertAddresses_gains (id : string) (l : list json) (eff : string) :
  forall (w w' : world) (u : unit),
    Cli.upsertAddresses id l eff w = (Ok u, w') -> gained "addresses" l w w'.
Proof.
  unfold Cli.upsertAddresses.
  induction l as [| addr l IH]; intros w w' u H; cbn [for_each] in H.
  - inversion H; subst. apply gained_nothing, same_table_refl.
  - bind_inv H. apply IH in H.
    apply (gained_trans "addresses" [addr] l w w0 w'); [| exact H].
    bind_inv Hm. apply lift_ok in Hm0. destruct Hm0 as [_ ->].
    bind_inv Hm. eapply gained_before.
    + refine (preserves_run _ Hm0). unfold Cli.promote, Cli.ensureColumn.
      frame same_table_side fail.
    + eapply insert_gains; [| | exact Hm]; reflexivity.
Qed.

Lemma cli_gains (payload : json) (id a : string) (w w' : world) :
  Cli.transaction payload id w = (Ok a, w') ->
  exists contacts addresses,
    Cli.extractContacts payload = Ok contacts
    /\ Cli.extractAddresses payload = Ok addresses
    /\ gained "contacts" (found_list contacts) w w'
    /\ gained "addresses" addresses w w'.
Proof.
  intros H. unfold Cli.transaction in H.
  do 10 (bind_inv H).
  repeat match goal with
         | E : lift _ _ = (Ok _, _) |- _ =>
             apply lift_ok in E; destruct E as [? ->]
         end.
  match goal with
  | Hc : Cli.extractContacts payload = Ok ?c,
    Ha : Cli.extractAddresses payload = Ok ?l |- _ =>
      exists c, l; split; [exact Hc | split; [exact Ha |]];
      rename c into contacts; rename l into addresses
  end.
  split.
  - other_steps ltac:(open_cli).
    match goal with
    | E : (match contacts with _ => _ end) ?wa = (Ok _, ?wb) |- _ =>
        apply (gained_after _ _ _ wb);
        [ destruct contacts; cbn [found_list];
          [ bind_inv E;
            match goal with
            | G : Cli.upsertContacts _ _ _ _ = (Ok _, _) |- _ =>
                apply cli_upsertContacts_gains in G;
                apply (gained_after _ _ _ _ _ G)
            end;
            refine (preserves_run _ E); frame same_table_side fail
          | apply gained_nothing; refine (preserves_run _ E);
            frame same_table_side fail ]
        | clear E ]
    end.
    chain_frames ltac:(open_cli; frame same_table_side fail).
  - other_steps ltac:(open_cli).
    match goal with
    | E : (if negb (List.length addresses =? 0)%nat then _ else _) ?wa
          = (Ok _, ?wb) |- _ =>
        apply (gained_after _ _ _ wb);
        [ destruct addresses as [| addr rest];
          [ apply gained_nothing; refine (preserves_run _ E);
            frame same_table_side fail
          | cbn [List.length Nat.eqb negb] in E; bind_inv E;
            match goal with
            | G : Cli.upsertAddresses _ _ _ _ = (Ok _, _) |- _ =>
                apply cli_upsertAddresses_gains in G;
                apply (gained_after _ _ _ _ _ G)
            end;
            refine (preserves_run _ E); frame same_table_side fail ]
        | clear E ]
    end.
    chain_frames ltac:(open_cli; frame same_table_side fail).
Qed.

End Gains.

Section Gains2.
Context {P : Platform}.

Lemma http_upsertContacts_gains (id : string) (c : json) (eff : string)
  (w w' : world) (u : unit) :
  Http.upsertContacts id c eff w = (Ok u, w') -> gained "contacts" [c] w w'.
Proof.
  unfold Http.upsertContacts. intros H. bind_inv H.
  eapply gained_before.
  - refine (preserves_run _ Hm). unfold Http.promote, Http.ensureColumn.
    frame same_table_side fail.
  - eapply insert_gains; [| | exact H]; reflexivity.
Qed.

Lemma http_upsertAddresses_gains (id : string) (l : list json) (eff : string) :
  forall (w w' : world) (u : unit),
    Http.upsertAddresses id l eff w = (Ok u, w') -> gained "addresses" l w w'.
Proof.
  unfold Http.upsertAddresses.
  induction l as [| addr l IH]; intros w w' u H; cbn [for_each] in H.
  - inversion H; subst. apply gained_nothing, same_table_refl.
  - bind_inv H. apply IH in H.
    apply (gained_trans "addresses" [addr] l w w0 w'); [| exact H].
    bind_inv Hm. apply lift_ok in Hm0. destruct Hm0 as [_ ->].
    bind_inv Hm. eapply gained_before.
    + refine (preserves_run _ Hm0). unfold Http.promote, Http.ensureColumn.
      frame same_table_side fail.
    + eapply insert_gains; [| | exact Hm]; reflexivity.
Qed.

Lemma http_upsertAteco_gains (id : string) (l : list json) (eff : string) :
  forall (w w' : world) (u : unit),
    Http.upsertAteco id l eff w = (Ok u, w') -> gained "ateco" l w w'.
Proof.
  unfold Http.upsertAteco.
  induction l as [| x l IH]; intros w w' u H; cbn [for_each] in H.
  - inversion H; subst. apply gained_nothing, same_table_refl.
  - bind_inv H. apply IH in H.
    apply (gained_trans "ateco" [x] l w w0 w'); [| exact H].
    bind_inv Hm. eapply gained_before.
    + refine (preserves_run _ Hm0). frame same_table_side fail.
    + eapply insert_gains; [| | exact Hm]; reflexivity.
Qed.

Lemma http_gains (payload : json) (id a : string) (w w' : world) :
  Http.attempt_run payload id w = (Ok a, w') ->
  exists addresses,
    Http.extractAddresses payload = Ok addresses
    /\ gained "contacts" (found_list (Http.extractContacts payload)) w w'
    /\ gained "addresses" addresses w w'
    /\ gained "ateco" (Http.extractAteco payload) w w'.
Proof.
  intros H. unfold Http.attempt_run in H.
  do 10 (cbv zeta in H; bind_inv H).
  repeat match goal with
         | E : lift _ _ = (Ok _, _) |- _ =>
             apply lift_ok in E; destruct E as [? ->]
         end.
  match goal with
  | Ha : Http.extractAddresses payload = Ok ?l |- _ =>
      exists l; split; [exact Ha |]; rename l into addresses
  end.
  cbv zeta in H.
  split; [| split].
  - other_steps ltac:(open_http).
    match goal with
    | E : (match Http.extractContacts payload with _ => _ end) ?wa
          = (Ok _, ?wb) |- _ =>
        apply (gained_after _ _ _ wb);
        [ destruct (Http.extractContacts payload); cbn [found_list];
          [ bind_inv E;
            match goal with
            | G : Http.upsertContacts _ _ _ _ = (Ok _, _) |- _ =>
                apply http_upsertContacts_gains in G;
                apply (gained_after _ _ _ _ _ G)
            end;
            refine (preserves_run _ E); frame same_table_side fail
          | apply gained_nothing; refine (preserves_run _ E);
            frame same_table_side fail ]
        | clear E ]
    end.
    chain_frames ltac:(open_http; frame same_table_side fail).
  - other_steps ltac:(open_http).
    match goal with
    | E : (if negb (List.length addresses =? 0)%nat then _ else _) ?wa
          = (Ok _, ?wb) |- _ =>
        apply (gained_after _ _ _ wb);
        [ destruct addresses as [| addr rest];
          [ apply gained_nothing; refine (preserves_run _ E);
            frame same_table_side fail
          | cbn [List.length Nat.eqb negb] in E; bind_inv E;
            match goal with
            | G : Http.upsertAddresses _ _ _ _ = (Ok _, _) |- _ =>
                apply http_upsertAddresses_gains in G;
                apply (gained_after _ _ _ _ _ G)
            end;
            refine (preserves_run _ E); frame same_table_side fail ]
        | clear E ]
    end.
    chain_frames ltac:(open_http; frame same_table_side fail).
  - other_steps ltac:(open_http).
    match goal with
    | E : (if negb (List.length (Http.extractAteco payload) =? 0)%nat
           then _ else _) ?wa = (Ok _, ?wb) |- _ =>
        apply (gained_after _ _ _ wb);
        [ destruct (Http.extractAteco payload) as [| x rest];
          [ apply gained_nothing; refine (preserves_run _ E);
            frame same_table_side fail
          | cbn [List.length Nat.eqb negb] in E; bind_inv E;
            match goal with
            | G : Http.upsertAteco _ _ _ _ = (Ok _, _) |- _ =>
                apply http_upsertAteco_gains in G;
                apply (gained_after _ _ _ _ _ G)
            end;
            refine (preserves_run _ E); frame same_table_side fail ]
        | clear E ]
    end.
    chain_frames ltac:(open_http; frame same_table_side fail).
Qed.

End Gains2.

(** X15. A run that ends well appends to [contacts], [addresses] and
    (for [index.http.js]) [ateco] one row for each facet extracted, in the
    order of extraction, with the facet in [raw_json]. *)
Theorem run_adds_one_row_per_facet :
  forall (P : Platform) (payload : json) (w w' : world) (id : string)
         (r : report),
    (Cli.main payload w = (Cli.Exit0 id r, w') ->
     exists contacts addresses,
       Cli.extractContacts payload = Ok contacts
       /\ Cli.extractAddresses payload = Ok addresses
       /\ gained "contacts" (found_list contacts) w w'
       /\ gained "addresses" addresses w w')
    /\ (Http.main payload w = (Http.Exit0 id r, w') ->
        exists addresses,
          Http.extractAddresses payload = Ok addresses
          /\ gained "contacts" (found_list (Http.extractContacts payload))
               w w'
          /\ gained "addresses" addresses w w'
          /\ gained "ateco" (Http.extractAteco payload) w w').
Proof.
  intros P payload w w' id r. split; intros H.
  - apply cli_main_exit0 in H. destruct H as (i & w1 & E0 & H & _).
    apply connect_store in E0. apply cli_gains in H.
    destruct H as (c & l & Hc & Hl & (x & Hx & Gx) & (y & Hy & Gy)).
    exists c, l. repeat split; try assumption.
    + exists x. unfold rows_of in *. cbn in Hx. rewrite E0 in Hx. now split.
    + exists y. unfold rows_of in *. cbn in Hy. rewrite E0 in Hy. now split.
  - apply http_main_exit0 in H. destruct H as (H & _).
    apply http_gains in H. exact H.
Qed.

Lemma run_adds_one_row_per_facet_witness :
  exists contacts addresses,
    Cli.extractContacts Samples.with_floor = Ok contacts
    /\ Cli.extractAddresses Samples.with_floor = Ok addresses
    /\ gained "contacts" (found_list contacts) (Demo.world_on empty_db)
         (snd (@Cli.main Demo.platform Samples.with_floor
                 (Demo.world_on empty_db)))
    /\ gained "addresses" addresses (Demo.world_on empty_db)
         (snd (@Cli.main Demo.platform Samples.with_floor
                 (Demo.world_on empty_db))).
Proof.
  refine (proj1 (run_adds_one_row_per_facet Demo.platform Samples.with_floor
                   (Demo.world_on empty_db) _ "v5(IT12345678901)"
                   (rep (snd (@Cli.main Demo.platform Samples.with_floor
                                (Demo.world_on empty_db))))) _).
  vm_compute. reflexivity.
Defined.

(** ** The columns of [contacts] *)

Section ContactColumns.
Context {P : Platform}.

Lemma cli_ensureColumn_present (t k : string) (v : json) (w : world) :
  mem (toSnakeCase k) (columns (store w) t) = true ->
  store (snd (Cli.ensureColumn t k v w)) = store w
  /\ rep (snd (Cli.ensureColumn t k v w)) = rep w
  /\ forall r, fst (Cli.ensureColumn t k v w) = Ok r -> created r = false.
Proof.
  intros Hk. unfold Cli.ensureColumn, column_exists, bind, round_trip,
    get_store, ret. cbv zeta.
  destruct (faults w) as [| [msg |] rest]; cbn; rewrite ?Hk; cbn;
    repeat split; try discriminate; intros r E; now inversion E.
Qed.

Lemma snd_bind {A B} (m : M A) (k : A -> M B) (w : world) :
  snd (bind m k w)
  = match m w with
    | (Ok a, w1) => snd (k a w1)
    | (Throw _, w1) => w1
    end.
Proof. unfold bind. now destruct (m w) as [[a | e] w1]. Qed.

Lemma cli_promote_step (t : string) (known : list string) (k : string)
  (v : json) (w : world) :
  mem (toSnakeCase k) (columns (store w) t) = true ->
  let step : M unit :=
    if is_scalar v && negb (mem k known) then
      res <- Cli.ensureColumn t k v ;;
      if created res then push_created t res else ret tt
    else ret tt in
  store (snd (step w)) = store w
  /\ createdColumns (rep (snd (step w))) = createdColumns (rep w).
Proof.
  intros Hk step. subst step. destruct (is_scalar v && negb (mem k known));
    [| now split].
  destruct (cli_ensureColumn_present t k v w Hk) as (Hs & Hr & Hc).
  unfold bind.
  destruct (Cli.ensureColumn t k v w) as [[r | e] w1]; cbn [snd fst] in *.
  - rewrite (Hc r eq_refl). cbn [ret snd]. now rewrite Hs, Hr.
  - now rewrite Hs, Hr.
Qed.

Lemma cli_promote_present (t : string) (known : list string)
  (props : list (string * json)) :
  forall w,
    (forall kv, In kv props ->
                mem (toSnakeCase (fst kv)) (columns (store w) t) = true) ->
    store (snd (Cli.promote t known props w)) = store w
    /\ createdColumns (rep (snd (Cli.promote t known props w)))
       = createdColumns (rep w).
Proof.
  unfold Cli.promote. induction props as [| [k v] props IH]; intros w Hk;
    cbn [for_each]; [now split |].
  destruct (cli_promote_step t known k v w (Hk (k, v) (or_introl eq_refl)))
    as [Hs Hr].
  cbv zeta in Hs, Hr. rewrite snd_bind.
  match goal with
  | |- context [match ?m w with _ => _ end] =>
      destruct (m w) as [[u | e] w1]
  end; cbn [snd] in *.
  - destruct (IH w1) as [Hs' Hr'].
    + intros kv Hin. rewrite Hs. apply Hk. now right.
    + now rewrite Hs', Hr', Hs, Hr.
  - now split.
Qed.

Lemma sql_insert_columns (t : string) (r : row) (w : world) :
  columns (store (snd (sql_insert t r w))) = columns (store w)
  /\ rep (snd (sql_insert t r w)) = rep w.
Proof.
  split; [| apply quiet_sql_insert].
  unfold sql_insert, bind, round_trip, with_default_id, get_store.
  destruct (faults w) as [| [msg |] rest]; try reflexivity;
    destruct (default_id t); cbn; destruct (violates _ _ _ _); reflexivity.
Qed.

Lemma cli_contacts_shape (payload c : json) :
  Cli.extractContacts payload = Ok (Some c) ->
  map fst (entries c) = contact_columns.
Proof.
  unfold Cli.extractContacts.
  destruct (dot (Some payload) "phone") as [p |]; [| discriminate].
  destruct (dot (Some payload) "email") as [e |]; [| discriminate].
  destruct (dot (Some payload) "pec") as [x |]; [| discriminate].
  destruct (dot (Some payload) "website") as [s |]; [| discriminate].
  cbn [rbind]. destruct (_ && _); intros E; inversion E. reflexivity.
Qed.

Lemma http_contacts_shape (payload c : json) :
  Http.extractContacts payload = Some c ->
  map fst (entries c) = contact_columns.
Proof.
  unfold Http.extractContacts. cbv zeta.
  destruct (_ || _); intros E; inversion E. reflexivity.
Qed.

Lemma http_promote_known (t : string) (known : list string)
  (props : list (string * json)) (w : world) :
  (forall kv, In kv props -> mem (fst kv) known = true) ->
  Http.promote t known props w = (Ok tt, w).
Proof.
  unfold Http.promote. revert w.
  induction props as [| [k v] props IH]; intros w Hk; cbn [for_each];
    [reflexivity |].
  pose proof (Hk (k, v) (or_introl eq_refl)) as Hkv. cbn [fst] in Hkv.
  unfold bind. rewrite Hkv, andb_false_r.
  cbn [ret negb]. apply IH. intros kv Hin. apply Hk. now right.
Qed.

(** X21. Storing the contacts extracted from a document adds no column
    and reports none: in [index.js] when the table has the four columns
    of the schema, in [index.http.js] always. *)
Theorem contacts_never_add_a_column
  (payload c : json) (id eff : string) (w : world) :
  (Cli.extractContacts payload = Ok (Some c) ->
   (forall k, In k contact_columns ->
              mem k (columns (store w) "contacts") = true) ->
   columns (store (snd (Cli.upsertContacts id c eff w))) = columns (store w)
   /\ createdColumns (rep (snd (Cli.upsertContacts id c eff w)))
      = createdColumns (rep w))
  /\ (Http.extractContacts payload = Some c ->
      columns (store (snd (Http.upsertContacts id c eff w)))
      = columns (store w)
      /\ createdColumns (rep (snd (Http.upsertContacts id c eff w)))
         = createdColumns (rep w)).
Proof.
  split.
  - intros Hc Hcols. apply cli_contacts_shape in Hc.
    unfold Cli.upsertContacts. rewrite snd_bind.
    assert (Hk : forall kv, In kv (entries c) ->
               mem (toSnakeCase (fst kv)) (columns (store w) "contacts")
               = true).
    { intros kv Hin. apply (in_map fst) in Hin. rewrite Hc in Hin.
      cbn in Hin.
      destruct Hin as [<- | [<- | [<- | [<- | []]]]]; apply Hcols; cbn; tauto. }
    destruct (cli_promote_present "contacts" [] (entries c) w Hk) as [Hs Hr].
    destruct (Cli.promote "contacts" [] (entries c) w) as [[u | e] w1];
      cbn [snd] in *.
    + match goal with
      | |- context [sql_insert ?t ?r w1] =>
          destruct (sql_insert_columns t r w1) as [Hs1 Hr1]
      end.
      rewrite Hs1, Hr1, Hs, Hr. now split.
    + rewrite Hs, Hr. now split.
  - intros Hc. apply http_contacts_shape in Hc.
    unfold Http.upsertContacts. rewrite snd_bind.
    rewrite http_promote_known.
    + match goal with
      | |- context [Http.insert ?t ?r w] =>
          destruct (sql_insert_columns t r w) as [Hs1 Hr1]
      end.
      unfold Http.insert. now rewrite Hs1, Hr1.
    + intros kv Hin. apply (in_map fst) in Hin. rewrite Hc in Hin.
      cbn in Hin. destruct Hin as [<- | [<- | [<- | [<- | []]]]]; reflexivity.
Qed.

End ContactColumns.

Lemma contacts_never_add_a_column_witness :
  columns
    (store (snd (@Http.upsertContacts Demo.platform "v5(IT12345678901)"
                   (JObj [("phone", JStr "+39 06 1234"); ("email", JNull);
                          ("pec", JNull); ("website", JNull)])
                   "2026-01-01T00:00:00.000Z" (Demo.world_on empty_db))))
  = columns (store (Demo.world_on empty_db))
  /\ createdColumns
       (rep (snd (@Http.upsertContacts Demo.platform "v5(IT12345678901)"
                    (JObj [("phone", JStr "+39 06 1234"); ("email", JNull);
                           ("pec", JNull); ("website", JNull)])
                    "2026-01-01T00:00:00.000Z" (Demo.world_on empty_db))))
     = createdColumns (rep (Demo.world_on empty_db)).
Proof.
  apply (proj2 (@contacts_never_add_a_column Demo.platform Samples.with_phone
                  (JObj [("phone", JStr "+39 06 1234"); ("email", JNull);
                         ("pec", JNull); ("website", JNull)])
                  "v5(IT12345678901)" "2026-01-01T00:00:00.000Z"
                  (Demo.world_on empty_db))).
  reflexivity.
Defined.

(** ** [ensureColumn] of [index.http.js] *)

Section HttpColumn.
Context {P : Platform}.

Lemma add_column_if_missing_ok (t c : string) (w w' : world) (u : unit) :
  add_column_if_missing t c w = (Ok u, w') ->
  store w' = (if mem c (columns (store w) t) then store w
              else add_column t c (store w))
  /\ mem c (columns (store w') t) = true.
Proof.
  unfold add_column_if_missing, bind, round_trip, get_store, put_store, ret.
  destruct (faults w) as [| [m |] rest]; try discriminate; cbn -[mem];
    destruct (mem c (columns (store w) t)) eqn:Hc; intros E; inversion E;
    subst; cbn -[mem]; rewrite ?String.eqb_refl, ?mem_added; auto.
Qed.

Lemma http_ensureColumn_ok (t c : string) (v : json) (w w' : world)
  (r : column_result) :
  Http.ensureColumn t c v w = (Ok r, w') ->
  store w' = (if mem (toSnakeCase c) (columns (store w) t) then store w
              else add_column t (toSnakeCase c) (store w))
  /\ mem (toSnakeCase c) (columns (store w') t) = true.
Proof.
  unfold Http.ensureColumn. cbv zeta. intros H. bind_inv H.
  inversion H; subst. unfold Http.execSQL in Hm.
  destruct (add_column_if_missing t (toSnakeCase c) w) as [[u | e] w1] eqn:E;
    inversion Hm; subst.
  now apply add_column_if_missing_ok in E.
Qed.

(** X22. [ensureColumn] of [index.http.js] called twice for a column:
    the first call leaves the column in place and the rows as they are,
    the second changes nothing in the store and still reports the column
    as created. *)
Theorem http_ensureColumn_adds_the_column_once (t c : string) (v v' : json)
  (w w1 w2 : world) (r1 r2 : column_result) :
  Http.ensureColumn t c v w = (Ok r1, w1) ->
  Http.ensureColumn t c v' w1 = (Ok r2, w2) ->
  mem (toSnakeCase c) (columns (store w1) t) = true
  /\ tables (store w1) = tables (store w)
  /\ store w2 = store w1
  /\ created r2 = true.
Proof.
  intros H1 H2. pose proof (http_ensureColumn_always_created _ _ _ _ _ _ H2).
  apply http_ensureColumn_ok in H1, H2.
  destruct H1 as [Hs1 Hm1]. destruct H2 as [Hs2 _]. rewrite Hm1 in Hs2.
  repeat split; try assumption.
  rewrite Hs1. now destruct (mem _ _).
Qed.

End HttpColumn.

Lemma http_ensureColumn_witness :
  mem (toSnakeCase "floor")
    (columns (store (Samples.with_column "addresses" "floor"
                       (Demo.world_on empty_db)))
       "addresses") = true
  /\ tables (store (Samples.with_column "addresses" "floor"
                      (Demo.world_on empty_db)))
     = tables (store (Demo.world_on empty_db))
  /\ store (Samples.with_column "addresses" "floor"
              (Samples.with_column "addresses" "floor"
                 (Demo.world_on empty_db)))
     = store (Samples.with_column "addresses" "floor"
                (Demo.world_on empty_db))
  /\ created (mkColumnResult true "floor" (Some "bigint")) = true.
Proof.
  apply (@http_ensureColumn_adds_the_column_once Demo.platform "addresses"
           "floor" (JNum 3) (JNum 3) (Demo.world_on empty_db)
           (Samples.with_column "addresses" "floor" (Demo.world_on empty_db))
           (Samples.with_column "addresses" "floor"
              (Samples.with_column "addresses" "floor"
                 (Demo.world_on empty_db)))
           (mkColumnResult true "floor" (Some "bigint"))
           (mkColumnResult true "floor" (Some "bigint")));
    vm_compute; reflexivity.
Defined.

(** ** [isNewer] *)

(** X23. On dates that are given, [isNewer] is irreflexive, asymmetric
    and transitive. *)
Theorem isNewer_is_a_strict_order (getTime : jsval -> option Z)
  (a b c : jsval) :
  truthyv a = true -> truthyv b = true -> truthyv c = true ->
  Cli.isNewer getTime a a = false
  /\ (Cli.isNewer getTime a b = true -> Cli.isNewer getTime b a = false)
  /\ (Cli.isNewer getTime a b = true -> Cli.isNewer getTime b c = true ->
      Cli.isNewer getTime a c = true).
Proof.
  intros Ha Hb Hc. unfold Cli.isNewer. rewrite Ha, Hb, Hc. cbn [negb].
  destruct (getTime a) as [ta |], (getTime b) as [tb |],
    (getTime c) as [tc |]; repeat split; try discriminate; try reflexivity;
    rewrite ?Z.ltb_lt, ?Z.ltb_ge; lia.
Qed.

Lemma isNewer_witness :
  Cli.isNewer epoch_of (Some (JNum 7)) (Some (JNum 7)) = false
  /\ (Cli.isNewer epoch_of (Some (JNum 7)) (Some (JNum 5)) = true ->
      Cli.isNewer epoch_of (Some (JNum 5)) (Some (JNum 7)) = false)
  /\ (Cli.isNewer epoch_of (Some (JNum 7)) (Some (JNum 5)) = true ->
      Cli.isNewer epoch_of (Some (JNum 5)) (Some (JNum 3)) = true ->
      Cli.isNewer epoch_of (Some (JNum 7)) (Some (JNum 3)) = true).
Proof.
  apply (isNewer_is_a_strict_order epoch_of (Some (JNum 7)) (Some (JNum 5))
           (Some (JNum 3))); reflexivity.
Defined.

(** ** The batches of [populateLegendCodes] *)

Lemma slices_cover {A} (l : list A) (fuel : nat) :
  forall i,
    (List.length l - i <= fuel)%nat ->
    List.concat (map (fun i => Legend.slice i (i + Legend.batchSize) l)
              (Legend.starts_from fuel i (List.length l)))
    = skipn i l.
Proof.
  induction fuel as [| fuel IH]; intros i Hi; cbn [Legend.starts_from].
  - cbn. symmetry. apply skipn_all2. lia.
  - destruct (Nat.ltb_spec i (List.length l)) as [Hlt | Hge].
    + cbn [map List.concat]. rewrite IH by (unfold Legend.batchSize; lia).
      unfold Legend.slice.
      replace (i + Legend.batchSize - i)%nat with Legend.batchSize by lia.
      rewrite Nat.add_comm, <- skipn_skipn. apply firstn_skipn.
    + cbn. symmetry. apply skipn_all2. lia.
Qed.

Lemma slices_sized {A} (l : list A) (fuel : nat) :
  forall i,
    Forall (fun b => (1 <= List.length b <= Legend.batchSize)%nat)
      (map (fun i => Legend.slice i (i + Legend.batchSize) l)
         (Legend.starts_from fuel i (List.length l))).
Proof.
  induction fuel as [| fuel IH]; intros i; cbn [Legend.starts_from];
    [constructor |].
  destruct (Nat.ltb_spec i (List.length l)) as [Hlt | Hge]; [| constructor].
  cbn [map]. constructor; [| apply IH].
  unfold Legend.slice. rewrite length_firstn, length_skipn.
  unfold Legend.batchSize. lia.
Qed.

Lemma batches_cover {A} (l : list A) :
  List.concat (Legend.batches l) = l
  /\ Forall (fun b => (1 <= List.length b <= Legend.batchSize)%nat)
       (Legend.batches l).
Proof.
  unfold Legend.batches. split; [| apply slices_sized].
  rewrite slices_cover by lia. reflexivity.
Qed.

(** X24. The batches [populateLegendCodes] inserts hold every code once,
    in order, and each batch has between 1 and 100 codes. *)
Theorem batches_split_the_codes {A} (l : list A) :
  List.concat (Legend.batches l) = l
  /\ Forall (fun b => (1 <= List.length b <= Legend.batchSize)%nat)
       (Legend.batches l).
Proof. apply batches_cover. Qed.

(** ** [clearDatabase] *)

Lemma delete_neq_no_column (t c : string) (v : json) (w : world) :
  mem c (columns (store w) t) = false ->
  exists e w1, delete_neq t c v w = (Throw e, w1) /\ store w1 = store w.
Proof.
  intros Hc. unfold delete_neq, bind, round_trip, get_store.
  destruct (faults w) as [| [msg |] rest]; cbn -[mem]; rewrite ?Hc;
    cbn -[mem]; do 2 eexists; split; reflexivity.
Qed.

Lemma clear_tables_no_column (ts : list string) :
  forall w,
    (forall t, In t ts -> mem "id" (columns (store w) t) = false) ->
    exists w', Clear.clear_tables ts w = (Ok [], w') /\ store w' = store w.
Proof.
  induction ts as [| t ts IH]; intros w Hid; cbn [Clear.clear_tables];
    [now exists w |].
  destruct (delete_neq_no_column t "id" Clear.nil_uuid w
              (Hid t (or_introl eq_refl))) as (e & w1 & E & Hs).
  destruct (IH w1) as (w2 & E2 & Hs2).
  { intros t' Ht'. rewrite Hs. apply Hid. now right. }
  exists w2. unfold bind, Http.attempt. rewrite E, E2. cbn.
  split; [reflexivity | congruence].
Qed.

(** X27. [clearDatabase] filters on a column [id]: when no table it goes
    through has one, every deletion is refused, no table is reported as
    emptied and the store is left as it is. *)
Theorem clearDatabase_clears_nothing_without_an_id_column (w : world) :
  (forall t, In t Clear.tables_to_clear ->
             mem "id" (columns (store w) t) = false) ->
  fst (Clear.clearDatabase w) = Ok []
  /\ store (snd (Clear.clearDatabase w)) = store w.
Proof.
  intros Hid. unfold Clear.clearDatabase.
  destruct (clear_tables_no_column _ w Hid) as (w' & -> & Hs). now split.
Qed.

Lemma clearDatabase_witness :
  fst (Clear.clearDatabase
         (Samples.cli_twice Samples.with_floor)) = Ok []
  /\ store (snd (Clear.clearDatabase
                   (Samples.cli_twice Samples.with_floor)))
     = store (Samples.cli_twice Samples.with_floor).
Proof.
  apply (clearDatabase_clears_nothing_without_an_id_column
           (Samples.cli_twice Samples.with_floor)).
  intros t Ht. cbn in Ht.
  repeat (destruct Ht as [<- | Ht]; [vm_compute; reflexivity |]).
  contradiction.
Defined.

(** ** [populateLegendCodes] *)

Lemma key_unique_split (K : list string) (a b : list row) :
  key_unique K (a ++ b) ->
  key_unique K a /\ key_unique K b
  /\ forall x y, In x a -> In y b -> agree K x y = false.
Proof.
  unfold key_unique. induction a as [| r a IH]; cbn; intros H.
  - repeat split; [constructor | exact H | intros x y []].
  - inversion H as [| ? ? Hr Hrest]; subst.
    destruct (IH Hrest) as (Ha & Hb & Hab).
    apply Forall_app in Hr. destruct Hr as [Hra Hrb].
    repeat split; [now constructor | exact Hb |].
    intros x y [<- | Hx] Hy.
    + rewrite Forall_forall in Hrb. now apply Hrb.
    + now apply Hab.
Qed.

Section Populate.
Context {P : Platform}.

Lemma section_rows_missing (schemaData : json) (name statement : string) :
  field schemaData name = undefined ->
  exists msg, Legend.section_rows schemaData name statement = Throw msg.
Proof.
  intros H. unfold Legend.section_rows.
  destruct schemaData; cbn [dot rbind]; try rewrite H; cbn; eauto.
Qed.

Lemma allCodes_missing (schemaData : json) (name : string) :
  In name legend_sections -> field schemaData name = undefined ->
  exists msg, Legend.allCodes schemaData = Throw msg.
Proof.
  intros Hin H. unfold Legend.allCodes. cbn in Hin.
  destruct Hin as [<- | [<- | [<- | []]]].
  - destruct (section_rows_missing schemaData _ "SP_A" H) as (m & ->).
    cbn. eauto.
  - destruct (Legend.section_rows _ "stato_patrimoniale_attivo" _); cbn;
      [| eauto].
    destruct (section_rows_missing schemaData _ "SP_P" H) as (m & ->).
    cbn. eauto.
  - destruct (Legend.section_rows _ "stato_patrimoniale_attivo" _); cbn;
      [| eauto].
    destruct (Legend.section_rows _ "stato_patrimoniale_passivo" _); cbn;
      [| eauto].
    destruct (section_rows_missing schemaData _ "CE" H) as (m & ->).
    cbn. eauto.
Qed.

Lemma delete_codes_ok (w : world) :
  faults w = [] ->
  mem "code" (columns (store w) "legend_codes") = true ->
  Legend.delete_codes w
  = (Ok tt,
     set_store (set_table "legend_codes"
                  (without_code (rows_of w "legend_codes")) (store w)) w).
Proof.
  intros Hf Hc. unfold Legend.delete_codes, delete_neq, bind, round_trip,
    get_store. rewrite Hf, Hc. cbn [negb].
  assert (Hfk : existsb
                  (fun r => differs (col r "code") (JStr EmptyString)
                            && referenced (store w) "legend_codes" r)
                  (tables (store w) "legend_codes") = false).
  { induction (tables (store w) "legend_codes") as [| r l IH];
      [reflexivity |].
    cbn [existsb]. rewrite IH. unfold referenced. cbn.
    now rewrite andb_false_r. }
  rewrite Hfk. reflexivity.
Qed.

(** X25. [populateLegendCodes] on a schema file that lacks one of its
    three sections: the legend has been emptied when the exception is
    caught, and nothing is inserted. *)
Theorem populate_empties_the_table_before_it_reads_the_codes
  (schemaData : json) (name : string) (w : world) :
  In name legend_sections -> field schemaData name = undefined ->
  faults w = [] ->
  mem "code" (columns (store w) "legend_codes") = true ->
  exists w',
    Legend.populateLegendCodes schemaData w = (Ok None, w')
    /\ rows_of w' "legend_codes" = without_code (rows_of w "legend_codes").
Proof.
  intros Hin Hmiss Hf Hc.
  destruct (allCodes_missing schemaData name Hin Hmiss) as (msg & Hall).
  unfold Legend.populateLegendCodes, bind, Http.attempt.
  rewrite (delete_codes_ok w Hf Hc), Hall. cbn [ret].
  eexists. split; [reflexivity |]. unfold rows_of. cbn.
  reflexivity.
Qed.

(** The schema file with its three sections. *)
Lemma agree_false_sym (K : list string) (a b : row) :
  agree K a b = false -> agree K b a = false.
Proof. now rewrite agree_sym. Qed.

Lemma existsb_none {A} (f : A -> bool) (l : list A) :
  (forall x, In x l -> f x = false) -> existsb f l = false.
Proof.
  intros H. induction l as [| a l IH]; cbn; [reflexivity |].
  rewrite H by now left. apply IH. intros x Hx. apply H. now right.
Qed.

Lemma add_rows_ok (d : db) (rows : list row) :
  uniques d "legend_codes" = [["code"]] ->
  forall acc,
    Forall coded rows ->
    (forall r a, In r rows -> In a acc -> agree ["code"] r a = false) ->
    key_unique ["code"] rows ->
    Legend.add_rows d rows acc = Some (acc ++ rows).
Proof.
  intros Hu. induction rows as [| r rows IH]; intros acc Hc Hx Hk;
    cbn [Legend.add_rows]; [now rewrite app_nil_r |].
  inversion Hc as [| ? ? (s & Hs & _) Hc']; subst. rewrite Hs.
  unfold violates. rewrite Hu. cbn [existsb].
  rewrite existsb_none by (intros a Ha; apply Hx; [now left | exact Ha]).
  cbn [orb]. inversion Hk as [| ? ? Hr Hk']; subst.
  rewrite IH; [now rewrite <- app_assoc | exact Hc' | | exact Hk'].
  intros x a Hin Ha. apply in_app_or in Ha. destruct Ha as [Ha | [<- | []]].
  - apply Hx; [now right | exact Ha].
  - apply agree_false_sym. rewrite Forall_forall in Hr. now apply Hr.
Qed.

Lemma insert_batches_ok (bs : list (list row)) :
  forall (n : nat) (w : world),
    faults w = [] ->
    uniques (store w) "legend_codes" = [["code"]] ->
    Forall coded (List.concat bs) ->
    (forall r a, In r (List.concat bs) -> In a (rows_of w "legend_codes") ->
                 agree ["code"] r a = false) ->
    key_unique ["code"] (List.concat bs) ->
    exists w',
      Legend.insert_batches bs n w
      = (Ok (n + List.length (List.concat bs))%nat, w')
      /\ rows_of w' "legend_codes"
         = rows_of w "legend_codes" ++ List.concat bs
      /\ faults w' = [].
Proof.
  induction bs as [| b bs IH]; intros n w Hf Hu Hc Hx Hk;
    cbn [Legend.insert_batches List.concat].
  - exists w. cbn. rewrite Nat.add_0_r, app_nil_r. now repeat split.
  - cbn [List.concat] in Hc, Hx, Hk. apply Forall_app in Hc.
    destruct Hc as [Hcb Hcr].
    destruct (key_unique_split _ _ _ Hk) as (Hkb & Hkr & Hbr).
    unfold bind at 1. unfold Http.attempt, Legend.insert_batch, bind,
      round_trip, get_store. rewrite Hf.
    rewrite (add_rows_ok (store w) b Hu (tables (store w) "legend_codes")
               Hcb)
      by first [ exact Hkb
               | intros r a Hr Ha; apply Hx;
                 [apply in_or_app; now left | exact Ha] ].
    cbn [put_store].
    match goal with
    | |- context [Legend.insert_batches bs ?m ?w1] =>
        destruct (IH m w1) as (w' & E & Hrows & Hf')
    end; try assumption.
    + intros r a Hr Ha. unfold rows_of in Ha. cbn in Ha.
      apply in_app_or in Ha. destruct Ha as [Ha | Ha].
      * apply Hx; [apply in_or_app; now right | exact Ha].
      * apply agree_false_sym. now apply Hbr.
    + exists w'. rewrite E. split; [| split; [| exact Hf']].
      * f_equal. f_equal. rewrite length_app. lia.
      * rewrite Hrows. unfold rows_of. cbn. now rewrite app_assoc.
Qed.

Lemma coded_differs (r a : row) :
  coded r -> differs (col a "code") (JStr EmptyString) = false ->
  agree ["code"] r a = false.
Proof.
  intros (s & Hs & Hne) Ha. unfold agree. cbn [forallb]. rewrite Hs.
  destruct (col a "code") as [| b | n | s' | l | o]; try reflexivity.
  cbn in Ha. rewrite negb_false_iff in Ha. apply String.eqb_eq in Ha.
  subst s'. cbn. rewrite andb_true_r. now apply String.eqb_neq.
Qed.

(** X26. [populateLegendCodes] on a schema file whose codes are distinct
    strings that are not empty: the legend ends with its rows of an empty
    code followed by the codes of the file, in order, and the count is the
    number of codes. *)
Theorem populate_loads_every_code_once
  (schemaData : json) (codes : list row) (w : world) :
  Legend.allCodes schemaData = Ok codes ->
  Forall coded codes ->
  key_unique ["code"] codes ->
  faults w = [] ->
  mem "code" (columns (store w) "legend_codes") = true ->
  uniques (store w) "legend_codes" = [["code"]] ->
  exists w',
    Legend.populateLegendCodes schemaData w
    = (Ok (Some (List.length codes)), w')
    /\ rows_of w' "legend_codes"
       = without_code (rows_of w "legend_codes") ++ codes.
Proof.
  intros Hall Hc Hk Hf Hcol Hu.
  unfold Legend.populateLegendCodes. unfold bind at 1. unfold Http.attempt at 1.
  rewrite (delete_codes_ok w Hf Hcol), Hall.
  set (w1 := set_store _ w).
  destruct (batches_cover codes) as [Hcat _].
  destruct (insert_batches_ok (Legend.batches codes) 0 w1)
    as (w2 & E & Hr & Hf2).
  - exact Hf.
  - exact Hu.
  - now rewrite Hcat.
  - rewrite Hcat. intros r a Hr Ha. unfold rows_of, w1 in Ha. cbn in Ha.
    unfold without_code in Ha. apply filter_In in Ha. destruct Ha as [_ Ha].
    rewrite negb_true_iff in Ha. apply coded_differs; [| exact Ha].
    rewrite Forall_forall in Hc. now apply Hc.
  - now rewrite Hcat.
  - rewrite Hcat in E, Hr. unfold bind, Http.attempt, round_trip.
    rewrite E. cbv beta iota. rewrite Hf2. cbv beta iota. rewrite ?Hf2.
    cbn. exists w2. split; [reflexivity |].
    rewrite Hr. unfold rows_of, w1. cbn. reflexivity.
Qed.

End Populate.

Lemma populate_empties_witness :
  exists w',
    @Legend.populateLegendCodes Demo.platform Samples.truncated_schema_file
      Samples.old_legend = (Ok None, w')
    /\ rows_of w' "legend_codes"
       = without_code (rows_of Samples.old_legend "legend_codes").
Proof.
  apply (@populate_empties_the_table_before_it_reads_the_codes Demo.platform
           Samples.truncated_schema_file "conto_economico"
           Samples.old_legend).
  - cbn. tauto.
  - reflexivity.
  - reflexivity.
  - reflexivity.
Defined.

Lemma populate_loads_witness :
  exists w',
    @Legend.populateLegendCodes Demo.platform Samples.schema_file
      Samples.old_legend
    = (Ok (Some (List.length Samples.schema_codes)), w')
    /\ rows_of w' "legend_codes"
       = without_code (rows_of Samples.old_legend "legend_codes")
         ++ Samples.schema_codes.
Proof.
  apply (@populate_loads_every_code_once Demo.platform Samples.schema_file
           Samples.schema_codes Samples.old_legend).
  - reflexivity.
  - repeat constructor; eexists; (split; [reflexivity | discriminate]).
  - repeat constructor.
  - reflexivity.
  - reflexivity.
  - reflexivity.
Defined.

(** ** The upsert of line items *)

Lemma agree_filter_ext (K : list string) (k k' : row) (rows : list row) :
  agree K k k' = true ->
  filter (agree K k) rows = filter (agree K k') rows.
Proof.
  intros H. apply filter_ext_eq. intros o.
  destruct (agree K k o) eqn:Ho.
  - symmetry. exact (agree_trans K k k' o H Ho).
  - destruct (agree K k' o) eqn:Ho'; [| reflexivity].
    rewrite agree_sym in H.
    now rewrite (agree_trans K k' k o H Ho') in Ho.
Qed.

Lemma existsb_filter {A} (p : A -> bool) (l : list A) :
  existsb p l = negb (List.length (filter p l) =? 0)%nat.
Proof.
  induction l as [| a l IH]; cbn; [reflexivity |].
  destruct (p a); cbn; [reflexivity | exact IH].
Qed.

Lemma for_each_cons_ok {A} (x : A) (l : list A) (body : A -> M unit)
  (w w' : world) (u : unit) :
  for_each (x :: l) body w = (Ok u, w') ->
  exists w1, body x w = (Ok tt, w1) /\ for_each l body w1 = (Ok u, w').
Proof.
  cbn [for_each]. unfold bind.
  destruct (body x w) as [[[] | e] w1]; [eauto | discriminate].
Qed.

Section UpsertRows.
Context {P : Platform}.

(** The rows [insert ... on conflict (K) do update] leaves: the rows it
    found, those with the key sent updated, or the rows it found and the
    row sent. *)
Lemma sql_upsert_rows (t : string) (K : list string)
  (sets : row -> list (string * json)) (r : row) (w w' : world) (u : unit) :
  match default_id t with Some c => ~ In c K | None => True end ->
  sql_upsert t K sets r w = (Ok u, w') ->
  arbiter (store w) t K = true
  /\ (forall t', t' <> t -> tables (store w') t' = tables (store w) t')
  /\ (tables (store w') t
      = map (fun o => if agree K r o then set_cols (sets o) o else o)
          (tables (store w) t)
      \/ exists r',
           tables (store w') t = tables (store w) t ++ [r']
           /\ forall c, In c K -> col r' c = col r c).
Proof.
  intros Hdef H. unfold sql_upsert in H.
  bind_inv H. apply round_trip_ok in Hm. destruct Hm as [Hs0 _].
  bind_inv H. unfold get_store in Hm. inversion Hm; subst; clear Hm.
  rewrite Hs0 in *.
  destruct (arbiter (store w) t K); cbn [negb] in H; [| discriminate].
  split; [reflexivity |].
  destruct (existsb (agree K r) (tables (store w) t)).
  - destruct (existsb _ (tables (store w) t)) in H; [discriminate |].
    unfold put_store in H. inversion H; subst; clear H.
    cbn [store set_store tables set_table]. rewrite String.eqb_refl.
    split; [| now left].
    intros t' Ht. now destruct (String.eqb_spec t' t).
  - bind_inv H. apply with_default_id_ok in Hm. destruct Hm as [Hs1 Hr'].
    destruct (violates _ _ _ _) in H; [discriminate |].
    unfold put_store in H. inversion H; subst; clear H.
    cbn [store set_store tables set_table]. rewrite String.eqb_refl.
    split.
    + intros t' Ht. now destruct (String.eqb_spec t' t).
    + right. exists a0. split; [reflexivity |].
      intros c Hc. destruct (default_id t) as [c0 |].
      * destruct Hr' as (v & ->). unfold col. cbn.
        destruct (String.eqb_spec c c0); [now subst | reflexivity].
      * now subst.
Qed.

(** It leaves the rows of the other keys as they are, and a key that had
    a row keeps one. *)
Lemma sql_upsert_other_keys (t : string) (K : list string)
  (sets : row -> list (string * json)) (r : row) (w w' : world) (u : unit) :
  (forall o c, In c K -> agree K r o = true ->
               col (set_cols (sets o) o) c = col o c) ->
  match default_id t with Some c => ~ In c K | None => True end ->
  sql_upsert t K sets r w = (Ok u, w') ->
  (forall k, agree K k r = false ->
             filter (agree K k) (tables (store w') t)
             = filter (agree K k) (tables (store w) t))
  /\ (forall k, existsb (agree K k) (tables (store w) t) = true ->
                existsb (agree K k) (tables (store w') t) = true).
Proof.
  intros Hsets Hdef H.
  destruct (sql_upsert_rows _ _ _ _ _ _ _ Hdef H) as (_ & _ & Hrows).
  set (update := fun o : row =>
                   if agree K r o then set_cols (sets o) o else o) in *.
  assert (Hkeep : forall k o, agree K k (update o) = agree K k o).
  { intros k o. apply agree_same_key. intros c Hc. unfold update.
    destruct (agree K r o) eqn:Ho; [now apply Hsets | reflexivity]. }
  destruct Hrows as [-> | (r' & -> & Hr')]; split.
  - intros k Hk. generalize (tables (store w) t).
    induction l as [| o l IH]; [reflexivity |].
    cbn [map filter]. rewrite Hkeep, IH.
    destruct (agree K k o) eqn:Hko; [| reflexivity].
    f_equal. unfold update. destruct (agree K r o) eqn:Hro; [| reflexivity].
    rewrite agree_sym in Hko, Hro.
    now rewrite (agree_trans K o k r Hko Hro) in Hk.
  - intros k Hk. rewrite <- Hk. generalize (tables (store w) t).
    induction l as [| o l IH]; [reflexivity |].
    cbn [map existsb]. now rewrite Hkeep, IH.
  - intros k Hk. rewrite filter_app. cbn [filter].
    rewrite (agree_same_key K k r r' Hr'), Hk. apply app_nil_r.
  - intros k Hk. rewrite existsb_app, Hk. reflexivity.
Qed.

End UpsertRows.

Section LineItems.
Context {P : Platform}.
Variable azienda_id : string.
Variable body : entry -> M unit.
Variable stored : world -> entry -> row -> Prop.

Hypothesis body_step :
  forall e w w',
    key_unique Cli.balance_key (rows_of w "balance_entries") ->
    body e w = (Ok tt, w') ->
    line_step azienda_id stored e w w'.

(** A key that has one row keeps one row along the loop, the same row when
    no line item of the loop has the key. *)
Lemma loop_keeps_the_row (l : list entry) :
  forall (w w' : world) (u : unit) (k x0 : row),
    key_unique Cli.balance_key (rows_of w "balance_entries") ->
    for_each l body w = (Ok u, w') ->
    filter (agree Cli.balance_key k) (rows_of w "balance_entries") = [x0] ->
    exists x,
      filter (agree Cli.balance_key k) (rows_of w' "balance_entries") = [x]
      /\ (existsb (has_line azienda_id k) l = false -> x = x0).
Proof.
  induction l as [| e l IH]; intros w w' u k x0 Hu H Hk.
  - inversion H; subst. now exists x0.
  - apply for_each_cons_ok in H. destruct H as (w1 & He & Hl).
    destruct (body_step e w w1 Hu He) as (Hu1 & _ & _ & Hcase).
    cbn [existsb]. unfold has_line at 1.
    destruct (keyed e).
    + destruct Hcase as (y & x1 & Hy & Hx1 & _ & Hframe & _).
      rewrite Hy. cbn [andb].
      destruct (agree Cli.balance_key k (line_key azienda_id y e)) eqn:Hke.
      * rewrite <- (agree_filter_ext Cli.balance_key k _ _ Hke) in Hx1.
        destruct (IH w1 w' u k x1 Hu1 Hl Hx1) as (x & Hx & _).
        exists x. split; [exact Hx | discriminate].
      * rewrite <- (Hframe k Hke) in Hk.
        exact (IH w1 w' u k x0 Hu1 Hl Hk).
    + rewrite <- Hcase in Hk. exact (IH w1 w' u k x0 Hu1 Hl Hk).
Qed.

Lemma known_next (e e' : entry) (w w1 : world) :
  line_step azienda_id stored e w w1 ->
  known azienda_id w e' = true -> known azienda_id w1 e' = true.
Proof.
  intros (_ & _ & Hkeys & _). unfold known.
  destruct (keyed e'); cbn [negb orb]; [| reflexivity].
  destruct (pg_integer (or_null (e_year e'))); [apply Hkeys | reflexivity].
Qed.

(** The loop over the line items, for a body that does to the table what
    [line_step] says. *)
Lemma loop_keeps_one_row_per_key (entries : list entry) :
  forall (w w' : world) (u : unit),
    key_unique Cli.balance_key (rows_of w "balance_entries") ->
    for_each entries body w = (Ok u, w') ->
    key_unique Cli.balance_key (rows_of w' "balance_entries")
    /\ (forall before e after,
          entries = before ++ e :: after -> keyed e = true ->
          exists (y : Z) (x : row),
            pg_integer (or_null (e_year e)) = Some y
            /\ filter (agree Cli.balance_key (line_key azienda_id y e))
                 (rows_of w' "balance_entries") = [x]
            /\ (existsb (has_line azienda_id (line_key azienda_id y e))
                  after = false ->
                stored w e x))
    /\ (forall k,
          existsb (has_line azienda_id k) entries = false ->
          filter (agree Cli.balance_key k) (rows_of w' "balance_entries")
          = filter (agree Cli.balance_key k) (rows_of w "balance_entries"))
    /\ (forallb (known azienda_id w) entries = true ->
        List.length (rows_of w' "balance_entries")
        = List.length (rows_of w "balance_entries")).
Proof.
  induction entries as [| e0 l IH]; intros w w' u Hu H.
  - inversion H; subst. split; [exact Hu |]. split; [| split].
    + intros [| b bs] e after E; discriminate E.
    + reflexivity.
    + reflexivity.
  - apply for_each_cons_ok in H. destruct H as (w1 & He & Hl).
    pose proof (body_step e0 w w1 Hu He) as Hstep.
    destruct Hstep as (Hu1 & Hinv & Hkeys & Hcase).
    destruct (IH w1 w' u Hu1 Hl) as (Hu' & Hall & Hother & Hlen).
    split; [exact Hu' |]. split; [| split].
    + intros [| b before] e1 after E Hkeyed; inversion E; subst; clear E.
      * rewrite Hkeyed in Hcase.
        destruct Hcase as (y & x0 & Hy & Hx0 & Hst & _).
        destruct (loop_keeps_the_row after w1 w' u _ x0 Hu1 Hl Hx0)
          as (x & Hx & Hsame).
        exists y, x. split; [exact Hy | split; [exact Hx |]].
        intros Hlast. now rewrite (Hsame Hlast).
      * destruct (Hall before e1 after eq_refl Hkeyed)
          as (y & x & Hy & Hx & Hst).
        exists y, x. split; [exact Hy | split; [exact Hx |]].
        intros Hlast. apply Hinv. now apply Hst.
    + intros k Hk. cbn [existsb] in Hk. apply orb_false_iff in Hk.
      destruct Hk as [Hk0 Hk]. rewrite (Hother k Hk).
      unfold has_line in Hk0. destruct (keyed e0).
      * destruct Hcase as (y & x0 & Hy & _ & _ & Hframe & _).
        rewrite Hy in Hk0. now apply Hframe.
      * now rewrite Hcase.
    + intros Hknown. cbn [forallb] in Hknown.
      apply andb_true_iff in Hknown. destruct Hknown as [Hk0 Hk].
      rewrite Hlen.
      * unfold known in Hk0. destruct (keyed e0); cbn [negb orb] in Hk0.
        -- destruct Hcase as (y & x0 & Hy & _ & _ & _ & Hsize).
           rewrite Hy in Hk0. now apply Hsize.
        -- now rewrite Hcase.
      * apply forallb_forall. intros e' He'.
        apply (known_next e0 e' w w1);
          [exact (conj Hu1 (conj Hinv (conj Hkeys Hcase))) |].
        rewrite forallb_forall in Hk. now apply Hk.
Qed.

End LineItems.

Section CliLines.
Context {P : Platform}.

Lemma keyed_tests (e : entry) :
  negb (truthyv (e_year e)) || String.eqb (e_statement e) EmptyString
  || negb (truthy (e_code e)) = negb (keyed e).
Proof.
  unfold keyed, has_keys.
  destruct (truthyv (e_year e)), (truthy (e_code e)),
    (String.eqb (e_statement e) EmptyString); reflexivity.
Qed.

Lemma keyed_code (e : entry) : keyed e = true -> truthy (e_code e) = true.
Proof.
  unfold keyed, has_keys. intros H.
  apply andb_true_iff in H. destruct H as [H _].
  apply andb_true_iff in H. tauto.
Qed.

Lemma keyed_code_text (e : entry) :
  keyed e = true -> key_eqb (as_text (e_code e)) (as_text (e_code e)) = true.
Proof.
  intros Hk. rewrite (as_text_truthy _ (keyed_code e Hk)). cbn.
  apply String.eqb_refl.
Qed.

Lemma cli_stored_same (w w' : world) :
  tables (store w') "legend_codes" = tables (store w) "legend_codes" ->
  forall e x, cli_stored w' e x <-> cli_stored w e x.
Proof.
  intros H e x. unfold cli_stored, cli_description, legend_rows, rows_of.
  now rewrite H.
Qed.

(** What a skipped line item leaves. *)
Lemma skipped_line_step (azienda_id : string)
  (stored : world -> entry -> row -> Prop) (e : entry) (w w' : world) :
  keyed e = false ->
  key_unique Cli.balance_key (rows_of w "balance_entries") ->
  rows_of w' "balance_entries" = rows_of w "balance_entries" ->
  (forall e' x, stored w' e' x <-> stored w e' x) ->
  line_step azienda_id stored e w w'.
Proof.
  intros Hk Hu Hrows Hinv. unfold line_step. rewrite Hk, Hrows.
  repeat split; try assumption; try apply Hinv; auto.
Qed.

(** The description [index.js] sends. *)
Lemma cli_description_sent (e : entry) (w w0 : world) (desc : json) :
  truthy (e_code e) = true ->
  (if negb (truthy (or_null (e_description e))) && truthy (e_code e) then
     res <- sql_select "legend_codes" "code" (as_text (e_code e)) ;;
     match res with
     | first :: _ => ret (col first "description")
     | [] =>
         sql_upsert "unmapped_codes" ["code"] Cli.unmapped_sets
           [("code", as_text (e_code e));
            ("statement_guess", JStr (e_statement e));
            ("occurrences", JNum 1)] ;;;
         ret (or_null (e_description e))
     end
   else ret (or_null (e_description e))) w = (Ok desc, w0) ->
  desc = cli_description w e
  /\ tables (store w0) "balance_entries" = tables (store w) "balance_entries"
  /\ tables (store w0) "legend_codes" = tables (store w) "legend_codes".
Proof.
  intros Hcode H. rewrite Hcode, andb_true_r in H.
  assert (F : forall t, t <> "unmapped_codes" ->
                        same_table t (store w) (store w0)).
  { intros t Ht. refine (preserves_run _ H).
    frame ltac:(first [ apply same_table_refl | apply same_table_trans
                      | apply same_table_columns
                      | apply same_table_free; cbn;
                        destruct (String.eqb_spec t "unmapped_codes");
                        [contradiction | reflexivity] ]) fail. }
  split; [| split; apply F; discriminate].
  unfold cli_description.
  destruct (truthy (or_null (e_description e))); cbn [negb] in H.
  - now inversion H.
  - bind_inv H. apply sql_select_ok in Hm. destruct Hm as [Hs ->].
    unfold legend_rows, rows_of.
    destruct (filter _ (tables (store w) "legend_codes")) as [| first rest].
    + bind_inv H. now inversion H.
    + now inversion H.
Qed.

Lemma cli_line_step (azienda_id : string) (e : entry) (w w' : world) :
  key_unique Cli.balance_key (rows_of w "balance_entries") ->
  Cli.upsertBalanceEntry azienda_id e w = (Ok tt, w') ->
  line_step azienda_id cli_stored e w w'.
Proof.
  intros Hu H. unfold Cli.upsertBalanceEntry in H.
  rewrite keyed_tests in H. destruct (keyed e) eqn:Hk; cbn [negb] in H.
  - cbv zeta in H. bind_inv H.
    destruct (cli_description_sent e w w0 a (keyed_code e Hk) Hm)
      as (-> & Hrows & Hleg).
    destruct (pg_integer (or_null (e_year e))) as [y |] eqn:Hy;
      [| discriminate].
    match type of H with
    | sql_upsert _ _ _ ?r _ = _ => set (sent := r) in *
    end.
    assert (Hsets : forall o c, In c Cli.balance_key ->
                      agree Cli.balance_key sent o = true ->
                      col (set_cols (Cli.balance_sets sent o) o) c = col o c).
    { intros o c Hc _. rewrite col_set_cols. cbn in Hc.
      destruct Hc as [<- | [<- | [<- | [<- | []]]]]; reflexivity. }
    assert (Hdef : match default_id "balance_entries" with
                   | Some c => ~ In c Cli.balance_key
                   | None => True
                   end).
    { cbn. intros [E | [E | [E | [E | []]]]]; discriminate E. }
    destruct (sql_upsert_rows "balance_entries" Cli.balance_key _ _ _ _ _
                Hdef H) as (_ & Hothers & _).
    destruct (sql_upsert_other_keys "balance_entries" Cli.balance_key _ _ _ _
                _ Hsets Hdef H)
      as (Hframe & Hkeys).
    apply sql_upsert_on_key in H;
      [| | exact Hsets | exact Hdef | now rewrite Hrows].
    2: { intros c Hc. cbn in Hc.
         destruct Hc as [<- | [<- | [<- | [<- | []]]]]; cbn;
           try apply String.eqb_refl; try apply Z.eqb_refl.
         exact (keyed_code_text e Hk). }
    destruct H as (Hu' & x & Hx & Hcase).
    rewrite Hrows in Hcase, Hframe, Hkeys.
    unfold line_step, rows_of. rewrite Hk.
    split; [exact Hu' |]. split; [| split; [exact Hkeys |]].
    + apply cli_stored_same. rewrite <- Hleg. apply Hothers. discriminate.
    + exists y, x. split; [exact Hy |]. split; [exact Hx |].
      split; [| split; [exact Hframe |]].
      * unfold cli_stored.
        destruct (existsb (agree Cli.balance_key sent) _).
        -- destruct Hcase as (_ & o & _ & _ & ->).
           rewrite !col_set_cols. cbn. now repeat split.
        -- destruct Hcase as (_ & v & ->). now repeat split.
      * intros Hex.
        change (existsb (agree Cli.balance_key sent)
                  (tables (store w) "balance_entries") = true) in Hex.
        rewrite Hex in Hcase. tauto.
  - unfold push_warning in H. inversion H; subst.
    apply skipped_line_step; try assumption; reflexivity.
Qed.

End CliLines.

Section HttpLines.
Context {P : Platform}.




End HttpLines.

(** C2.  The loop of [index.js] over the line items, when it returns on a
    table whose rows are pairwise distinct on
    [(azienda_id, year, statement, code)]: the rows are still pairwise
    distinct on that key; every line item that has its keys has exactly
    one row under its key, and that row holds the amount, the description
    (its own, or the one the legend has for its code) and the currency of
    the line item when no later line item has the same key; the rows
    under a key that no line item has are left as they are; and the table
    has not grown when every key was there. *)
Theorem upsert_keeps_one_row_per_key :
  forall (P : Platform) (azienda_id : string) (entries : list entry)
         (w w' : world) (u : unit),
    key_unique Cli.balance_key (rows_of w "balance_entries") ->
    Cli.upsertBalanceEntries azienda_id entries w = (Ok u, w') ->
    key_unique Cli.balance_key (rows_of w' "balance_entries")
    /\ (forall before e after,
          entries = before ++ e :: after -> keyed e = true ->
          exists (y : Z) (x : row),
            pg_integer (or_null (e_year e)) = Some y
            /\ filter (agree Cli.balance_key (line_key azienda_id y e))
                 (rows_of w' "balance_entries") = [x]
            /\ (existsb (has_line azienda_id (line_key azienda_id y e))
                  after = false ->
                col x "amount" = nullish_null (amount_value (e_amount e))
                /\ col x "description" = as_text (cli_description w e)
                /\ col x "currency" = as_text (e_currency e)))
    /\ (forall k,
          existsb (has_line azienda_id k) entries = false ->
          filter (agree Cli.balance_key k) (rows_of w' "balance_entries")
          = filter (agree Cli.balance_key k) (rows_of w "balance_entries"))
    /\ (forallb (known azienda_id w) entries = true ->
        List.length (rows_of w' "balance_entries")
        = List.length (rows_of w "balance_entries")).
Proof.
  intros P azienda_id entries w w' u Hu H.
  unfold Cli.upsertBalanceEntries in H.
  apply (loop_keeps_one_row_per_key azienda_id
           (Cli.upsertBalanceEntry azienda_id) cli_stored) with (u := u);
    [| exact Hu | exact H].
  intros e w0 w1. apply cli_line_step.
Qed.

Lemma upsert_keeps_one_row_per_key_witness :
  exists (y : Z) (x : row),
    @pg_integer Demo.platform (or_null (e_year (Samples.line_item 150)))
    = Some y
    /\ filter (agree Cli.balance_key
                 (@line_key Demo.platform "v5(IT12345678901)" y
                    (Samples.line_item 150)))
         (rows_of Samples.after_second_upsert "balance_entries") = [x]
    /\ col x "amount" = JNum 150
    /\ col x "description" = JNull
    /\ col x "currency" = JStr "EUR".
Proof.
  destruct (upsert_keeps_one_row_per_key Demo.platform "v5(IT12345678901)"
              [Samples.line_item 150] Samples.after_first_upsert
              Samples.after_second_upsert tt)
    as (_ & Hrow & _).
  - vm_compute. repeat constructor.
  - vm_compute. reflexivity.
  - destruct (Hrow [] (Samples.line_item 150) [] eq_refl eq_refl)
      as (y & x & Hy & Hx & Hcols).
    exists y, x. split; [exact Hy | split; [exact Hx |]].
    exact (Hcols eq_refl).
Defined.

(** The scenario of the claim, through [main] of [index.js] on a store
    with the unique index on the key: the document with amount 100
    ingested, then the document with amount 150, leave one row of
    [balance_entries], with amount 150, and both runs end well. *)
Example upsert_scenario :
  map (fun e => (e_year e, e_statement e, e_code e, e_amount e))
    (Cli.extractBalanceEntries (Samples.statement_of 100))
  = [(Some (JNum 2023), "CE", JStr "A1", Amt (Some (JNum 100)))]
  /\ map (fun r => (col r "year", col r "statement", col r "code",
                    col r "amount"))
       (rows_of (snd (@Cli.main Demo.platform (Samples.statement_of 100)
                        (Demo.world_on Samples.indexed_db)))
          "balance_entries")
     = [(JNum 2023, JStr "CE", JStr "A1", JNum 100)]
  /\ map (fun r => (col r "year", col r "statement", col r "code",
                    col r "amount"))
       (rows_of Samples.ingested_twice "balance_entries")
     = [(JNum 2023, JStr "CE", JStr "A1", JNum 150)]
  /\ map (fun r => col r "status")
       (rows_of Samples.ingested_twice "ingestions")
     = [JStr "UPDATED"; JStr "UPDATED"].
Proof. repeat split; vm_compute; reflexivity. Qed.

(** On the store of the schema file as it is listed, which has no unique
    constraint on the key, the statement is refused. *)
Example upsert_needs_the_index :
  fst (@Cli.upsertBalanceEntries Demo.platform "v5(IT12345678901)"
         [Samples.line_item 100] (Demo.world_on empty_db))
  = Throw no_arbiter.
Proof. vm_compute. reflexivity. Qed.


